(** * caf: request dispatch, response engine, error interception and CORS

    A shallow embedding of the TypeScript sources of the caf HTTP framework
    (api.ts, error.ts, response.ts, body.ts, types.ts, cors.ts, router.ts and
    the registration part of app.ts), with the properties of its
    specification stated and proved over the embedding.

    Conventions.
    - A JavaScript string is a [string]; a chunk of bytes is a [string] too.
    - A JavaScript object used as a dictionary is a [gmap string _].  Every
      key the code builds is either [METHOD ^ " " ^ path] or an upper-cased
      method, so none collides with a member of [Object.prototype].
    - Code that may raise runs in the monad [M S], a state monad over [S]
      whose result is a [Completion]: a returned value or a thrown one.
    - [async] functions are run to completion in program order. *)

From stdpp Require Import gmap strings list.
From Stdlib Require Import ZArith Ascii String.

Local Open Scope string_scope.
Local Open Scope Z_scope.
Local Open Scope list_scope.

(** ** JavaScript strings *)

Module JsString.

Definition is_upper (c : ascii) : bool :=
  let n := N_of_ascii c in (65 <=? n)%N && (n <=? 90)%N.

Definition is_lower (c : ascii) : bool :=
  let n := N_of_ascii c in (97 <=? n)%N && (n <=? 122)%N.

Definition lower_char (c : ascii) : ascii :=
  if is_upper c then ascii_of_N (N_of_ascii c + 32) else c.

Definition upper_char (c : ascii) : ascii :=
  if is_lower c then ascii_of_N (N_of_ascii c - 32) else c.

Fixpoint map_chars (f : ascii -> ascii) (s : string) : string :=
  match s with
  | EmptyString => EmptyString
  | String c r => String (f c) (map_chars f r)
  end.

(** [String.prototype.toLowerCase] and [toUpperCase] on the ASCII letters;
    every other byte is kept (methods and header field names are ASCII
    tokens). *)
Definition toLowerCase : string -> string := map_chars lower_char.
Definition toUpperCase : string -> string := map_chars upper_char.

(** White space stripped by [String.prototype.trim] (the ASCII part). *)
Definition is_space (c : ascii) : bool :=
  let n := N_of_ascii c in
  (n =? 32)%N || ((9 <=? n)%N && (n <=? 13)%N).

Fixpoint trimStart (s : string) : string :=
  match s with
  | String c r => if is_space c then trimStart r else s
  | EmptyString => EmptyString
  end.

(** [trimEnd s]: drop the trailing white space; written by recursion from
    the front: a character is kept unless all that follows is white. *)
Fixpoint trimEnd (s : string) : string :=
  match s with
  | EmptyString => EmptyString
  | String c r =>
      match trimEnd r with
      | EmptyString => if is_space c then EmptyString else String c EmptyString
      | r' => String c r'
      end
  end.

Definition trim (s : string) : string := trimEnd (trimStart s).

(** [s.split(sep)] for a one-character separator: never the empty list,
    [''.split(',')] is [['']]. *)
Fixpoint split (sep : ascii) (s : string) : list string :=
  match s with
  | EmptyString => [EmptyString]
  | String c r =>
      if Ascii.eqb c sep then EmptyString :: split sep r
      else match split sep r with
           | w :: ws => String c w :: ws
           | [] => [String c EmptyString]
           end
  end.

(** [arr.join(sep)]. *)
Fixpoint join (sep : string) (l : list string) : string :=
  match l with
  | [] => ""
  | [x] => x
  | x :: r => x +:+ sep +:+ join sep r
  end.

(** [arr.includes(x)] on an array of strings. *)
Definition includes (l : list string) (x : string) : bool :=
  existsb (String.eqb x) l.

(** [s.indexOf(needle)]: the first position, or [-1]. *)
Definition indexOf (s needle : string) : Z :=
  match String.index 0 needle s with
  | Some i => Z.of_nat i
  | None => -1
  end.

(** [s.slice(0, n)]. *)
Definition slice0 (n : nat) (s : string) : string := String.substring 0 n s.

(** [s.substring(1)]. *)
Definition substring1 (s : string) : string :=
  match s with
  | EmptyString => EmptyString
  | String _ r => r
  end.

(** Decimal rendering of an integer, as [String(n)] gives it. *)
Fixpoint digits (fuel : nat) (n : N) (acc : string) : string :=
  match fuel with
  | O => acc
  | S f =>
      let d := ascii_of_N (48 + N.modulo n 10) in
      if (n <? 10)%N then String d acc
      else digits f (N.div n 10) (String d acc)
  end.

Definition of_N (n : N) : string := digits (S (N.to_nat (N.log2 n))) n "".

Definition of_Z (z : Z) : string :=
  match z with
  | Z0 => "0"
  | Zpos p => of_N (Npos p)
  | Zneg p => "-" +:+ of_N (Npos p)
  end.

End JsString.

(** ** JavaScript values *)

(** A [number]: an integer of the size of a status code or of an age in
    seconds (below 10^21, where [String] gives its decimal digits), or any
    other number (a fraction, [NaN], an infinity), kept by the text [String]
    gives for it. *)
Inductive Number :=
| NInt (z : Z)
| NOther (repr : string).

(** error.ts: [class HTTPError extends Error], with [status] and [type]. *)
Module HTTPError.
Record t := new {
  status : Z;
  message : string;
  type : string
}.
End HTTPError.

(** A JavaScript value. Of an object the code observes [JSON.stringify(o)]
    and [String(o)] only, so an object is kept by these two ([ObjView]).
    [JSON.stringify] gives the text of an object, or [undefined] (a [toJSON]
    method that returns it), or raises: a [TypeError] for an object that
    reaches itself or holds a [BigInt], else what a [toJSON] method
    raises. A [bigint] is kept by its integer, a [symbol] by its
    description. *)
Inductive JSValue :=
| VUndefined
| VNull
| VBool (b : bool)
| VNum (n : Number)
| VStr (s : string)
| VObject (o : ObjView)                  (* a plain object or an array *)
| VBuffer (bytes : string)               (* std/io [Buffer] *)
| VArrayBuffer (bytes : string)
| VFunction (str : string)
| VError (msg : string) (o : ObjView)    (* an [Error] that is no [HTTPError] *)
| VHTTPError (e : HTTPError.t)
| VBigInt (z : Z)
| VSymbol (description : string)
with ObjView :=
| mkObjView (json : Json) (str : string)
with Json :=
| JsonText (s : string)
| JsonUndefined
| JsonThrows (e : JSValue).

Definition view_json (o : ObjView) : Json :=
  match o with mkObjView j _ => j end.

Definition view_str (o : ObjView) : string :=
  match o with mkObjView _ s => s end.

(** The [TypeError] the platform raises. *)
Definition TypeError (msg : string) : JSValue :=
  VError msg (mkObjView (JsonText "{}") ("TypeError: " +:+ msg)).

Module Js.

Definition Number_isInteger (v : JSValue) : bool :=
  match v with
  | VNum (NInt _) => true
  | _ => false
  end.

Definition Number_toString (n : Number) : string :=
  match n with
  | NInt z => JsString.of_Z z
  | NOther r => r
  end.

(** [QuoteJSONString] on the bytes of a string. *)
Definition hex_digit (n : N) : ascii :=
  if (n <? 10)%N then ascii_of_N (48 + n) else ascii_of_N (87 + n).

Definition quote_char (c : ascii) : string :=
  let n := N_of_ascii c in
  if (n =? 34)%N then String "\" (String c "") else if (n =? 92)%N then "\\"
  else if (n =? 8)%N then "\b" else if (n =? 9)%N then "\t"
  else if (n =? 10)%N then "\n" else if (n =? 12)%N then "\f"
  else if (n =? 13)%N then "\r"
  else if (n <? 32)%N then
    "\u00" +:+ String (hex_digit (N.div n 16)) (String (hex_digit (N.modulo n 16)) "")
  else String c "".

Fixpoint quote_body (s : string) : string :=
  match s with
  | EmptyString => EmptyString
  | String c r => quote_char c +:+ quote_body r
  end.

Definition dq : string := String (ascii_of_N 34) "".

Definition quote (s : string) : string := dq +:+ quote_body s +:+ dq.

(** [String(v)]. *)
Definition String_ (v : JSValue) : string :=
  match v with
  | VUndefined => "undefined"
  | VNull => "null"
  | VBool true => "true"
  | VBool false => "false"
  | VNum n => Number_toString n
  | VStr s => s
  | VObject o => view_str o
  | VBuffer _ => "[object Object]"
  | VArrayBuffer _ => "[object ArrayBuffer]"
  | VFunction s => s
  | VError _ o => view_str o
  | VHTTPError e =>
      if String.eqb (HTTPError.message e) "" then "HTTPError"
      else "HTTPError: " +:+ HTTPError.message e
  | VBigInt z => JsString.of_Z z
  | VSymbol d => "Symbol(" +:+ d +:+ ")"
  end.

(** [JSON.stringify(v)]: a text, [undefined], or an exception. [undefined],
    a function and a symbol have no JSON text; a [bigint] raises; [NaN] and
    the infinities are written [null], any other number as [String] writes
    it. An HTTPError serializes its own enumerable properties: the fields
    the class declares, [status] and [type], then [name], which the
    constructor adds; a buffer has none. *)
Definition JSON_stringify (v : JSValue) : Json :=
  match v with
  | VObject o | VError _ o => view_json o
  | VHTTPError e =>
      JsonText
        ("{" +:+ dq +:+ "status" +:+ dq +:+ ":" +:+ JsString.of_Z (HTTPError.status e) +:+
         "," +:+ dq +:+ "type" +:+ dq +:+ ":" +:+ quote (HTTPError.type e) +:+
         "," +:+ dq +:+ "name" +:+ dq +:+ ":" +:+ quote "HTTPError" +:+ "}")
  | VStr s => JsonText (quote s)
  | VBool _ | VNum (NInt _) => JsonText (String_ v)
  | VNum (NOther r) =>
      if String.eqb r "NaN" || String.eqb r "Infinity" || String.eqb r "-Infinity"
      then JsonText "null" else JsonText r
  | VBuffer _ | VArrayBuffer _ => JsonText "{}"
  | VNull => JsonText "null"
  | VUndefined | VFunction _ | VSymbol _ => JsonUndefined
  | VBigInt _ => JsonThrows (TypeError "Do not know how to serialize a BigInt")
  end.

Definition typeof_object (v : JSValue) : bool :=
  match v with
  | VNull | VObject _ | VBuffer _ | VArrayBuffer _ | VError _ _
  | VHTTPError _ => true
  | _ => false
  end.

(** [v == ''] (loose equality with the empty string). An object is
    compared by its primitive value, which for a plain object, an array, a
    function or an error is its string. *)
Definition loose_eq_empty (v : JSValue) : bool :=
  match v with
  | VStr s => String.eqb s ""
  | VNum (NInt z) => Z.eqb z 0
  | VBool b => negb b
  | VObject _ | VBuffer _ | VArrayBuffer _ | VFunction _ | VError _ _
  | VHTTPError _ => String.eqb (String_ v) ""
  | VBigInt z => Z.eqb z 0
  | _ => false
  end.

(** Truthiness, as [v ? a : b] tests it. *)
Definition truthy (v : JSValue) : bool :=
  match v with
  | VUndefined | VNull => false
  | VBool b => b
  | VNum (NInt z) => negb (Z.eqb z 0)
  | VNum (NOther r) => negb (String.eqb r "NaN")
  | VStr s => negb (String.eqb s "")
  | VBigInt z => negb (Z.eqb z 0)
  | _ => true
  end.

End Js.

(** ** Completions and the state-and-exception monad *)

Inductive Completion (A : Type) :=
| Normal (a : A)
| Throw (e : JSValue).

Arguments Normal {A} a.
Arguments Throw {A} e.

Definition M (S A : Type) : Type := S -> Completion A * S.

Definition ret {S A} (a : A) : M S A := fun s => (Normal a, s).

Definition bind {S A B} (c : M S A) (k : A -> M S B) : M S B :=
  fun s =>
    match c s with
    | (Normal a, s') => k a s'
    | (Throw e, s') => (Throw e, s')
    end.

Definition throw {S A} (e : JSValue) : M S A := fun s => (Throw e, s).

Definition get_state {S} : M S S := fun s => (Normal s, s).

Definition modify {S} (f : S -> S) : M S unit := fun s => (Normal tt, f s).

(** [try { c } catch(err) { h err }]. *)
Definition try_catch {S A} (c : M S A) (h : JSValue -> M S A) : M S A :=
  fun s =>
    match c s with
    | (Normal a, s') => (Normal a, s')
    | (Throw e, s') => h e s'
    end.

Notation "'let*' x ':=' c 'in' k" := (bind c (fun x => k))
  (at level 10, x name, c at level 100, k at level 200).
Notation "c ';;' k" := (bind c (fun _ => k))
  (at level 100, k at level 200, right associativity).

Definition when {S} (b : bool) (c : M S unit) : M S unit :=
  if b then c else ret tt.

(** ** What the platform and the Deno standard library provide *)

(** A compiled regular expression, by what [exec] returns on a string:
    [None] for [null], else the captured groups 1, 2, ... ([None] for a
    group that did not take part). *)
Definition RegExp := string -> option (list (option string)).

Class Platform := {
  (** std/fmt/printf [sprintf(format, ...args)], all arguments strings. *)
  sprintf : string -> list string -> string;
  (** A format without a verb is printed as it is. *)
  sprintf_verbatim :
    forall s, JsString.indexOf s "%" = -1 -> sprintf s [] = s;
  (** [new RegExp(source)]; [None] when the source is no regular expression
      (a [SyntaxError]). *)
  RegExp_new : string -> option RegExp
}.

(** ** The logger *)

Inductive Level := LDebug | LInfo | LWarn | LError | LFatal.

(** The object [trigger] builds for a request and hands to the response and
    to the error interceptor. *)
Record ReqInfo := mkReqInfo {
  req_method : string;
  req_path : string;
  req_host : option string;
  req_agent : option string;
  req_type : string;
  req_msg : string
}.

(** Modelled from the spec: the logger ([logger.ts] is not among the
    sources). A call of [log.debug], [log.warn] or [log.error] records one
    structured entry [{type, level, msg, status, method, path, err}];
    [entry_call] is the method that was called, [entry_level] the [level]
    field the caller put in the entry, if any. *)
Record LogEntry := mkLogEntry {
  entry_call : Level;
  entry_req : option ReqInfo;
  entry_type : option string;
  entry_level : option string;
  entry_msg : option string;
  entry_status : option Z;
  entry_err : option JSValue
}.

Definition Logger := list LogEntry.

(** ** Headers (the Fetch [Headers] class) *)

Module Headers.

(** Entries in insertion order, names lower-cased. The class raises a
    TypeError for a name that is no token and for a value that holds a NUL,
    a CR or an LF, and strips a value of white space at both ends before it
    stores it. The operations below are those of the class on the names and
    values it takes as they are given ([is_token], [is_field_value]). *)
Definition t := list (string * string).

(** A name is a token. A field value here is a value of printable ASCII
    characters, spaces and tabs that neither starts nor ends with a space
    or a tab: the class stores it unchanged. *)
Definition token_char (c : ascii) : bool :=
  JsString.is_upper c || JsString.is_lower c ||
  (let n := N_of_ascii c in (48 <=? n)%N && (n <=? 57)%N) ||
  existsb (Ascii.eqb c)
    ["!"; "#"; "$"; "%"; "&"; "'"; "*"; "+"; "-"; "."; "^"; "_"; "`"; "|"; "~"]%char.

Fixpoint all_chars (f : ascii -> bool) (s : string) : bool :=
  match s with
  | EmptyString => true
  | String c r => f c && all_chars f r
  end.

Definition is_token (k : string) : bool :=
  negb (String.eqb k "") && all_chars token_char k.

Definition blank (c : ascii) : bool :=
  let n := N_of_ascii c in (n =? 32)%N || (n =? 9)%N.

Definition value_char (c : ascii) : bool :=
  let n := N_of_ascii c in ((32 <=? n)%N && (n <=? 126)%N) || (n =? 9)%N.

Definition starts_blank (v : string) : bool :=
  match v with
  | String c _ => blank c
  | EmptyString => false
  end.

Fixpoint ends_blank (v : string) : bool :=
  match v with
  | EmptyString => false
  | String c EmptyString => blank c
  | String _ r => ends_blank r
  end.

Definition is_field_value (v : string) : bool :=
  all_chars value_char v && negb (starts_blank v) && negb (ends_blank v).

Definition empty : t := [].

Definition named (k : string) (e : string * string) : bool :=
  String.eqb (fst e) (JsString.toLowerCase k).

(** [get]: the values under the name, joined by [", "], or [null]. *)
Definition get (h : t) (k : string) : option string :=
  match List.filter (named k) h with
  | [] => None
  | es => Some (JsString.join ", " (map snd es))
  end.

Definition has (h : t) (k : string) : bool := existsb (named k) h.

Fixpoint replace_first (k v : string) (h : t) : t :=
  match h with
  | [] => []
  | e :: r =>
      if named k e
      then (fst e, v) :: List.filter (fun e' => negb (named k e')) r
      else e :: replace_first k v r
  end.

(** [set]: overwrite the first entry of that name and drop the others, or
    add the entry at the end. *)
Definition set (h : t) (k v : string) : t :=
  if has h k then replace_first k v h
  else h ++ [(JsString.toLowerCase k, v)].

Definition append (h : t) (k v : string) : t :=
  h ++ [(JsString.toLowerCase k, v)].

End Headers.

(** ** The stream controller (WHATWG Streams) *)

Module ReadableStreamDefaultController.

(** The controller of the response stream: the chunks enqueued so far and
    whether [close] was requested. Both [enqueue] and [close] first test
    ReadableStreamDefaultControllerCanCloseOrEnqueue and raise a [TypeError]
    when it fails, which it does once [close] was requested. The reader of
    the stream is not modelled: [queue] is all that was ever enqueued. *)
Record t := mk {
  queue : list string;
  closeRequested : bool
}.

Definition fresh : t := mk [] false.

Definition cannot : JSValue :=
  TypeError "The stream controller cannot close or enqueue".

Definition enqueue (chunk : string) (c : t) : Completion unit * t :=
  if closeRequested c then (Throw cannot, c)
  else (Normal tt, mk (queue c ++ [chunk]) false).

Definition close (c : t) : Completion unit * t :=
  if closeRequested c then (Throw cannot, c)
  else (Normal tt, mk (queue c) true).

End ReadableStreamDefaultController.

Module Ctrl := ReadableStreamDefaultController.

(** ** response.ts: [class CafResponse] *)

Record CafResponse := mkResponse {
  reqInfo : ReqInfo;
  statusCode : Z;
  headersSent : bool;            (* set when the [sent] promise is resolved *)
  streamCtrl : Ctrl.t;
  headersObj : Headers.t;
  finished : bool;
  body : option string           (* the private [Buffer] of what was written *)
}.

(** A response and the logger it writes to. *)
Record World := mkWorld {
  res : CafResponse;
  log : Logger
}.

(** [SHORT_CONTENT_TYPES[ct]]. (Looked up with the name of a member of
    [Object.prototype], the object of the source gives that member; no
    content type the code passes is such a name.) *)
Definition SHORT_CONTENT_TYPES (ct : string) : option string :=
  if String.eqb ct "text" then Some "text/plain"
  else if String.eqb ct "json" then Some "application/json"
  else None.

(** [new CafResponse(reqInfo, logger)]. *)
Definition new_CafResponse (ri : ReqInfo) : CafResponse :=
  {| reqInfo := ri; statusCode := 200; headersSent := false;
     streamCtrl := Ctrl.fresh; headersObj := Headers.empty;
     finished := false; body := None |}.

Definition with_res (f : CafResponse -> CafResponse) : M World unit :=
  modify (fun w => mkWorld (f (res w)) (log w)).

Definition log_call (e : LogEntry) : M World unit :=
  modify (fun w => mkWorld (res w) (log w ++ [e])).

(** Run an operation of the stream controller of the response. *)
Definition on_ctrl (op : Ctrl.t -> Completion unit * Ctrl.t) : M World unit :=
  fun w =>
    let r := res w in
    let '(c, ctl) := op (streamCtrl r) in
    (c, mkWorld {| reqInfo := reqInfo r; statusCode := statusCode r;
                   headersSent := headersSent r; streamCtrl := ctl;
                   headersObj := headersObj r; finished := finished r;
                   body := body r |} (log w)).

Definition set_statusCode (s : Z) (r : CafResponse) : CafResponse :=
  {| reqInfo := reqInfo r; statusCode := s; headersSent := headersSent r;
     streamCtrl := streamCtrl r; headersObj := headersObj r;
     finished := finished r; body := body r |}.

Definition set_headersObj (h : Headers.t) (r : CafResponse) : CafResponse :=
  {| reqInfo := reqInfo r; statusCode := statusCode r;
     headersSent := headersSent r; streamCtrl := streamCtrl r;
     headersObj := h; finished := finished r; body := body r |}.

Definition set_headersSent (b : bool) (r : CafResponse) : CafResponse :=
  {| reqInfo := reqInfo r; statusCode := statusCode r; headersSent := b;
     streamCtrl := streamCtrl r; headersObj := headersObj r;
     finished := finished r; body := body r |}.

Definition set_finished (b : bool) (r : CafResponse) : CafResponse :=
  {| reqInfo := reqInfo r; statusCode := statusCode r;
     headersSent := headersSent r; streamCtrl := streamCtrl r;
     headersObj := headersObj r; finished := b; body := body r |}.

Definition set_body (b : option string) (r : CafResponse) : CafResponse :=
  {| reqInfo := reqInfo r; statusCode := statusCode r;
     headersSent := headersSent r; streamCtrl := streamCtrl r;
     headersObj := headersObj r; finished := finished r; body := b |}.

(** [status(s)]. *)
Definition status (s : Z) : M World unit := with_res (set_statusCode s).

(** [set(k, v)]. *)
Definition set (k v : string) : M World unit :=
  with_res (fun r => set_headersObj (Headers.set (headersObj r) k v) r).

(** [get(k)]: [this.headersObj.get(k) ?? '']. *)
Definition get (k : string) : M World string :=
  fun w => (Normal (default "" (Headers.get (headersObj (res w)) k)), w).

(** [append(k, v)]. *)
Definition append (k v : string) : M World unit :=
  with_res (fun r => set_headersObj (Headers.append (headersObj r) k v) r).

(** [type(ct)]. *)
Definition type (ct : string) : M World unit :=
  set "Content-Type" (default ct (SHORT_CONTENT_TYPES ct)).

(** [sendHead()]: resolves the [sent] promise, once. *)
Definition sendHead : M World unit :=
  fun w =>
    if headersSent (res w) then (Normal tt, w)
    else with_res (set_headersSent true) w.

(** The bytes [write] sends for a chunk: an [ArrayBuffer] as it is, anything
    else through [String] and the UTF-8 encoder. *)
Definition chunk_bytes (chunk : JSValue) : string :=
  match chunk with
  | VArrayBuffer b => b
  | v => Js.String_ v
  end.

(** [write(chunk)]. *)
Definition write (chunk : JSValue) : M World unit :=
  sendHead ;;
  let bytes := chunk_bytes chunk in
  on_ctrl (Ctrl.enqueue bytes) ;;
  with_res (fun r =>
    match body r with
    | None => set_body (Some bytes) r
    | Some b => set_body (Some (b +:+ bytes)) r
    end).

(** The entry [end] logs through [log.debug]. *)
Definition response_entry (r : CafResponse) : LogEntry :=
  let ri := reqInfo r in
  {| entry_call := LDebug;
     entry_req := Some ri;
     entry_type := Some "response";
     entry_level := Some (if 499 <? statusCode r then "warn" else "debug");
     entry_msg := Some ("Sent " +:+ JsString.of_Z (statusCode r) +:+
                        " response to " +:+ req_method ri +:+ " " +:+ req_path ri);
     entry_status := Some (statusCode r);
     entry_err := None |}.

Definition already_finished : JSValue :=
  let m := "Called `res.end()` after response was already finished" in
  VError m (mkObjView (JsonText "{}") ("Error: " +:+ m)).

Definition warn_entry (err : JSValue) : LogEntry :=
  {| entry_call := LWarn; entry_req := None; entry_type := None;
     entry_level := None; entry_msg := None; entry_status := None;
     entry_err := Some err |}.

(** [end(body)]; [end()] is [end_ VUndefined]. *)
Definition end_ (b : JSValue) : M World unit :=
  (let* w := get_state in
   when (finished (res w)) (log_call (warn_entry already_finished))) ;;
  (if Js.truthy b then write b else sendHead) ;;
  on_ctrl Ctrl.close ;;
  (let* w := get_state in log_call (response_entry (res w))) ;;
  with_res (set_finished true).

(** The completion of the expression [JSON.stringify(v)]. *)
Definition stringified (v : JSValue) : Completion JSValue :=
  match Js.JSON_stringify v with
  | JsonText s => Normal (VStr s)
  | JsonUndefined => Normal VUndefined
  | JsonThrows e => Throw e
  end.

(** A computation that does not touch the state. *)
Definition lift {S A} (c : Completion A) : M S A := fun s => (c, s).

(** [json(data)] and [text(data)]. *)
Definition json (data : JSValue) : M World unit :=
  type "json" ;;
  let* b := lift (stringified data) in
  end_ b.

Definition text (data : JSValue) : M World unit :=
  type "text" ;; end_ (VStr (Js.String_ data)).

(** ** types.ts *)

(** [getContentTypeFromDataType(data)]. *)
Definition getContentTypeFromDataType (data : JSValue) : option string :=
  if Js.loose_eq_empty data then None
  else match data with
       | VNull | VUndefined | VBuffer _ | VArrayBuffer _ => None
       | _ => if Js.typeof_object data then Some "application/json"
              else Some "text/plain"
       end.

(** ** error.ts *)

(** The [message] property [new Error(m)] gets. *)
Definition Error_message (m : JSValue) : string :=
  match m with
  | VUndefined => ""
  | _ => Js.String_ m
  end.

(** [anythingToError(thing)]; it raises what [JSON.stringify] raises. *)
Definition anythingToError (thing : JSValue) : Completion HTTPError.t :=
  match thing with
  | VHTTPError e => Normal e
  | VError msg _ => Normal (HTTPError.new 500 msg "text")
  | _ =>
      if Js.typeof_object thing
      then
        match stringified thing with
        | Normal m => Normal (HTTPError.new 500 (Error_message m) "json")
        | Throw e => Throw e
        end
      else Normal (HTTPError.new 500 (Js.String_ thing) "text")
  end.

(** The entry [handleError] logs through [log.error]:
    [{ ...reqInfo, type: 'route', err: originalErr }]. *)
Definition route_entry (ri : ReqInfo) (originalErr : JSValue) : LogEntry :=
  {| entry_call := LError; entry_req := Some ri; entry_type := Some "route";
     entry_level := None; entry_msg := Some (req_msg ri);
     entry_status := None; entry_err := Some originalErr |}.

(** [handleError(err, reqInfo, res, log)]. *)
Definition handleError (err : JSValue) (ri : ReqInfo) : M World HTTPError.t :=
  let originalErr := err in
  let* herr := lift (anythingToError err) in
  (if 499 <? HTTPError.status herr then
     log_call (route_entry ri originalErr) ;;
     let* w := get_state in
     if negb (finished (res w)) then
       status (HTTPError.status herr) ;; type (HTTPError.type herr) ;;
       end_ (VStr "")
     else ret tt
   else ret tt) ;;
  ret herr.

(** ** response.ts: [error], [assert] and the helpers *)

Section Assertions.

Context `{P : Platform}.

(** [error(status, message, ...args)]. *)
Definition error (st : JSValue) (msg : JSValue) (args : list JSValue)
  : M World HTTPError.t :=
  match st with
  | VNum (NInt s) =>
      status s ;;
      let ty := getContentTypeFromDataType msg in
      let* msg' :=
        match msg with
        | VStr m => ret (VStr (sprintf m (map Js.String_ args)))
        | _ =>
            match ty with
            | Some t =>
                if String.eqb t "application/json" then lift (stringified msg)
                else if String.eqb t "text/plain"
                     then ret (VStr (Js.String_ msg))
                     else ret msg
            | None => ret msg
            end
        end in
      match ty with Some t => type t | None => ret tt end ;;
      end_ msg' ;;
      ret (HTTPError.new s (Error_message msg') (default "text/plain" ty))
  | _ =>
      (* not an integer: it is no status, handle it as an error *)
      let* w := get_state in
      handleError st (reqInfo (res w))
  end.

(** [assert(status, cond, message, ...args)]. *)
Definition assert (st : Number) (cond : bool) (msg : option string)
  (args : list JSValue) : M World unit :=
  if negb cond then ret tt
  else
    let* e := error (VNum st) (VStr (default "" msg)) args in
    throw (VHTTPError e).

Definition badRequest := assert (NInt 400).
Definition unauthorized := assert (NInt 401).
Definition forbidden := assert (NInt 403).
Definition notFound := assert (NInt 404).
Definition conflict := assert (NInt 409).
Definition gone := assert (NInt 410).
Definition badType := assert (NInt 415).

End Assertions.

(** [getDataTypeFromContentType(contentType)]. *)

Fixpoint until_semicolon (s : string) : string :=
  match s with
  | EmptyString => EmptyString
  | String c r => if Ascii.eqb c ";" then EmptyString
                  else String c (until_semicolon r)
  end.

(** [contentType.match(/charset=([^;]+)/)?.[1]]: the leftmost [charset=]
    that at least one character other than [;] follows. *)
Fixpoint match_charset (s : string) : option string :=
  match s with
  | EmptyString => None
  | String _ r =>
      if String.prefix "charset=" s then
        match until_semicolon (String.substring 8 (String.length s) s) with
        | EmptyString => match_charset r
        | cap => Some cap
        end
      else match_charset r
  end.

Record DataType := mkDataType {
  dt_type : option string;
  dt_charset : option string
}.

Definition getDataTypeFromContentType (contentType : string) : DataType :=
  let charset := match_charset contentType in
  if String.eqb (JsString.slice0 16 contentType) "application/json"
  then mkDataType (Some "json") (Some (default "utf-8" charset))
  else if String.eqb (JsString.slice0 33 contentType)
            "application/x-www-form-urlencoded"
  then mkDataType (Some "text") (Some (default "ascii" charset))
  else if String.eqb (JsString.slice0 5 contentType) "text/" || bool_decide (is_Some charset)
  then mkDataType (Some "text") charset
  else mkDataType None None.

(** ** body.ts: [class RequestBody] *)

(** The platform's [Body] of a request, by what each of its readers settles
    to: a value, or the rejection the reader raises. *)
Record Body := mkBody {
  body_json : Completion JSValue;
  body_text : Completion JSValue;
  body_arrayBuffer : Completion JSValue
}.

Module RequestBody.

Record t := mk {
  type : option string;
  charset : option string;
  reqBody : option Body
}.

(** [new RequestBody(contentType, res, reqBody)]. *)
Definition new (contentType : string) (reqBody : option Body) : t :=
  let d := getDataTypeFromContentType contentType in
  mk (dt_type d) (dt_charset d) reqBody.

(** [await this.reqBody?.reader()]. *)
Definition settle (b : option Body) (reader : Body -> Completion JSValue)
  : M World JSValue :=
  fun w => (match b with Some x => reader x | None => Normal VUndefined end, w).

Section Methods.

Context `{P : Platform}.

(** [parse()]. *)
Definition parse (b : t) : M World JSValue :=
  try_catch
    (if bool_decide (type b = Some "json") then settle (reqBody b) body_json
     else if bool_decide (type b = Some "text") then settle (reqBody b) body_text
     else settle (reqBody b) body_arrayBuffer)
    (fun _err =>
       badRequest true (Some "Invalid format") [] ;;
       ret VUndefined).

Definition is_empty (o : option string) : bool :=
  match o with
  | Some s => String.eqb s ""
  | None => true
  end.

(** [raw()], [text()] and [json()]. *)
Definition raw (b : t) : M World JSValue := parse b.

Definition text (b : t) : M World JSValue :=
  badType (is_empty (charset b) && negb (bool_decide (type b = Some "text")))
    None [] ;;
  parse b.

Definition json (b : t) : M World JSValue :=
  badType (negb (bool_decide (type b = Some "json"))) None [] ;;
  parse b.

End Methods.

End RequestBody.

(** ** cors.ts *)

(** [string | string[]]. *)
Inductive StringOrArray :=
| One (s : string)
| Many (l : list string).

(** An allowed origin: a string or a regular expression, the latter by its
    [test]. *)
Inductive OriginRule :=
| RString (s : string)
| RRegExp (test : string -> bool).

(** [boolean | string | RegExp | (string | RegExp)[]]. *)
Inductive OriginOption :=
| OBool (b : bool)
| ORule (r : OriginRule)
| OArray (rs : list OriginRule).

(** [CorsOptions]; [None] is a property that is not there. *)
Record CorsOptions := mkCors {
  origin : option OriginOption;
  methods : option StringOrArray;
  allowedHeaders : option StringOrArray;
  exposedHeaders : option StringOrArray;
  credentials : option bool;
  maxAge : option JSValue
}.

Module Cors.

(** [DEFAULT_OPTIONS]. *)
Definition DEFAULT_origin : OriginOption := ORule (RString "*").
Definition DEFAULT_methods : StringOrArray := One "GET,HEAD,PUT,PATCH,POST,DELETE".

(** [Array.isArray(v) ? v.join(",") : v]. *)
Definition joined (v : StringOrArray) : string :=
  match v with
  | One s => s
  | Many l => JsString.join "," l
  end.

(** [!v] and [v?.length] on an optional [string | string[]]. *)
Definition falsy (v : option StringOrArray) : bool :=
  match v with
  | None => true
  | Some (One s) => String.eqb s ""
  | Some (Many _) => false
  end.

Definition has_length (v : option StringOrArray) : bool :=
  match v with
  | None => false
  | Some (One s) => negb (String.eqb s "")
  | Some (Many l) => negb (Nat.eqb (List.length l) 0)
  end.

(** [setVaryHeader(res, newValue)]. *)
Definition setVaryHeader (newValue : string) : M World unit :=
  let* ha := get "Vary" in
  let curVal := ha in
  if String.eqb curVal "*" then ret tt
  else if String.eqb newValue "*" then set "Vary" "*"
  else
    let values :=
      map (fun item => JsString.toLowerCase (JsString.trim item))
          (JsString.split "," curVal) in
    let values :=
      if negb (JsString.includes values (JsString.toLowerCase newValue))
      then values ++ [JsString.toLowerCase newValue]
      else values in
    set "Vary" (JsString.join ", " values).

Definition rule_allows (requestOrigin : string) (r : OriginRule) : bool :=
  match r with
  | RString s => String.eqb requestOrigin s
  | RRegExp test => test requestOrigin
  end.

(** [isOriginAllowed(requestOrigin, allowedOrigin)]. *)
Definition isOriginAllowed (requestOrigin : string) (allowedOrigin : OriginOption)
  : bool :=
  match allowedOrigin with
  | OArray rs => existsb (rule_allows requestOrigin) rs
  | ORule r => rule_allows requestOrigin r
  | OBool b => b
  end.

(** [initCors(opts, origin, res)]. *)
Definition initCors (opts : CorsOptions) (origin_ : string) : M World unit :=
  let o := default DEFAULT_origin (origin opts) in
  (* Configure Origin *)
  match o with
  | OBool false | ORule (RString "") | ORule (RString "*") =>
      set "Access-Control-Allow-Origin" "*"
  | ORule (RString s) =>
      set "Access-Control-Allow-Origin" s ;;
      setVaryHeader "Origin"
  | _ =>
      let originAllowed := isOriginAllowed origin_ o in
      set "Access-Control-Allow-Origin"
          (if originAllowed then origin_ else "false") ;;
      setVaryHeader "Origin"
  end ;;
  (* Configure Credentials *)
  when (bool_decide (credentials opts = Some true))
       (set "Access-Control-Allow-Credentials" "true") ;;
  (* Configure Exposed Headers *)
  match exposedHeaders opts with
  | Some e => when (has_length (Some e))
                   (set "Access-Control-Expose-Headers" (joined e))
  | None => ret tt
  end.

(** [options.maxAge.toString()] when [maxAge] is a number or a string. *)
Definition maxAge_string (v : option JSValue) : option string :=
  match v with
  | Some (VNum n) => Some (Js.Number_toString n)
  | Some (VStr s) => Some s
  | _ => None
  end.

(** [handleOptions(opts, neededHeaders, res)]. *)
Definition handleOptions (opts : CorsOptions) (neededHeaders : string)
  : M World unit :=
  (* Configure Methods *)
  let methods_ := default DEFAULT_methods (methods opts) in
  set "Access-Control-Allow-Methods" (joined methods_) ;;
  (* Configure Allowed Headers *)
  let* allowed :=
    if falsy (allowedHeaders opts) then
      setVaryHeader "Access-Control-request-Headers" ;;
      ret (Some (One neededHeaders))
    else ret (allowedHeaders opts) in
  match allowed with
  | Some a => when (has_length allowed)
                   (set "Access-Control-Allow-Headers" (joined a))
  | None => ret tt
  end ;;
  (* Configure Max Age *)
  match maxAge_string (maxAge opts) with
  | Some m => when (negb (String.eqb m "")) (set "Access-Control-Max-Age" m)
  | None => ret tt
  end ;;
  status 204 ;; set "Content-Length" "0" ;; end_ VUndefined.

(** [cors(opts, method, headers, res)]. *)
Definition cors (opts : option CorsOptions) (method : string)
  (headers : Headers.t) : M World unit :=
  let origin_ := Headers.get headers "origin" in
  let neededHeaders :=
    default "" (Headers.get headers "access-control-request-headers") in
  match opts, origin_ with
  | Some o, Some og =>
      if String.eqb og "" then ret tt
      else
        initCors o og ;;
        when (String.eqb method "OPTIONS") (handleOptions o neededHeaders)
  | _, _ => ret tt
  end.

End Cors.

(** ** types.ts: handlers and routes *)

(** [Dictionary]: a [Record<string, unknown>]. *)
Abbreviation Dictionary := (gmap string JSValue).

(** [RouteHandlerArgs], without the members that only hand through the
    application's own objects ([log], [call], [conf], [cookies] and the
    user's globals); the response [res] is the one of the [World]. *)
Module Args.

Record t := mk {
  headers : Headers.t;
  query : gmap string string;
  params : Dictionary;
  method : string;
  path : string;
  ip : string;
  body : RequestBody.t
}.

End Args.

(** [RouteHandler]: run on the arguments, it acts on the response and the
    logger, and returns or raises. *)
Definition RouteHandler := Args.t -> M World unit.

Module Route.

Record t := mk {
  method : string;
  path : string;
  handler : RouteHandler;
  all : option bool
}.

End Route.

(** ** router.ts: [class Router] *)

Module Router.

Record t := mk { routes : list Route.t }.

Definition new : t := mk [].

Definition push (r : Route.t) (rt : t) : t := mk (routes rt ++ [r]).

Definition post (path : string) (handler : RouteHandler) : t -> t :=
  push (Route.mk "POST" path handler None).

Definition put (path : string) (handler : RouteHandler) : t -> t :=
  push (Route.mk "POST" path handler None).

Definition del (path : string) (handler : RouteHandler) : t -> t :=
  push (Route.mk "POST" path handler None).

Definition patch (path : string) (handler : RouteHandler) : t -> t :=
  push (Route.mk "POST" path handler None).

Definition options (path : string) (handler : RouteHandler) : t -> t :=
  push (Route.mk "POST" path handler None).

Definition all (handler : RouteHandler) : t -> t :=
  push (Route.mk "all" "*" handler (Some true)).

Definition get (path : string) (handler : RouteHandler) : t -> t :=
  push (Route.mk "POST" path handler None).

End Router.

(** ** api.ts: [class API] *)

(** std/testing/asserts: [assert(expr, msg)] raises an [AssertionError]. *)
Definition AssertionError (msg : string) : JSValue :=
  VError msg
    (mkObjView (JsonText ("{" +:+ Js.quote "name" +:+ ":" +:+
                          Js.quote "AssertionError" +:+ "}"))
               ("AssertionError: " +:+ msg)).

Definition std_assert {S} (expr : bool) (msg : string) : M S unit :=
  if expr then ret tt else throw (AssertionError msg).

Definition SyntaxError (msg : string) : JSValue :=
  VError msg (mkObjView (JsonText "{}") ("SyntaxError: " +:+ msg)).

Module DynamicRoute.

Record t := mk {
  handler : RouteHandler;
  params : list string;
  regexp : RegExp
}.

End DynamicRoute.

Module API.

Record t := mk {
  routes : gmap string bool;
  static : gmap string RouteHandler;
  dynamic : gmap string (list DynamicRoute.t);
  fallbackRoute : option RouteHandler
}.

(** [new API(context)]. *)
Definition new : t := mk ∅ ∅ ∅ None.

(** The source of the pattern of one dynamic segment. *)
Definition PARAM_SOURCE : string := "\/([\w\d\-\._~]+)".

(** One turn of the [forEach] of [pathToRegexp], on the regular expression
    source and the parameter names gathered so far. *)
Definition segment_step (acc : string * list string) (seg : string)
  : string * list string :=
  let '(regexp, params) := acc in
  match seg with
  | EmptyString => acc
  | String ":" name => (regexp +:+ PARAM_SOURCE, params ++ [name])
  | _ => (regexp +:+ "\/" +:+ seg, params)
  end.

(** The source [pathToRegexp] compiles, and the parameter names. *)
Definition path_source (path : string) : string * list string :=
  let '(regexp, params) :=
    fold_left segment_step (JsString.split "/" path) ("", []) in
  ("^" +:+ regexp +:+ "$", params).

Section WithPlatform.

Context `{P : Platform}.

(** [pathToRegexp(path)]: the compiled expression and the parameter names;
    raises when the source does not compile. *)
Definition pathToRegexp {S} (path : string) : M S (RegExp * list string) :=
  let '(source, params) := path_source path in
  match RegExp_new source with
  | Some re => ret (re, params)
  | None => throw (SyntaxError ("Invalid regular expression: /" +:+ source +:+ "/"))
  end.

(** [r.params.forEach((p, i) => params[p] = match[i + 1])], from index [i]
    on. *)
Fixpoint bind_params (names : list string) (groups : list (option string))
  (params : Dictionary) : Dictionary :=
  match names with
  | [] => params
  | p :: names' =>
      let v := match groups with
               | Some g :: _ => VStr g
               | _ => VUndefined
               end in
      bind_params names' (tl groups) (<[p := v]> params)
  end.

(** The [for] loop of [matchRoute] over the dynamic routes of a method. *)
Fixpoint scan (rs : list DynamicRoute.t) (path : string) (params : Dictionary)
  : option (RouteHandler * Dictionary) :=
  match rs with
  | [] => None
  | r :: rs' =>
      match DynamicRoute.regexp r path with
      | Some groups =>
          Some (DynamicRoute.handler r,
                bind_params (DynamicRoute.params r) groups params)
      | None => scan rs' path params
      end
  end.

(** [matchRoute(method, path, params)]: the handler, or [None] for [false],
    and the [params] object as the call leaves it. *)
Definition matchRoute (api : t) (method path : string) (params : Dictionary)
  : option RouteHandler * Dictionary :=
  let route := method +:+ " " +:+ path in
  match static api !! route with
  | Some h => (Some h, params)
  | None =>
      match scan (default [] (dynamic api !! method)) path params with
      | Some (h, params') => (Some h, params')
      | None => (fallbackRoute api, params)
      end
  end.

(** [setFallbackRoute(handler)]. A handler is a function by its type, so
    the second assertion, on [typeof handler], holds. *)
Definition setFallbackRoute (handler : RouteHandler) : M t unit :=
  let* api := get_state in
  std_assert (negb (bool_decide (is_Some (fallbackRoute api))))
             "Route for 'ALL' is already defined" ;;
  modify (fun a => mk (routes a) (static a) (dynamic a) (Some handler)).

(** [addEndpoint(method, path, handler)]; the assertion on [typeof handler]
    holds as in [setFallbackRoute]. *)
Definition addEndpoint (method path : string) (handler : RouteHandler)
  : M t unit :=
  let m := JsString.toUpperCase method in
  let route := m +:+ " " +:+ path in
  let* api := get_state in
  let dup := bool_decide (is_Some (routes api !! route)) in
  std_assert (negb dup) ("Route for '" +:+ route +:+ "' is already defined") ;;
  modify (fun a => mk (<[route := true]> (routes a)) (static a) (dynamic a)
                      (fallbackRoute a)) ;;
  if (JsString.indexOf path "/:" <? 0) && (JsString.indexOf path "*" <? 0)
  then
    modify (fun a => mk (routes a) (<[route := handler]> (static a))
                        (dynamic a) (fallbackRoute a))
  else
    modify (fun a => mk (routes a) (static a)
                        (<[m := default [] (dynamic a !! m)]> (dynamic a))
                        (fallbackRoute a)) ;;
    let* c := pathToRegexp path in
    let '(regexp, params) := c in
    modify (fun a => mk (routes a) (static a)
                        (<[m := default [] (dynamic a !! m)
                                ++ [DynamicRoute.mk handler params regexp]]>
                           (dynamic a))
                        (fallbackRoute a)).

(** The request [trigger] is called with. *)
Record Request := mkRequest {
  rq_method : string;
  rq_headers : Headers.t;
  rq_query : gmap string string;
  rq_path : string;
  rq_ip : option string;
  rq_body : option Body
}.

(** [headers.get('x-forwarded-for')?.split(',')[0] ?? ip ?? '::1']. *)
Definition client_ip (rq : Request) : string :=
  match Headers.get (rq_headers rq) "x-forwarded-for" with
  | Some f => default "" (head (JsString.split "," f))
  | None => default "::1" (rq_ip rq)
  end.

(** [trigger({ method, headers, query, path, ip, body })], for an
    application with CORS options [cors_conf] and logger content [lg]: how
    the dispatch completes, and the response and the logger it leaves. *)
Definition trigger (api : t) (cors_conf : option CorsOptions) (lg : Logger)
  (rq : Request) : Completion unit * World :=
  let params : Dictionary := ∅ in
  let reqInfo :=
    {| req_method := rq_method rq; req_path := rq_path rq;
       req_host := Headers.get (rq_headers rq) "host";
       req_agent := Headers.get (rq_headers rq) "user-agent";
       req_type := "request";
       req_msg := "Received " +:+ rq_method rq +:+ " request to " +:+ rq_path rq |} in
  let w0 := mkWorld (new_CafResponse reqInfo) lg in
  (Cors.cors cors_conf (rq_method rq) (rq_headers rq) ;;
   let* w := get_state in
   if finished (res w) then ret tt
   else
     let body :=
       RequestBody.new (default "" (Headers.get (rq_headers rq) "content-type"))
                       (rq_body rq) in
     log_call {| entry_call := LDebug; entry_req := Some reqInfo;
                 entry_type := Some "request"; entry_level := None;
                 entry_msg := Some (req_msg reqInfo); entry_status := None;
                 entry_err := None |} ;;
     let '(handler, params') := matchRoute api (rq_method rq) (rq_path rq) params in
     let input :=
       Args.mk (rq_headers rq) (rq_query rq) params' (rq_method rq)
               (rq_path rq) (client_ip rq) body in
     try_catch
       (notFound (negb (bool_decide (is_Some handler))) None [] ;;
        match handler with
        | Some h => h input
        | None => throw (TypeError "handler is not a function")
        end)
       (fun err => handleError err reqInfo ;; ret tt)) w0.

End WithPlatform.

End API.

(** ** app.ts: registration *)

Module App.

Section WithPlatform.

Context `{P : Platform}.

(** The route registration of the constructor:
    [opts.routes?.forEach(r => r.all ? setFallbackRoute(r.handler)
       : addEndpoint(r.method.toLowerCase(), r.path, r.handler))]. *)
Fixpoint register (rs : list Route.t) : M API.t unit :=
  match rs with
  | [] => ret tt
  | r :: rs' =>
      (if bool_decide (Route.all r = Some true)
       then API.setFallbackRoute (Route.handler r)
       else API.addEndpoint (JsString.toLowerCase (Route.method r))
                            (Route.path r) (Route.handler r)) ;;
      register rs'
  end.

Definition post (path : string) (handler : RouteHandler) : M API.t unit :=
  API.addEndpoint "POST" path handler.

Definition put (path : string) (handler : RouteHandler) : M API.t unit :=
  API.addEndpoint "POST" path handler.

Definition patch (path : string) (handler : RouteHandler) : M API.t unit :=
  API.addEndpoint "POST" path handler.

Definition get (path : string) (handler : RouteHandler) : M API.t unit :=
  API.addEndpoint "POST" path handler.

Definition del (path : string) (handler : RouteHandler) : M API.t unit :=
  API.addEndpoint "POST" path handler.

Definition all (handler : RouteHandler) : M API.t unit :=
  API.setFallbackRoute handler.

End WithPlatform.

End App.

(** ** A platform to run the code on

    [sprintf] fills each [%s] with the next argument and prints [%%] as a
    percent sign; [RegExp_new] compiles the sources [pathToRegexp] writes for
    segments of plain characters, and rejects every other source. *)

Module Sample.

Fixpoint sprintf (f : string) (args : list string) : string :=
  match f with
  | EmptyString => EmptyString
  | String c r =>
      if Ascii.eqb c "%" then
        match r with
        | String d r' =>
            if Ascii.eqb d "s" then
              match args with
              | a :: args' => a +:+ sprintf r' args'
              | [] => "%!s(MISSING)" +:+ sprintf r' []
              end
            else if Ascii.eqb d "%" then String "%" (sprintf r' args)
            else String c (sprintf r args)
        | EmptyString => String c EmptyString
        end
      else String c (sprintf r args)
  end.

Inductive Token :=
| TChar (c : ascii)
| TParam.

Definition is_meta (c : ascii) : bool :=
  existsb (Ascii.eqb c)
    ["\"; "^"; "$"; "."; "|"; "?"; "*"; "+"; "("; ")"; "["; "]"; "{"; "}"]%char.

(** The tokens of a source, [skip] characters of which were read ahead. *)
Fixpoint tokens (skip : nat) (src : string) : option (list Token) :=
  match skip, src with
  | S k, String _ r => tokens k r
  | S _, EmptyString => None
  | O, EmptyString => Some []
  | O, String "$" EmptyString => Some []
  | O, String c r =>
      if String.prefix "\/" src then cons (TChar "/") <$> tokens 1 r
      else if String.prefix "([\w\d\-\._~]+)" src then cons TParam <$> tokens 14 r
      else if is_meta c then None
      else cons (TChar c) <$> tokens 0 r
  end.

(** [\w], a digit, or one of [- . _ ~]. *)
Definition in_class (c : ascii) : bool :=
  JsString.is_upper c || JsString.is_lower c ||
  (let n := N_of_ascii c in (48 <=? n)%N && (n <=? 57)%N) ||
  existsb (Ascii.eqb c) ["-"; "."; "_"; "~"]%char.

Fixpoint span_class (s : string) : string * string :=
  match s with
  | String c r =>
      if in_class c then let '(a, b) := span_class r in (String c a, b)
      else (EmptyString, s)
  | EmptyString => (EmptyString, EmptyString)
  end.

Fixpoint drop (n : nat) (s : string) : string :=
  match n, s with
  | S k, String _ r => drop k r
  | _, _ => s
  end.

(** Match the tokens against the whole input; a parameter takes the longest
    run of class characters. *)
Fixpoint run (ts : list Token) (input : string) : option (list (option string)) :=
  match ts with
  | [] => if String.eqb input "" then Some [] else None
  | TChar c :: ts' =>
      match input with
      | String d r => if Ascii.eqb c d then run ts' r else None
      | EmptyString => None
      end
  | TParam :: ts' =>
      let '(g, _) := span_class input in
      if String.eqb g "" then None
      else cons (Some g) <$> run ts' (drop (String.length g) input)
  end.

Definition RegExp_new (source : string) : option RegExp :=
  match source with
  | String "^" r =>
      match tokens 0 r with
      | Some ts => Some (run ts)
      | None => None
      end
  | _ => None
  end.

End Sample.

(** The sample platform. Its [sprintf] meets the law: without a percent
    sign in the format no clause of [Sample.sprintf] but the copying one
    applies. *)
Definition sample_platform : Platform.
Proof.
  refine {| sprintf := Sample.sprintf; RegExp_new := Sample.RegExp_new |}.
  intros s Hi. unfold JsString.indexOf in Hi.
  destruct (String.index 0 "%" s) as [i|] eqn:Hx; [lia|]. clear Hi.
  induction s as [|c r IH]; [reflexivity|].
  cbn [String.index String.prefix] in Hx.
  destruct (ascii_dec "%" c) as [<-|Hne].
  - destruct r; discriminate.
  - cbn [Sample.sprintf].
    replace (Ascii.eqb c "%") with false
      by (symmetry; apply Ascii.eqb_neq; congruence).
    f_equal. apply IH.
    destruct (String.index 0 "%" r); [discriminate | reflexivity].
Defined.

(** ** Notions the properties are stated with *)

(** A response that was not ended: [finished] is unset and the stream takes
    chunks. *)
Definition is_open (r : CafResponse) : Prop :=
  finished r = false /\ Ctrl.closeRequested (streamCtrl r) = false.

(** A response that was ended: [finished] is set, the stream was closed and
    the head was sent. *)
Definition ended (r : CafResponse) : Prop :=
  finished r = true /\ Ctrl.closeRequested (streamCtrl r) = true /\
  headersSent r = true.

(** The world a first [end] leaves, after the status was set to [s], the
    content type to [ct] when there is one, and [written], when there is
    one, went out as the last chunk. *)
Definition finalized (s : Z) (ct : option string) (written : option string)
  (w : World) : World :=
  let r := res w in
  let r' :=
    {| reqInfo := reqInfo r;
       statusCode := s;
       headersSent := true;
       streamCtrl :=
         Ctrl.mk (Ctrl.queue (streamCtrl r) ++
                  match written with Some c => [c] | None => [] end) true;
       headersObj :=
         match ct with
         | Some t => Headers.set (headersObj r) "Content-Type" t
         | None => headersObj r
         end;
       finished := true;
       body :=
         match written with
         | Some c => Some (default "" (body r) +:+ c)
         | None => body r
         end |} in
  mkWorld r' (log w ++ [response_entry r']).

(** What [end(b)] writes. *)
Definition written_by (b : JSValue) : option string :=
  if Js.truthy b then Some (chunk_bytes b) else None.

(** A string that is not empty, as [end] takes it. *)
Definition nonempty (s : string) : option string :=
  if String.eqb s "" then None else Some s.

(** The specialised assertion helpers with their statuses. *)
Definition helpers `{P : Platform}
  : list (Z * (bool -> option string -> list JSValue -> M World unit)) :=
  [(400, badRequest); (401, unauthorized); (403, forbidden); (404, notFound);
   (409, conflict); (410, gone); (415, badType)].

(** The reader [parse] awaits for a body of that type. *)
Definition reader (b : RequestBody.t) : Completion JSValue :=
  match RequestBody.reqBody b with
  | None => Normal VUndefined
  | Some x =>
      if bool_decide (RequestBody.type b = Some "json") then body_json x
      else if bool_decide (RequestBody.type b = Some "text") then body_text x
      else body_arrayBuffer x
  end.

(** The error a parse failure is turned into. *)
Definition invalid_format : HTTPError.t :=
  HTTPError.new 400 "Invalid format" "text/plain".

(** The field names the code reads in a [Vary] value. *)
Definition vary_values (v : string) : list string :=
  map (fun item => JsString.toLowerCase (JsString.trim item))
      (JsString.split "," v).

(** The registration helpers of [App] and of [Router], and the methods of
    the requests they are set against. *)
Definition App_helpers `{P : Platform}
  : list (string -> RouteHandler -> M API.t unit) :=
  [App.post; App.put; App.patch; App.get; App.del].

Definition Router_helpers
  : list (string -> RouteHandler -> Router.t -> Router.t) :=
  [Router.post; Router.put; Router.del; Router.patch; Router.options;
   Router.get].

Definition other_verbs : list string :=
  ["GET"; "PUT"; "PATCH"; "DELETE"; "OPTIONS"].

(** A route table that holds routes of method POST only. *)
Definition post_only (api : API.t) : Prop :=
  (forall k, is_Some (API.static api !! k) -> String.prefix "POST " k = true) /\
  (forall m, is_Some (API.dynamic api !! m) -> m = "POST").

(** The tables and routers the helpers build. *)
Inductive helper_built `{P : Platform} : API.t -> Prop :=
| built_new : helper_built API.new
| built_helper f path handler api :
    In f App_helpers -> helper_built api ->
    helper_built (snd (f path handler api))
| built_all handler api :
    helper_built api -> helper_built (snd (App.all handler api)).

Inductive router_built : Router.t -> Prop :=
| router_new : router_built Router.new
| router_helper f path handler rt :
    In f Router_helpers -> router_built rt ->
    router_built (f path handler rt)
| router_all handler rt :
    router_built rt -> router_built (Router.all handler rt).

(** The message of the duplicate-route error. *)
Definition duplicate_route (method path : string) : JSValue :=
  AssertionError ("Route for '" +:+
                  (JsString.toUpperCase method +:+ " " +:+ path) +:+
                  "' is already defined").

Definition duplicate_fallback : JSValue :=
  AssertionError "Route for 'ALL' is already defined".

(** Sample data. *)
Definition sample_reqInfo : ReqInfo :=
  mkReqInfo "POST" "/foo" None None "request" "Received POST request to /foo".

Definition sample_world : World := mkWorld (new_CafResponse sample_reqInfo) [].

Definition sample_handler : RouteHandler := fun _ => end_ VUndefined.

(** * Properties *)

(** Unfold the operations of the monad and of the response. *)
Ltac unfold_ops :=
  unfold end_, write, sendHead, on_ctrl, type, set, status, get, append,
    bind, when, get_state, log_call, with_res, modify, ret, throw, try_catch.

(** ** Strings *)

Example split_empty : JsString.split "," "" = [""].
Proof. reflexivity. Qed.

Example split_two : JsString.split "," "a, b" = ["a"; " b"].
Proof. reflexivity. Qed.

Example trim_sample : JsString.trim "  Accept " = "Accept".
Proof. reflexivity. Qed.

Example of_Z_sample : JsString.of_Z 404 = "404" /\ JsString.of_Z 1000 = "1000".
Proof. split; reflexivity. Qed.

Example indexOf_sample :
  JsString.indexOf "/foo/:bar" "/:" = 4 /\ JsString.indexOf "/foo" "*" = -1.
Proof. split; reflexivity. Qed.

Example match_charset_sample :
  match_charset "application/json; charset=;charset=latin1; q=1" = Some "latin1".
Proof. reflexivity. Qed.

Example path_source_sample :
  API.path_source "/foo/:bar" = ("^\/foo\/([\w\d\-\._~]+)$", ["bar"]).
Proof. reflexivity. Qed.

(** ** Headers *)

Lemma filter_named_out (k : string) (h : Headers.t) :
  List.filter (Headers.named k)
    (List.filter (fun e => negb (Headers.named k e)) h) = [].
Proof.
  induction h as [|e r IH]; [reflexivity|]. cbn.
  destruct (Headers.named k e) eqn:He; cbn; [exact IH|].
  rewrite He. exact IH.
Qed.

Lemma filter_named_other (k k' : string) (h : Headers.t) :
  JsString.toLowerCase k <> JsString.toLowerCase k' ->
  List.filter (Headers.named k')
    (List.filter (fun e => negb (Headers.named k e)) h) =
  List.filter (Headers.named k') h.
Proof.
  intros Hne. induction h as [|e r IH]; [reflexivity|]. cbn.
  destruct (Headers.named k e) eqn:He; cbn.
  - replace (Headers.named k' e) with false; [exact IH|].
    symmetry. unfold Headers.named in *. apply String.eqb_eq in He.
    apply String.eqb_neq. congruence.
  - destruct (Headers.named k' e); [f_equal|]; exact IH.
Qed.

Lemma get_set_same (h : Headers.t) (k v : string) :
  Headers.get (Headers.set h k v) k = Some v.
Proof.
  unfold Headers.get, Headers.set.
  assert (Hn : forall x, Headers.named k (JsString.toLowerCase k, x) = true)
    by (intros x; apply String.eqb_refl).
  destruct (Headers.has h k) eqn:Hh.
  - replace (List.filter (Headers.named k) (Headers.replace_first k v h))
      with [(JsString.toLowerCase k, v)]; [reflexivity|].
    symmetry. unfold Headers.has in Hh.
    induction h as [|e r IH]; [discriminate|]. cbn in Hh |- *.
    destruct (Headers.named k e) eqn:He; cbn.
    + unfold Headers.named in He |- *. cbn [fst]. rewrite He.
      apply String.eqb_eq in He. rewrite He.
      f_equal. apply filter_named_out.
    + rewrite He. apply IH. exact Hh.
  - rewrite List.filter_app. cbn [List.filter]. rewrite Hn.
    replace (List.filter (Headers.named k) h) with (@nil (string * string));
      [reflexivity|].
    symmetry. unfold Headers.has in Hh.
    induction h as [|e r IH]; [reflexivity|]. cbn in Hh |- *.
    apply orb_false_iff in Hh as [-> Hr]. auto.
Qed.

Lemma get_set_other (h : Headers.t) (k k' v : string) :
  JsString.toLowerCase k <> JsString.toLowerCase k' ->
  Headers.get (Headers.set h k v) k' = Headers.get h k'.
Proof.
  intros Hne.
  assert (Hn : forall x, Headers.named k' (JsString.toLowerCase k, x) = false).
  { intros x. unfold Headers.named. cbn [fst]. apply String.eqb_neq. exact Hne. }
  enough (Hfl : List.filter (Headers.named k') h =
                List.filter (Headers.named k') (Headers.set h k v))
    by (unfold Headers.get; rewrite <- Hfl; reflexivity).
  unfold Headers.set.
  symmetry. destruct (Headers.has h k).
  - induction h as [|e r IH]; [reflexivity|]. cbn.
    destruct (Headers.named k e) eqn:He; cbn.
    + unfold Headers.named at 1. cbn [fst].
      unfold Headers.named in He. apply String.eqb_eq in He.
      replace (fst e =? JsString.toLowerCase k')%string with false
        by (symmetry; apply String.eqb_neq; congruence).
      replace (Headers.named k' e) with false
        by (symmetry; unfold Headers.named; apply String.eqb_neq; congruence).
      apply filter_named_other. exact Hne.
    + destruct (Headers.named k' e); [f_equal|]; exact IH.
  - rewrite List.filter_app. cbn [List.filter]. rewrite Hn. apply app_nil_r.
Qed.

(** ** The response engine *)

Lemma end_open (b : JSValue) (w : World) :
  is_open (res w) ->
  end_ b w = (Normal tt, finalized (statusCode (res w)) None (written_by b) w).
Proof.
  destruct w as [[ri sc hs [q cr] ho fi bo] lg]. intros [Hf Hc].
  cbn in Hf, Hc. subst fi cr.
  unfold end_, written_by, finalized, write, sendHead, on_ctrl, bind, when,
    get_state, log_call, with_res, modify, ret.
  cbn. destruct (Js.truthy b), hs, bo; cbn; try rewrite app_nil_r; reflexivity.
Qed.

Lemma written_by_string (f : string) : written_by (VStr f) = nonempty f.
Proof. unfold written_by, nonempty. cbn. destruct (String.eqb f ""); reflexivity. Qed.

Section ResponseProperties.

Context `{P : Platform}.

(** [error] with an integer status and a string template, on an open
    response. *)
Lemma error_string_open (s : Z) (m : string) (args : list JSValue) (w : World) :
  is_open (res w) ->
  let f := sprintf m (map Js.String_ args) in
  error (VNum (NInt s)) (VStr m) args w =
    (Normal (HTTPError.new s f "text/plain"),
     finalized s (if String.eqb m "" then None else Some "text/plain")
               (nonempty f) w).
Proof.
  intros Ho f. unfold error, getContentTypeFromDataType. cbn [Js.loose_eq_empty Js.typeof_object].
  destruct (String.eqb m "") eqn:Hm.
  - unfold bind at 1. unfold status at 1. unfold with_res, modify.
    unfold bind at 1. unfold ret at 1.
    unfold bind at 1. unfold ret at 1.
    unfold bind at 1. rewrite end_open by exact Ho.
    rewrite written_by_string. cbn. reflexivity.
  - unfold bind at 1. unfold status at 1. unfold with_res, modify.
    unfold bind at 1. unfold ret at 1.
    unfold bind at 1. unfold type, set, with_res, modify.
    unfold bind at 1. rewrite end_open by exact Ho.
    rewrite written_by_string. cbn. reflexivity.
Qed.

(** [assert] returns when the condition is false. *)
Lemma assert_false (st : Number) (msg : option string) (args : list JSValue)
  (w : World) :
  assert st false msg args w = (Normal tt, w).
Proof. reflexivity. Qed.

(** [assert] with an integer status and a true condition, on an open
    response. *)
Lemma assert_true_open (s : Z) (msg : option string) (args : list JSValue)
  (w : World) :
  is_open (res w) ->
  let m := default "" msg in
  let f := sprintf m (map Js.String_ args) in
  assert (NInt s) true msg args w =
    (Throw (VHTTPError (HTTPError.new s f "text/plain")),
     finalized s (if String.eqb m "" then None else Some "text/plain")
               (nonempty f) w).
Proof.
  intros Ho m f. unfold assert. cbn [negb]. unfold bind.
  rewrite error_string_open by exact Ho. reflexivity.
Qed.

End ResponseProperties.

(** ** C1: the assertion helpers *)

(** What a true assertion leaves of a response that was ended before: the
    status and, for a template that is not empty, the content type are
    overwritten and the warning is logged; the stream is as it was. *)
Definition overwritten (s : Z) (m : string) (w : World) : World :=
  mkWorld
    (set_headersObj
       (if String.eqb m "" then headersObj (res w)
        else Headers.set (headersObj (res w)) "Content-Type" "text/plain")
       (set_statusCode s (res w)))
    (log w ++ [warn_entry already_finished]).

(** On a response that was ended, a true assertion does not get to build its
    HTTPError: the [end] inside [error] raises the controller's TypeError. *)
Lemma assert_true_ended `{P : Platform} (s : Z) (msg : option string)
  (args : list JSValue) (w : World) :
  ended (res w) ->
  assert (NInt s) true msg args w =
    (Throw Ctrl.cannot, overwritten s (default "" msg) w).
Proof.
  destruct w as [[ri sc hs [q cr] ho fi bo] lg]. unfold ended. cbn.
  intros (-> & -> & ->).
  unfold assert, error, getContentTypeFromDataType, overwritten.
  cbn [negb Js.loose_eq_empty Js.typeof_object].
  set (f := sprintf _ _).
  destruct (String.eqb (default "" msg) ""); unfold_ops; cbn;
    destruct (String.eqb f ""); reflexivity.
Qed.

Lemma end_leaves_ended (b : JSValue) (w : World) :
  is_open (res w) -> ended (res (snd (end_ b w))).
Proof. intros Ho. rewrite end_open by exact Ho. repeat split. Qed.

(** C1. For [assert] with an integer status [s] and for each specialised
    helper with its status [s] (badRequest 400, unauthorized 401, forbidden
    403, notFound 404, conflict 409, gone 410, badType 415): called with a
    false condition the helper returns normally and leaves the response and
    the logger as they were, so that the status of a fresh response stays
    200; called with a true condition on a response that was not ended, it
    raises an HTTPError of status [s] whose message is the formatted
    template, and leaves the response with status [s], its head sent, its
    stream closed and [finished] set. Called with a true condition on a
    response that was ended, it does not get that far: the [end] inside
    [error] goes on after its warning and the stream raises its TypeError,
    so no HTTPError is built or raised, while the status of the response is
    overwritten. *)
Theorem C1_assertion_helpers `{P : Platform}
  (s : Z) (f : bool -> option string -> list JSValue -> M World unit)
  (msg : option string) (args : list JSValue) (w : World) :
  f = assert (NInt s) \/ In (s, f) helpers ->
  f false msg args w = (Normal tt, w) /\
  (forall ri lg,
     statusCode (res (snd (f false msg args (mkWorld (new_CafResponse ri) lg))))
     = 200) /\
  (is_open (res w) ->
   exists e w',
     f true msg args w = (Throw (VHTTPError e), w') /\
     HTTPError.status e = s /\
     HTTPError.message e = sprintf (default "" msg) (map Js.String_ args) /\
     statusCode (res w') = s /\
     headersSent (res w') = true /\
     Ctrl.closeRequested (streamCtrl (res w')) = true /\
     finished (res w') = true) /\
  (ended (res w) ->
   exists w',
     f true msg args w = (Throw Ctrl.cannot, w') /\
     (forall e, Ctrl.cannot <> VHTTPError e) /\
     statusCode (res w') = s /\
     streamCtrl (res w') = streamCtrl (res w) /\
     body (res w') = body (res w) /\
     log w' = log w ++ [warn_entry already_finished]) /\
  (forall b,
     is_open (res w) ->
     fst (f true msg args (snd (end_ b w))) = Throw Ctrl.cannot).
Proof.
  intros Hf.
  assert (Heq : f = assert (NInt s)).
  { destruct Hf as [Hf|Hin]; [exact Hf|].
    unfold helpers in Hin. cbn [In] in Hin.
    repeat (destruct Hin as [Hin|Hin];
            [inversion Hin; subst; reflexivity|]).
    destruct Hin. }
  subst f. split; [reflexivity|]. split; [reflexivity|]. split; [|split].
  - intros Ho. eexists. eexists.
    split; [apply assert_true_open; exact Ho|].
    cbn. repeat split; reflexivity.
  - intros He. eexists. split; [apply assert_true_ended; exact He|].
    split; [discriminate|]. repeat split.
  - intros b Ho.
    rewrite assert_true_ended by (apply end_leaves_ended, Ho). reflexivity.
Qed.

(** The calls of the repository's test of the assertions:
    [res.unauthorized(true)], then [res.forbidden(true)] on the response
    the first one ended. The first raises the HTTPError 401; the second
    raises the TypeError of the stream. *)
Lemma C1_assertion_helpers_witness :
  (exists e w',
     unauthorized (P := sample_platform) true None [] sample_world =
       (Throw (VHTTPError e), w') /\
     HTTPError.status e = 401 /\ finished (res w') = true) /\
  fst (forbidden (P := sample_platform) true None []
         (snd (unauthorized (P := sample_platform) true None [] sample_world)))
  = Throw Ctrl.cannot.
Proof.
  split.
  - destruct (C1_assertion_helpers (P := sample_platform) 401
                (unauthorized (P := sample_platform))
                None [] sample_world) as (_ & _ & H & _).
    + right. right. left. reflexivity.
    + destruct H as (e & w' & He & Hs & _ & _ & _ & _ & Hfin);
        [split; reflexivity|].
      exists e, w'. split; [exact He|]. split; [exact Hs | exact Hfin].
  - destruct (C1_assertion_helpers (P := sample_platform) 403
                (forbidden (P := sample_platform))
                None []
                (snd (unauthorized (P := sample_platform) true None []
                        sample_world))) as (_ & _ & _ & H & _).
    + right. right. right. left. reflexivity.
    + destruct H as (w' & He & _); [repeat split|]. rewrite He.
      reflexivity.
Defined.

(** ** C6: the error interceptor *)

(** The content type [res.type(t)] sets for the tag of an HTTPError. *)
Definition content_type_of (t : string) : string :=
  default t (SHORT_CONTENT_TYPES t).

(** The logger after [handleError] told it of the failure. *)
Definition told (ri : ReqInfo) (v : JSValue) (w : World) : World :=
  mkWorld (res w) (log w ++ [route_entry ri v]).

Lemma handleError_raises (v e : JSValue) (ri : ReqInfo) (w : World) :
  anythingToError v = Throw e -> handleError v ri w = (Throw e, w).
Proof. intros Ha. unfold handleError, bind, lift. rewrite Ha. reflexivity. Qed.

Lemma handleError_below_500 (v : JSValue) (herr : HTTPError.t) (ri : ReqInfo)
  (w : World) :
  anythingToError v = Normal herr ->
  HTTPError.status herr < 500 ->
  handleError v ri w = (Normal herr, w).
Proof.
  intros Ha Hs. unfold handleError. unfold bind at 1. unfold lift. rewrite Ha.
  replace (499 <? _) with false by (symmetry; apply Z.ltb_ge; lia).
  reflexivity.
Qed.

Lemma handleError_finished (v : JSValue) (herr : HTTPError.t) (ri : ReqInfo)
  (w : World) :
  anythingToError v = Normal herr ->
  500 <= HTTPError.status herr ->
  finished (res w) = true ->
  handleError v ri w = (Normal herr, told ri v w).
Proof.
  intros Ha Hs Hf. unfold handleError. unfold bind at 1. unfold lift. rewrite Ha.
  replace (499 <? _) with true by (symmetry; apply Z.ltb_lt; lia).
  unfold bind at 1. unfold bind at 1. unfold log_call at 1. unfold modify.
  unfold bind at 1. unfold get_state at 1. cbn [res]. rewrite Hf. reflexivity.
Qed.

Lemma handleError_open (v : JSValue) (herr : HTTPError.t) (ri : ReqInfo)
  (w : World) :
  anythingToError v = Normal herr ->
  500 <= HTTPError.status herr ->
  is_open (res w) ->
  handleError v ri w =
    (Normal herr,
     finalized (HTTPError.status herr)
       (Some (content_type_of (HTTPError.type herr))) None
       (told ri v w)).
Proof.
  intros Ha Hs Ho. unfold handleError. unfold bind at 1. unfold lift. rewrite Ha.
  replace (499 <? _) with true by (symmetry; apply Z.ltb_lt; lia).
  unfold bind at 1. unfold bind at 1. unfold log_call at 1. unfold modify.
  unfold bind at 1. unfold get_state at 1. cbn [res].
  destruct Ho as [Hf Hc]. rewrite Hf. cbn [negb].
  unfold bind at 1. unfold status at 1. unfold with_res, modify.
  unfold bind at 1. unfold type, set, with_res, modify.
  rewrite end_open by (split; assumption). reflexivity.
Qed.

(** An object that reaches itself: [JSON.stringify] raises a TypeError. *)
Definition circular : JSValue :=
  VObject (mkObjView
             (JsonThrows (TypeError "Converting circular structure to JSON"))
             "[object Object]").

(** C6 fails for [null], which is no plain object and yet is wrapped with
    its JSON serialization and the tag [json]: the response is finalized as
    application/json, not as text. It fails too for an object that reaches
    itself: the interceptor raises, and neither logs nor finalizes. *)
Lemma C6_null_is_json :
  anythingToError VNull = Normal (HTTPError.new 500 "null" "json") /\
  Headers.get
    (headersObj (res (snd (handleError VNull sample_reqInfo sample_world))))
    "Content-Type" = Some "application/json" /\
  handleError circular sample_reqInfo sample_world =
    (Throw (TypeError "Converting circular structure to JSON"), sample_world).
Proof. repeat split. Qed.

(** C6, amended. The error interceptor. A value that is an HTTPError is
    passed through; an Error becomes a 500 with its message and the tag
    [text]; any other value whose [typeof] is ['object'] (a plain object,
    and also an array, [null], a Buffer or an ArrayBuffer) becomes, when
    [JSON.stringify] gives its text, a 500 with that text and the tag
    [json]; every value left (a string, a number, a boolean, [undefined], a
    function) a 500 with its string and the tag [text]. When the status of
    the result is 500 or more, [log.error] is told of the original value,
    and a response that was not ended is finalized with that status and
    nothing written, while a finished response is left as it is. Below 500
    nothing changes. (When [JSON.stringify] gives [undefined] the message is
    empty; when it raises, the interceptor raises the same and changes
    nothing.) *)
Theorem C6_error_interceptor (v : JSValue) (ri : ReqInfo) (w : World) :
  (forall e, v = VHTTPError e -> anythingToError v = Normal e) /\
  (forall msg o,
     v = VError msg o -> anythingToError v = Normal (HTTPError.new 500 msg "text")) /\
  ((forall e, v <> VHTTPError e) -> (forall msg o, v <> VError msg o) ->
   (Js.typeof_object v = true ->
    (forall s, Js.JSON_stringify v = JsonText s ->
               anythingToError v = Normal (HTTPError.new 500 s "json")) /\
    (Js.JSON_stringify v = JsonUndefined ->
     anythingToError v = Normal (HTTPError.new 500 "" "json")) /\
    (forall e, Js.JSON_stringify v = JsonThrows e ->
               handleError v ri w = (Throw e, w))) /\
   (Js.typeof_object v = false ->
    anythingToError v = Normal (HTTPError.new 500 (Js.String_ v) "text"))) /\
  (Js.typeof_object VNull = true /\
   (forall o, Js.typeof_object (VObject o) = true) /\
   (forall b, Js.typeof_object (VBuffer b) = true /\
              Js.typeof_object (VArrayBuffer b) = true) /\
   Js.typeof_object VUndefined = false /\
   (forall s, Js.typeof_object (VStr s) = false) /\
   (forall n, Js.typeof_object (VNum n) = false) /\
   (forall b, Js.typeof_object (VBool b) = false) /\
   (forall f, Js.typeof_object (VFunction f) = false)) /\
  (forall herr,
     anythingToError v = Normal herr ->
     (500 <= HTTPError.status herr ->
      entry_call (route_entry ri v) = LError /\
      entry_err (route_entry ri v) = Some v /\
      (finished (res w) = true ->
       exists w',
         handleError v ri w = (Normal herr, w') /\
         log w' = log w ++ [route_entry ri v] /\
         res w' = res w) /\
      (is_open (res w) ->
       exists w',
         handleError v ri w = (Normal herr, w') /\
         log w' = log w ++ [route_entry ri v; response_entry (res w')] /\
         statusCode (res w') = HTTPError.status herr /\
         finished (res w') = true /\
         Ctrl.closeRequested (streamCtrl (res w')) = true /\
         Ctrl.queue (streamCtrl (res w')) = Ctrl.queue (streamCtrl (res w)) /\
         body (res w') = body (res w) /\
         headersObj (res w') =
           Headers.set (headersObj (res w)) "Content-Type"
                       (content_type_of (HTTPError.type herr)))) /\
     (HTTPError.status herr < 500 -> handleError v ri w = (Normal herr, w))).
Proof.
  split; [intros e ->; reflexivity|].
  split; [intros msg o ->; reflexivity|].
  split.
  { intros Hh He. split.
    - intros Ht.
      assert (Ha : anythingToError v =
                   match stringified v with
                   | Normal m => Normal (HTTPError.new 500 (Error_message m) "json")
                   | Throw e => Throw e
                   end).
      { destruct v; try discriminate Ht; try reflexivity.
        - exfalso. exact (He _ _ eq_refl).
        - exfalso. exact (Hh _ eq_refl). }
      split; [|split].
      + intros s Hj. rewrite Ha. unfold stringified. rewrite Hj. reflexivity.
      + intros Hj. rewrite Ha. unfold stringified. rewrite Hj. reflexivity.
      + intros e Hj. apply handleError_raises. rewrite Ha.
        unfold stringified. rewrite Hj. reflexivity.
    - intros Ht. destruct v; try discriminate Ht; reflexivity. }
  split; [repeat split|].
  intros herr Ha. split; [|apply handleError_below_500; exact Ha].
  intros Hs. split; [reflexivity|]. split; [reflexivity|]. split.
  - intros Hf. exists (told ri v w).
    rewrite (handleError_finished v herr) by assumption. repeat split.
  - intros Ho. eexists. rewrite (handleError_open v herr) by assumption.
    split; [reflexivity|]. cbn. rewrite <- app_assoc, app_nil_r.
    repeat split.
Qed.

Lemma C6_error_interceptor_witness :
  exists w',
    handleError (VObject (mkObjView (JsonText "{}") "[object Object]"))
      sample_reqInfo sample_world =
      (Normal (HTTPError.new 500 "{}" "json"), w') /\
    statusCode (res w') = 500 /\
    Ctrl.queue (streamCtrl (res w')) = [] /\
    Headers.get (headersObj (res w')) "content-type" = Some "application/json" /\
    List.length (log w') = 2%nat.
Proof.
  pose proof (C6_error_interceptor
                (VObject (mkObjView (JsonText "{}") "[object Object]"))
                sample_reqInfo sample_world) as H.
  destruct H as (_ & _ & _ & _ & H).
  destruct (H (HTTPError.new 500 "{}" "json") eq_refl) as (H5 & _).
  destruct (H5 ltac:(cbn; lia)) as (_ & _ & _ & Ho).
  destruct (Ho ltac:(split; reflexivity))
    as (w' & Hr & Hl & Hst & _ & _ & Hq & _ & Hh).
  exists w'. split; [exact Hr|]. split; [exact Hst|]. split; [exact Hq|].
  split; [rewrite Hh; reflexivity|]. rewrite Hl. reflexivity.
Defined.

(** A status that is no integer is no status: [error] hands it to the
    interceptor, and the HTTPError raised is a 500. *)
Lemma assert_not_integer `{P : Platform} (r : string) (msg : option string)
  (args : list JSValue) (w : World) :
  is_open (res w) ->
  fst (assert (NOther r) true msg args w) =
    Throw (VHTTPError (HTTPError.new 500 r "text")).
Proof.
  intros Ho. unfold assert, error. cbn [negb]. unfold bind at 1.
  unfold bind at 1. unfold get_state at 1.
  rewrite (handleError_open _ (HTTPError.new 500 r "text"));
    [reflexivity | reflexivity | cbn; lia | exact Ho].
Qed.

(** ** C4: [end] called twice *)

(** After a first [end], a second one logs the warning and then raises the
    TypeError of the closed stream controller: from [write] when it has a
    chunk, from [close] otherwise. The response stays as the first call left
    it. *)
Lemma end_twice (b1 b2 : JSValue) (w : World) :
  is_open (res w) ->
  let w1 := snd (end_ b1 w) in
  fst (end_ b1 w) = Normal tt /\
  end_ b2 w1 =
    (Throw Ctrl.cannot,
     mkWorld (res w1) (log w1 ++ [warn_entry already_finished])).
Proof.
  intros Ho w1. subst w1. rewrite end_open by exact Ho.
  split; [reflexivity|].
  cbn [snd]. unfold finalized. unfold_ops. cbn.
  destruct (Js.truthy b2); reflexivity.
Qed.

(** C4. A handler that calls [res.end()] twice on a fresh response: the
    first call returns; the second one logs the warning, leaves the response
    as it was, closed, and raises a TypeError. *)
Theorem C4_second_end_raises :
  let w1 := snd (end_ VUndefined sample_world) in
  fst (end_ VUndefined sample_world) = Normal tt /\
  finished (res w1) = true /\
  fst (end_ VUndefined w1) = Throw Ctrl.cannot /\
  res (snd (end_ VUndefined w1)) = res w1 /\
  log (snd (end_ VUndefined w1)) = log w1 ++ [warn_entry already_finished] /\
  entry_call (warn_entry already_finished) = LWarn /\
  Ctrl.closeRequested (streamCtrl (res (snd (end_ VUndefined w1)))) = true.
Proof.
  destruct (end_twice VUndefined VUndefined sample_world) as [H1 H2];
    [split; reflexivity|].
  cbv zeta. rewrite H2. repeat split.
Qed.

(** ** C5: the body [error] sends *)

(** C5 fails at status 501: [res.error(501, 'boom')] on a fresh response
    sends the message as the body. *)
Lemma C5_body_at_501 :
  let w' :=
    snd (error (P := sample_platform) (VNum (NInt 501)) (VStr "boom") []
           sample_world) in
  500 <= statusCode (res w') /\
  finished (res w') = true /\
  Ctrl.queue (streamCtrl (res w')) = ["boom"] /\
  body (res w') = Some "boom".
Proof. cbv zeta. cbn. repeat split. lia. Qed.

(** C5, amended. When [res.error] with an integer status and a string
    template, or an assertion helper, finalizes a response that was not
    ended, what is written is the template printf-formatted with the
    arguments, one chunk, and nothing when the formatted message is empty;
    this is so for every status, below 500 or not. *)
Theorem C5_error_body `{P : Platform} (s : Z) (m : string)
  (args : list JSValue) (w : World) :
  is_open (res w) ->
  let f := sprintf m (map Js.String_ args) in
  exists herr w',
    error (VNum (NInt s)) (VStr m) args w = (Normal herr, w') /\
    assert (NInt s) true (Some m) args w = (Throw (VHTTPError herr), w') /\
    HTTPError.message herr = f /\
    statusCode (res w') = s /\
    finished (res w') = true /\
    Ctrl.queue (streamCtrl (res w')) =
      Ctrl.queue (streamCtrl (res w)) ++ (if String.eqb f "" then [] else [f]) /\
    body (res w') =
      (if String.eqb f "" then body (res w)
       else Some (default "" (body (res w)) +:+ f)).
Proof.
  intros Ho f. eexists. eexists.
  split; [apply error_string_open; exact Ho|].
  split; [apply (assert_true_open s (Some m)); exact Ho|].
  fold f. unfold finalized, nonempty. cbn.
  destruct (String.eqb f ""); repeat split.
Qed.

Lemma C5_error_body_witness :
  exists herr w',
    error (P := sample_platform) (VNum (NInt 404)) (VStr "no %s") [VStr "user"]
      sample_world = (Normal herr, w') /\
    statusCode (res w') = 404 /\
    Ctrl.queue (streamCtrl (res w')) = ["no user"].
Proof.
  destruct (C5_error_body (P := sample_platform) 404 "no %s" [VStr "user"]
              sample_world ltac:(split; reflexivity))
    as (herr & w' & He & _ & _ & Hs & _ & Hq & _).
  exists herr, w'. split; [exact He|]. split; [exact Hs|]. exact Hq.
Defined.

(** ** C7: parse failures of the request body *)

Section BodyProperties.

Context `{P : Platform}.

Lemma parse_failure (b : RequestBody.t) (e : JSValue) (w : World) :
  reader b = Throw e ->
  is_open (res w) ->
  RequestBody.parse b w =
    (Throw (VHTTPError invalid_format),
     finalized 400 (Some "text/plain") (Some "Invalid format") w).
Proof.
  intros Hr Ho. unfold RequestBody.parse, try_catch.
  assert (Hs : (if bool_decide (RequestBody.type b = Some "json")
                then RequestBody.settle (RequestBody.reqBody b) body_json
                else if bool_decide (RequestBody.type b = Some "text")
                     then RequestBody.settle (RequestBody.reqBody b) body_text
                     else RequestBody.settle (RequestBody.reqBody b) body_arrayBuffer)
               w = (Throw e, w)).
  { unfold reader in Hr. unfold RequestBody.settle.
    destruct (RequestBody.reqBody b); [|discriminate].
    repeat case_bool_decide; rewrite Hr; reflexivity. }
  rewrite Hs. unfold bind at 1. unfold badRequest.
  rewrite assert_true_open by exact Ho. cbn [default].
  rewrite sprintf_verbatim by reflexivity. reflexivity.
Qed.

Lemma parse_failure_ended (b : RequestBody.t) (e : JSValue) (w : World) :
  reader b = Throw e ->
  ended (res w) ->
  RequestBody.parse b w =
    (Throw Ctrl.cannot, overwritten 400 "Invalid format" w).
Proof.
  intros Hr He. unfold RequestBody.parse, try_catch.
  assert (Hs : (if bool_decide (RequestBody.type b = Some "json")
                then RequestBody.settle (RequestBody.reqBody b) body_json
                else if bool_decide (RequestBody.type b = Some "text")
                     then RequestBody.settle (RequestBody.reqBody b) body_text
                     else RequestBody.settle (RequestBody.reqBody b) body_arrayBuffer)
               w = (Throw e, w)).
  { unfold reader in Hr. unfold RequestBody.settle.
    destruct (RequestBody.reqBody b); [|discriminate].
    repeat case_bool_decide; rewrite Hr; reflexivity. }
  rewrite Hs. unfold bind at 1. unfold badRequest.
  rewrite assert_true_ended by exact He. reflexivity.
Qed.

End BodyProperties.

(** C7. When the reader of the request body fails, whatever the body and
    the declared content type, [parse] (and [raw], [text] and [json], which
    go through it) turns the failure into the HTTPError 400 "Invalid format"
    on a response that was not ended: the response is finalized with status
    400, content type text/plain and the one chunk "Invalid format". What an
    accessor raises is that error, or the 415 of a type it does not accept:
    never the failure of the reader. On a response that was ended the
    conversion does not get that far: the [end] inside [badRequest] goes on
    after its warning and the stream raises its TypeError, so every accessor
    raises that TypeError and no HTTPError, and nothing is written, while
    the status and the content type of the response are overwritten. *)
Theorem C7_parse_failure `{P : Platform} (b : RequestBody.t) (e : JSValue)
  (w : World) :
  reader b = Throw e ->
  (is_open (res w) ->
   exists w',
     RequestBody.parse b w = (Throw (VHTTPError invalid_format), w') /\
     RequestBody.raw b w = (Throw (VHTTPError invalid_format), w') /\
     statusCode (res w') = 400 /\
     finished (res w') = true /\
     Ctrl.queue (streamCtrl (res w')) =
       Ctrl.queue (streamCtrl (res w)) ++ ["Invalid format"] /\
     body (res w') = Some (default "" (body (res w)) +:+ "Invalid format") /\
     Headers.get (headersObj (res w')) "Content-Type" = Some "text/plain" /\
     (forall accessor,
        In accessor [RequestBody.raw; RequestBody.text; RequestBody.json] ->
        exists he w'',
          accessor b w = (Throw (VHTTPError he), w'') /\
          (he = invalid_format /\ w'' = w' \/ HTTPError.status he = 415))) /\
  (ended (res w) ->
   exists w',
     RequestBody.parse b w = (Throw Ctrl.cannot, w') /\
     (forall he, Ctrl.cannot <> VHTTPError he) /\
     statusCode (res w') = 400 /\
     Headers.get (headersObj (res w')) "Content-Type" = Some "text/plain" /\
     streamCtrl (res w') = streamCtrl (res w) /\
     body (res w') = body (res w) /\
     (forall accessor,
        In accessor [RequestBody.raw; RequestBody.text; RequestBody.json] ->
        fst (accessor b w) = Throw Ctrl.cannot)).
Proof.
  intros Hr. split.
  - intros Ho.
    exists (finalized 400 (Some "text/plain") (Some "Invalid format") w).
    pose proof (parse_failure b e w Hr Ho) as Hp.
    split; [exact Hp|]. split; [exact Hp|].
    do 4 (split; [reflexivity|]).
    split; [cbn; apply get_set_same|].
    intros accessor Hin. cbn [In] in Hin.
    destruct Hin as [<-|[<-|[<-|[]]]].
    + eexists. eexists. split; [exact Hp|]. left. split; reflexivity.
    + unfold RequestBody.text.
      destruct (RequestBody.is_empty (RequestBody.charset b) &&
                negb (bool_decide (RequestBody.type b = Some "text"))).
      * unfold bind, badType. rewrite assert_true_open by exact Ho.
        eexists. eexists. split; [reflexivity|]. right. reflexivity.
      * unfold bind, badType. rewrite assert_false. rewrite Hp.
        eexists. eexists. split; [reflexivity|]. left. split; reflexivity.
    + unfold RequestBody.json.
      destruct (negb (bool_decide (RequestBody.type b = Some "json"))).
      * unfold bind, badType. rewrite assert_true_open by exact Ho.
        eexists. eexists. split; [reflexivity|]. right. reflexivity.
      * unfold bind, badType. rewrite assert_false. rewrite Hp.
        eexists. eexists. split; [reflexivity|]. left. split; reflexivity.
  - intros He. pose proof (parse_failure_ended b e w Hr He) as Hp.
    exists (overwritten 400 "Invalid format" w).
    split; [exact Hp|]. split; [discriminate|]. split; [reflexivity|].
    split; [cbn; apply get_set_same|]. split; [reflexivity|].
    split; [reflexivity|].
    intros accessor Hin. cbn [In] in Hin.
    destruct Hin as [<-|[<-|[<-|[]]]].
    + unfold RequestBody.raw. rewrite Hp. reflexivity.
    + unfold RequestBody.text.
      destruct (RequestBody.is_empty (RequestBody.charset b) &&
                negb (bool_decide (RequestBody.type b = Some "text"))).
      * unfold bind, badType. rewrite assert_true_ended by exact He.
        reflexivity.
      * unfold bind, badType. rewrite assert_false. rewrite Hp. reflexivity.
    + unfold RequestBody.json.
      destruct (negb (bool_decide (RequestBody.type b = Some "json"))).
      * unfold bind, badType. rewrite assert_true_ended by exact He.
        reflexivity.
      * unfold bind, badType. rewrite assert_false. rewrite Hp. reflexivity.
Qed.

(** The request of the regression test: [Content-Type: application/json]
    and an object cut off inside its first key, whose [json()] reader
    rejects with a SyntaxError. *)
Definition cut_off : string := "{" +:+ Js.dq +:+ "sdf:".

Definition malformed_json : RequestBody.t :=
  RequestBody.new "application/json"
    (Some (mkBody (Throw (SyntaxError "Unexpected end of JSON input"))
                  (Normal (VStr cut_off)) (Normal (VArrayBuffer cut_off)))).

(** A handler that reads the malformed body: on a fresh response, and
    after it called [res.end()]. *)
Lemma C7_parse_failure_witness :
  (exists w',
     RequestBody.json (P := sample_platform) malformed_json sample_world =
       (Throw (VHTTPError invalid_format), w') /\
     statusCode (res w') = 400 /\
     Ctrl.queue (streamCtrl (res w')) = ["Invalid format"]) /\
  (let w1 := snd (end_ VUndefined sample_world) in
   fst (RequestBody.json (P := sample_platform) malformed_json w1) =
     Throw Ctrl.cannot /\
   Ctrl.queue
     (streamCtrl
        (res (snd (RequestBody.json (P := sample_platform) malformed_json w1))))
   = []).
Proof.
  split.
  - destruct (C7_parse_failure (P := sample_platform) malformed_json
                (SyntaxError "Unexpected end of JSON input") sample_world
                eq_refl) as (H & _).
    destruct H as (w' & Hp & _ & Hs & _ & Hq & _); [split; reflexivity|].
    exists w'. split; [|split; [exact Hs | exact Hq]].
    rewrite <- Hp. reflexivity.
  - destruct (C7_parse_failure (P := sample_platform) malformed_json
                (SyntaxError "Unexpected end of JSON input")
                (snd (end_ VUndefined sample_world)) eq_refl) as (_ & H).
    destruct H as (w' & _ & _ & _ & _ & _ & _ & Ha); [repeat split|].
    cbv zeta. split.
    + apply Ha. right. right. left. reflexivity.
    + reflexivity.
Defined.

(** ** The route table *)

Section RouteProperties.

Context `{P : Platform}.

Lemma addEndpoint_duplicate (api : API.t) (method path : string)
  (h : RouteHandler) :
  is_Some (API.routes api !! (JsString.toUpperCase method +:+ " " +:+ path)) ->
  API.addEndpoint method path h api = (Throw (duplicate_route method path), api).
Proof.
  intros Hd. unfold API.addEndpoint, bind, get_state, std_assert.
  rewrite bool_decide_eq_true_2 by exact Hd. reflexivity.
Qed.

(** Whatever its outcome, [addEndpoint] leaves the pair registered. *)
Lemma addEndpoint_registers (api : API.t) (method path : string)
  (h : RouteHandler) :
  is_Some (API.routes (snd (API.addEndpoint method path h api))
             !! (JsString.toUpperCase method +:+ " " +:+ path)).
Proof.
  unfold API.addEndpoint, bind, get_state, std_assert.
  case_bool_decide as Hd; cbn [negb]; [exact Hd|].
  unfold ret, modify, API.pathToRegexp.
  destruct (_ && _); cbn.
  - rewrite lookup_insert_eq. eauto.
  - destruct (API.path_source path) as [source params].
    destruct (RegExp_new source); cbn; rewrite lookup_insert_eq; eauto.
Qed.

Lemma setFallbackRoute_duplicate (api : API.t) (h : RouteHandler) :
  is_Some (API.fallbackRoute api) ->
  API.setFallbackRoute h api = (Throw duplicate_fallback, api).
Proof.
  intros Hd. unfold API.setFallbackRoute, bind, get_state, std_assert.
  rewrite bool_decide_eq_true_2 by exact Hd. reflexivity.
Qed.

Lemma setFallbackRoute_sets (api : API.t) (h : RouteHandler) :
  is_Some (API.fallbackRoute (snd (API.setFallbackRoute h api))).
Proof.
  unfold API.setFallbackRoute, bind, get_state, std_assert.
  case_bool_decide as Hd; cbn; [exact Hd | eauto].
Qed.

End RouteProperties.

(** ** C10: route conflicts *)

(** C10. Registering a (method, path) pair that the table holds raises the
    AssertionError of the duplicate route and leaves the table as it was;
    so does registering the pair a second time, after any first
    registration of it. Setting the fallback route when one is set raises
    as well and changes nothing, and so does setting it twice. *)
Theorem C10_route_conflict `{P : Platform} (api : API.t)
  (method path : string) (h h' : RouteHandler) :
  (is_Some (API.routes api !! (JsString.toUpperCase method +:+ " " +:+ path)) ->
   API.addEndpoint method path h api =
     (Throw (duplicate_route method path), api)) /\
  (let api1 := snd (API.addEndpoint method path h api) in
   API.addEndpoint method path h' api1 =
     (Throw (duplicate_route method path), api1)) /\
  (is_Some (API.fallbackRoute api) ->
   API.setFallbackRoute h api = (Throw duplicate_fallback, api)) /\
  (let api1 := snd (API.setFallbackRoute h api) in
   API.setFallbackRoute h' api1 = (Throw duplicate_fallback, api1)).
Proof.
  split; [apply addEndpoint_duplicate|].
  split; [apply addEndpoint_duplicate, addEndpoint_registers|].
  split; [apply setFallbackRoute_duplicate|].
  apply setFallbackRoute_duplicate, setFallbackRoute_sets.
Qed.

(** A table set up with [GET /foo] and a fallback. *)
Definition sample_api : API.t :=
  snd (API.setFallbackRoute sample_handler
         (snd (API.addEndpoint (P := sample_platform) "get" "/foo"
                 sample_handler API.new))).

Lemma C10_route_conflict_witness :
  API.addEndpoint (P := sample_platform) "GET" "/foo" sample_handler sample_api =
    (Throw (duplicate_route "GET" "/foo"), sample_api) /\
  API.setFallbackRoute sample_handler sample_api =
    (Throw duplicate_fallback, sample_api).
Proof.
  pose proof (C10_route_conflict (P := sample_platform) sample_api "GET" "/foo"
                sample_handler sample_handler) as (H1 & _ & H3 & _).
  split.
  - apply H1. vm_compute. eauto.
  - apply H3. vm_compute. eauto.
Defined.

(** ** C3: the registration helpers *)

Section HelperProperties.

Context `{P : Platform}.

Lemma post_only_new : post_only API.new.
Proof.
  split; intros k [x Hx]; cbn in Hx; rewrite lookup_empty in Hx; discriminate.
Qed.

Lemma post_only_addEndpoint (api : API.t) (method path : string)
  (h : RouteHandler) :
  JsString.toUpperCase method = "POST" ->
  post_only api ->
  post_only (snd (API.addEndpoint method path h api)).
Proof.
  intros Hm [Hs Hd]. unfold API.addEndpoint, bind, get_state, std_assert.
  rewrite Hm.
  case_bool_decide as Hdup; cbn [negb]; [split; assumption|].
  unfold ret, modify, API.pathToRegexp.
  assert (Hk : forall (x : list DynamicRoute.t) m,
             is_Some (<["POST" := x]> (API.dynamic api) !! m) -> m = "POST").
  { intros x m Hx. destruct (decide (m = "POST")) as [->|Hne]; [reflexivity|].
    rewrite lookup_insert_ne in Hx by congruence. auto. }
  destruct (_ && _); cbn.
  - split; cbn; [|exact Hd].
    intros k Hk'. destruct (decide (k = "POST " +:+ path)) as [->|Hne].
    + cbn. destruct path; reflexivity.
    + rewrite lookup_insert_ne in Hk'
        by (intros <-; apply Hne; reflexivity).
      auto.
  - destruct (API.path_source path) as [source params].
    destruct (RegExp_new source); cbn; (split; cbn; [exact Hs|]).
    + intros m. rewrite insert_insert_eq. apply Hk.
    + apply Hk.
Qed.

Lemma post_only_setFallbackRoute (api : API.t) (h : RouteHandler) :
  post_only api -> post_only (snd (API.setFallbackRoute h api)).
Proof.
  intros Hp. unfold API.setFallbackRoute, bind, get_state, std_assert.
  case_bool_decide; cbn; exact Hp.
Qed.

Lemma App_helper_is_post (f : string -> RouteHandler -> M API.t unit) :
  In f App_helpers -> f = App.post.
Proof.
  unfold App_helpers. cbn [In].
  intros [<-|[<-|[<-|[<-|[<-|[]]]]]]; reflexivity.
Qed.

Lemma Router_helper_is_post
  (f : string -> RouteHandler -> Router.t -> Router.t) :
  In f Router_helpers -> f = Router.post.
Proof.
  unfold Router_helpers. cbn [In].
  intros [<-|[<-|[<-|[<-|[<-|[<-|[]]]]]]]; reflexivity.
Qed.

Lemma helper_built_post_only (api : API.t) :
  helper_built api -> post_only api.
Proof.
  induction 1 as [|f path handler api Hf _ IH|handler api _ IH].
  - apply post_only_new.
  - rewrite (App_helper_is_post f Hf).
    apply post_only_addEndpoint; [reflexivity | exact IH].
  - apply post_only_setFallbackRoute. exact IH.
Qed.

(** The routes a router holds that the helpers built: POST routes, and
    fallback routes. *)
Definition helper_route (r : Route.t) : Prop :=
  Route.all r = Some true \/ (Route.all r = None /\ Route.method r = "POST").

Lemma router_built_routes (rt : Router.t) :
  router_built rt -> Forall helper_route (Router.routes rt).
Proof.
  induction 1 as [|f path handler rt Hf _ IH|handler rt _ IH].
  - constructor.
  - rewrite (Router_helper_is_post f Hf). cbn.
    apply Forall_app. split; [exact IH|].
    constructor; [right; split; reflexivity | constructor].
  - cbn. apply Forall_app. split; [exact IH|].
    constructor; [left; reflexivity | constructor].
Qed.

Lemma register_post_only (rs : list Route.t) (api : API.t) :
  Forall helper_route rs -> post_only api ->
  post_only (snd (App.register rs api)).
Proof.
  intros Hrs. revert api.
  induction Hrs as [|r rs Hr _ IH]; intros api Hp; [exact Hp|].
  cbn [App.register]. unfold bind at 1.
  assert (Hstep : post_only
            (snd ((if bool_decide (Route.all r = Some true)
                   then API.setFallbackRoute (Route.handler r)
                   else API.addEndpoint (JsString.toLowerCase (Route.method r))
                          (Route.path r) (Route.handler r)) api))).
  { destruct Hr as [Ha|[Ha Hm]].
    - rewrite bool_decide_eq_true_2 by exact Ha.
      apply post_only_setFallbackRoute, Hp.
    - rewrite bool_decide_eq_false_2 by congruence.
      apply post_only_addEndpoint; [rewrite Hm; reflexivity | exact Hp]. }
  destruct ((if bool_decide (Route.all r = Some true)
             then API.setFallbackRoute (Route.handler r)
             else API.addEndpoint (JsString.toLowerCase (Route.method r))
                    (Route.path r) (Route.handler r)) api)
    as [[[]|e] api1]; cbn [snd] in Hstep |- *.
  - apply IH, Hstep.
  - exact Hstep.
Qed.

Lemma matchRoute_post_only (api : API.t) (m path : string)
  (params : Dictionary) :
  post_only api -> In m other_verbs ->
  API.matchRoute api m path params = (API.fallbackRoute api, params).
Proof.
  intros [Hs Hd] Hm. unfold API.matchRoute.
  assert (Hst : API.static api !! (m +:+ " " +:+ path) = None).
  { destruct (API.static api !! (m +:+ " " +:+ path)) as [h|] eqn:Hl;
      [|reflexivity].
    specialize (Hs _ (ex_intro _ h Hl)).
    unfold other_verbs in Hm. cbn [In] in Hm.
    destruct Hm as [<-|[<-|[<-|[<-|[<-|[]]]]]]; discriminate Hs. }
  assert (Hdy : API.dynamic api !! m = None).
  { destruct (API.dynamic api !! m) as [l|] eqn:Hl; [|reflexivity].
    specialize (Hd _ (ex_intro _ l Hl)). subst m.
    unfold other_verbs in Hm. cbn [In] in Hm.
    destruct Hm as [Hm|[Hm|[Hm|[Hm|[Hm|[]]]]]]; discriminate Hm. }
  rewrite Hst, Hdy. reflexivity.
Qed.

End HelperProperties.

(** ** CORS: what the functions do to the headers *)

Definition with_headers (h : Headers.t) (w : World) : World :=
  mkWorld (set_headersObj h (res w)) (log w).

(** The headers [setVaryHeader] leaves. *)
Definition vary_headers (newValue : string) (h : Headers.t) : Headers.t :=
  let curVal := default "" (Headers.get h "Vary") in
  if String.eqb curVal "*" then h
  else if String.eqb newValue "*" then Headers.set h "Vary" "*"
  else
    let values := vary_values curVal in
    Headers.set h "Vary"
      (JsString.join ", "
         (if JsString.includes values (JsString.toLowerCase newValue)
          then values else values ++ [JsString.toLowerCase newValue])).

(** The headers [initCors] leaves. *)
Definition initCors_headers (opts : CorsOptions) (og : string) (h : Headers.t)
  : Headers.t :=
  let h1 :=
    match default Cors.DEFAULT_origin (origin opts) with
    | OBool false | ORule (RString "") | ORule (RString "*") =>
        Headers.set h "Access-Control-Allow-Origin" "*"
    | ORule (RString s) =>
        vary_headers "Origin" (Headers.set h "Access-Control-Allow-Origin" s)
    | o =>
        vary_headers "Origin"
          (Headers.set h "Access-Control-Allow-Origin"
             (if Cors.isOriginAllowed og o then og else "false"))
    end in
  let h2 :=
    if bool_decide (credentials opts = Some true)
    then Headers.set h1 "Access-Control-Allow-Credentials" "true" else h1 in
  match exposedHeaders opts with
  | Some e =>
      if Cors.has_length (Some e)
      then Headers.set h2 "Access-Control-Expose-Headers" (Cors.joined e)
      else h2
  | None => h2
  end.

(** The headers [handleOptions] leaves. *)
Definition options_headers (opts : CorsOptions) (neededHeaders : string)
  (h : Headers.t) : Headers.t :=
  let h1 :=
    Headers.set h "Access-Control-Allow-Methods"
      (Cors.joined (default Cors.DEFAULT_methods (methods opts))) in
  let h2 :=
    if Cors.falsy (allowedHeaders opts)
    then vary_headers "Access-Control-request-Headers" h1 else h1 in
  let allowed :=
    if Cors.falsy (allowedHeaders opts) then Some (One neededHeaders)
    else allowedHeaders opts in
  let h3 :=
    match allowed with
    | Some a =>
        if Cors.has_length allowed
        then Headers.set h2 "Access-Control-Allow-Headers" (Cors.joined a)
        else h2
    | None => h2
    end in
  let h4 :=
    match Cors.maxAge_string (maxAge opts) with
    | Some m =>
        if negb (String.eqb m "") then Headers.set h3 "Access-Control-Max-Age" m
        else h3
    | None => h3
    end in
  Headers.set h4 "Content-Length" "0".

(** A request that the CORS layer answers itself. *)
Definition is_preflight (conf : option CorsOptions) (rq : API.Request) : bool :=
  bool_decide (is_Some conf) &&
  match Headers.get (API.rq_headers rq) "origin" with
  | Some og => negb (String.eqb og "")
  | None => false
  end &&
  String.eqb (API.rq_method rq) "OPTIONS".

Lemma with_headers_same (w : World) : with_headers (headersObj (res w)) w = w.
Proof. destruct w as [[] ?]. reflexivity. Qed.

Lemma with_headers_twice (h h' : Headers.t) (w : World) :
  with_headers h' (with_headers h w) = with_headers h' w.
Proof. reflexivity. Qed.

Lemma set_spec (k v : string) (w : World) :
  set k v w = (Normal tt, with_headers (Headers.set (headersObj (res w)) k v) w).
Proof. reflexivity. Qed.

Lemma setVaryHeader_spec (newValue : string) (w : World) :
  Cors.setVaryHeader newValue w =
    (Normal tt, with_headers (vary_headers newValue (headersObj (res w))) w).
Proof.
  unfold Cors.setVaryHeader, vary_headers, vary_values, bind, get.
  destruct (String.eqb (default "" _) "*").
  - rewrite with_headers_same. reflexivity.
  - destruct (String.eqb newValue "*"); [reflexivity|].
    destruct (JsString.includes _ _); reflexivity.
Qed.

Lemma initCors_spec (opts : CorsOptions) (og : string) (w : World) :
  Cors.initCors opts og w =
    (Normal tt, with_headers (initCors_headers opts og (headersObj (res w))) w).
Proof.
  unfold Cors.initCors, initCors_headers.
  set (o := default Cors.DEFAULT_origin (origin opts)).
  assert (H1 : forall c h1,
    c w = (Normal tt, with_headers h1 w) ->
    (c;; when (bool_decide (credentials opts = Some true))
           (set "Access-Control-Allow-Credentials" "true");;
         match exposedHeaders opts with
         | Some e => when (Cors.has_length (Some e))
                       (set "Access-Control-Expose-Headers" (Cors.joined e))
         | None => ret tt
         end) w =
    (Normal tt,
     with_headers
       (match exposedHeaders opts with
        | Some e =>
            if Cors.has_length (Some e)
            then Headers.set
                   (if bool_decide (credentials opts = Some true)
                    then Headers.set h1 "Access-Control-Allow-Credentials" "true"
                    else h1) "Access-Control-Expose-Headers" (Cors.joined e)
            else if bool_decide (credentials opts = Some true)
                 then Headers.set h1 "Access-Control-Allow-Credentials" "true"
                 else h1
        | None => if bool_decide (credentials opts = Some true)
                  then Headers.set h1 "Access-Control-Allow-Credentials" "true"
                  else h1
        end) w)).
  { intros c h1 Hc. unfold bind at 1. rewrite Hc. unfold bind at 1.
    destruct (bool_decide (credentials opts = Some true));
      destruct (exposedHeaders opts) as [e|]; cbn [when];
      try destruct (Cors.has_length (Some e)); reflexivity. }
  assert (Hv : forall s v,
    (set "Access-Control-Allow-Origin" s;; Cors.setVaryHeader v) w =
    (Normal tt,
     with_headers
       (vary_headers v
          (Headers.set (headersObj (res w)) "Access-Control-Allow-Origin" s)) w)).
  { intros s v. unfold bind. rewrite set_spec, setVaryHeader_spec. reflexivity. }
  destruct o as [[]|[s|t]|rs]; try (apply H1; apply Hv); try (apply H1; apply set_spec).
  destruct s as [|[[] [] [] [] [] [] [] []] [|c s']];
    try (apply H1; apply Hv); apply H1; apply set_spec.
Qed.

(** Steps of a computation that only sets headers. *)
Lemma step_set {A} (k v : string) (K : M World A) (h : Headers.t) (w : World) :
  (set k v ;; K) (with_headers h w) = K (with_headers (Headers.set h k v) w).
Proof. reflexivity. Qed.

Lemma step_vary {A} (nv : string) (K : M World A) (h : Headers.t) (w : World) :
  (Cors.setVaryHeader nv ;; K) (with_headers h w) =
  K (with_headers (vary_headers nv h) w).
Proof. unfold bind. rewrite setVaryHeader_spec. reflexivity. Qed.

Lemma step_when_set {A} (b : bool) (k v : string) (K : M World A)
  (h : Headers.t) (w : World) :
  (when b (set k v) ;; K) (with_headers h w) =
  K (with_headers (if b then Headers.set h k v else h) w).
Proof. destruct b; reflexivity. Qed.

Lemma step_ret {A} (K : M World A) (w : World) : (ret tt ;; K) w = K w.
Proof. reflexivity. Qed.

Lemma step_initCors {A} (opts : CorsOptions) (og : string) (K : M World A)
  (h : Headers.t) (w : World) :
  (Cors.initCors opts og ;; K) (with_headers h w) =
  K (with_headers (initCors_headers opts og h) w).
Proof. unfold bind. rewrite initCors_spec. reflexivity. Qed.

Lemma finish_headers (s : Z) (k v : string) (h : Headers.t) (w : World) :
  is_open (res w) ->
  (status s ;; set k v ;; end_ VUndefined) (with_headers h w) =
  (Normal tt, finalized s None None (with_headers (Headers.set h k v) w)).
Proof.
  intros Ho. unfold bind at 1. unfold status at 1, with_res, modify.
  unfold bind at 1. unfold set at 1, with_res, modify.
  rewrite end_open by exact Ho. reflexivity.
Qed.

Lemma handleOptions_spec (opts : CorsOptions) (neededHeaders : string)
  (h : Headers.t) (w : World) :
  is_open (res w) ->
  Cors.handleOptions opts neededHeaders (with_headers h w) =
    (Normal tt,
     finalized 204 None None
       (with_headers (options_headers opts neededHeaders h) w)).
Proof.
  intros Ho. unfold Cors.handleOptions, options_headers.
  rewrite step_set.
  set (h1 := Headers.set h _ _).
  assert (Hrest : forall h3,
            (match Cors.maxAge_string (maxAge opts) with
             | Some m => when (negb (String.eqb m ""))
                           (set "Access-Control-Max-Age" m)
             | None => ret tt
             end ;;
             status 204 ;; set "Content-Length" "0" ;; end_ VUndefined)
              (with_headers h3 w) =
            (Normal tt,
             finalized 204 None None
               (with_headers
                  (Headers.set
                     match Cors.maxAge_string (maxAge opts) with
                     | Some m =>
                         if negb (String.eqb m "")
                         then Headers.set h3 "Access-Control-Max-Age" m
                         else h3
                     | None => h3
                     end "Content-Length" "0") w))).
  { intros h3. destruct (Cors.maxAge_string (maxAge opts)) as [m|].
    - rewrite step_when_set. apply finish_headers, Ho.
    - rewrite step_ret. apply finish_headers, Ho. }
  destruct (Cors.falsy (allowedHeaders opts)) eqn:Hfa.
  - unfold bind at 1. rewrite step_vary. unfold ret at 1.
    rewrite step_when_set. apply Hrest.
  - unfold bind at 1. unfold ret at 1.
    destruct (allowedHeaders opts) as [a|].
    + rewrite step_when_set. apply Hrest.
    + rewrite step_ret. apply Hrest.
Qed.

Lemma cors_spec (conf : option CorsOptions) (rq : API.Request) (w : World) :
  is_open (res w) ->
  Cors.cors conf (API.rq_method rq) (API.rq_headers rq) w =
    (Normal tt,
     match conf, Headers.get (API.rq_headers rq) "origin" with
     | Some o, Some og =>
         if String.eqb og "" then w
         else
           let h := initCors_headers o og (headersObj (res w)) in
           if String.eqb (API.rq_method rq) "OPTIONS"
           then finalized 204 None None
                  (with_headers
                     (options_headers o
                        (default ""
                           (Headers.get (API.rq_headers rq)
                              "access-control-request-headers")) h) w)
           else with_headers h w
     | _, _ => w
     end).
Proof.
  intros Ho. unfold Cors.cors.
  destruct conf as [o|]; [|reflexivity].
  destruct (Headers.get (API.rq_headers rq) "origin") as [og|]; [|reflexivity].
  destruct (String.eqb og ""); [reflexivity|].
  rewrite <- (with_headers_same w) at 1. rewrite step_initCors.
  destruct (String.eqb (API.rq_method rq) "OPTIONS"); cbn [when].
  - apply handleOptions_spec, Ho.
  - reflexivity.
Qed.

(** ** C9: the Vary header *)

(** What [setVaryHeader] does, case by case: nothing to a value [*]; the
    value [*] for the new value [*]; else the fields it read, lower-cased
    and trimmed, with the new one at the end unless it is among them. *)
Lemma setVaryHeader_cases (newValue : string) (w : World) :
  let h := headersObj (res w) in
  let cur := default "" (Headers.get h "Vary") in
  let w' := snd (Cors.setVaryHeader newValue w) in
  fst (Cors.setVaryHeader newValue w) = Normal tt /\
  (cur = "*" -> w' = w) /\
  (cur <> "*" -> newValue = "*" ->
   Headers.get (headersObj (res w')) "Vary" = Some "*") /\
  (cur <> "*" -> newValue <> "*" ->
   Headers.get (headersObj (res w')) "Vary" =
     Some (JsString.join ", "
             (if JsString.includes (vary_values cur) (JsString.toLowerCase newValue)
              then vary_values cur
              else vary_values cur ++ [JsString.toLowerCase newValue]))).
Proof.
  intros h cur w'. subst w'. rewrite setVaryHeader_spec. cbn [fst snd].
  fold h. unfold vary_headers. fold cur.
  split; [reflexivity|]. split; [|split].
  - intros ->. cbn. apply with_headers_same.
  - intros Hc ->. apply String.eqb_neq in Hc. rewrite Hc. cbn.
    apply get_set_same.
  - intros Hc Hn. apply String.eqb_neq in Hc, Hn. rewrite Hc, Hn. cbn.
    apply get_set_same.
Qed.

(** C9. A response that has no Vary header, and the field name [Origin]
    appended: the header becomes [", origin"], which reads as two fields,
    an empty one and [origin]; so it does when the CORS layer appends the
    name for a configured origin. *)
Theorem C9_vary_on_fresh_response :
  let w' := snd (Cors.setVaryHeader "Origin" sample_world) in
  Headers.get (headersObj (res sample_world)) "Vary" = None /\
  Headers.get (headersObj (res w')) "Vary" = Some ", origin" /\
  vary_values ", origin" = [""; "origin"] /\
  Headers.get
    (headersObj (res (snd (Cors.cors
       (Some (mkCors (Some (ORule (RString "http://a.example"))) None None
                     None None None))
       "GET" [("origin", "http://a.example")] sample_world)))) "Vary"
  = Some ", origin".
Proof. cbv zeta. repeat split; vm_compute; reflexivity. Qed.

(** ** The dispatcher *)

(** The [reqInfo] object of a request and the world [trigger] starts in. *)
Definition request_info (rq : API.Request) : ReqInfo :=
  {| req_method := API.rq_method rq; req_path := API.rq_path rq;
     req_host := Headers.get (API.rq_headers rq) "host";
     req_agent := Headers.get (API.rq_headers rq) "user-agent";
     req_type := "request";
     req_msg := "Received " +:+ API.rq_method rq +:+ " request to " +:+
                API.rq_path rq |}.

Definition fresh_world (lg : Logger) (rq : API.Request) : World :=
  mkWorld (new_CafResponse (request_info rq)) lg.

(** The entry [trigger] logs for a request it dispatches. *)
Definition request_entry (rq : API.Request) : LogEntry :=
  {| entry_call := LDebug; entry_req := Some (request_info rq);
     entry_type := Some "request"; entry_level := None;
     entry_msg := Some (req_msg (request_info rq)); entry_status := None;
     entry_err := None |}.

(** The headers of the answer to a preflight request. *)
Definition preflight_headers (o : CorsOptions) (og : string)
  (rq : API.Request) : Headers.t :=
  options_headers o
    (default "" (Headers.get (API.rq_headers rq) "access-control-request-headers"))
    (initCors_headers o og Headers.empty).

Lemma fresh_world_open (lg : Logger) (rq : API.Request) :
  is_open (res (fresh_world lg rq)).
Proof. split; reflexivity. Qed.

Section DispatchProperties.

Context `{P : Platform}.

Lemma trigger_preflight (api : API.t) (o : CorsOptions) (og : string)
  (lg : Logger) (rq : API.Request) :
  Headers.get (API.rq_headers rq) "origin" = Some og ->
  og <> "" ->
  API.rq_method rq = "OPTIONS" ->
  API.trigger api (Some o) lg rq =
    (Normal tt,
     finalized 204 None None
       (with_headers (preflight_headers o og rq) (fresh_world lg rq))).
Proof.
  intros Hog Hne Hm. unfold API.trigger.
  change (mkWorld (new_CafResponse _) lg) with (fresh_world lg rq).
  unfold bind at 1.
  rewrite (cors_spec (Some o) rq (fresh_world lg rq) (fresh_world_open lg rq)).
  rewrite Hog. apply String.eqb_neq in Hne. rewrite Hne.
  rewrite Hm. cbn [String.eqb]. reflexivity.
Qed.

(** A request that is no preflight gets, from the CORS layer, headers at
    most: the response is still open, with status 200. *)
Lemma cors_not_preflight (conf : option CorsOptions) (lg : Logger)
  (rq : API.Request) :
  is_preflight conf rq = false ->
  exists h,
    Cors.cors conf (API.rq_method rq) (API.rq_headers rq) (fresh_world lg rq) =
      (Normal tt, with_headers h (fresh_world lg rq)).
Proof.
  intros Hp.
  rewrite (cors_spec conf rq (fresh_world lg rq) (fresh_world_open lg rq)).
  unfold is_preflight in Hp.
  destruct conf as [o|]; [|exists Headers.empty; reflexivity].
  destruct (Headers.get (API.rq_headers rq) "origin") as [og|];
    [|exists Headers.empty; reflexivity].
  destruct (String.eqb og ""); [exists Headers.empty; reflexivity|].
  destruct (String.eqb (API.rq_method rq) "OPTIONS").
  - cbn in Hp. discriminate.
  - eexists. reflexivity.
Qed.

(** No route and no fallback: the answer is a 404 without a body. *)
Lemma trigger_no_match (api : API.t) (conf : option CorsOptions)
  (lg : Logger) (rq : API.Request) :
  is_preflight conf rq = false ->
  fst (API.matchRoute api (API.rq_method rq) (API.rq_path rq) ∅) = None ->
  exists h,
    API.trigger api conf lg rq =
      (Normal tt,
       finalized 404 None None
         (mkWorld (set_headersObj h (new_CafResponse (request_info rq)))
                  (lg ++ [request_entry rq]))).
Proof.
  intros Hp Hm. unfold API.trigger.
  change (mkWorld (new_CafResponse _) lg) with (fresh_world lg rq).
  destruct (cors_not_preflight conf lg rq Hp) as [h Hc].
  exists h. unfold bind at 1. rewrite Hc.
  unfold bind at 1. unfold get_state at 1. cbn [res with_headers finished set_headersObj fresh_world new_CafResponse].
  unfold bind at 1. unfold log_call at 1. unfold modify.
  destruct (API.matchRoute api (API.rq_method rq) (API.rq_path rq) ∅)
    as [handler params'] eqn:Hmr.
  cbn [fst] in Hm. subst handler.
  unfold try_catch. unfold bind at 1. unfold notFound.
  cbn [negb bool_decide]. 
  rewrite bool_decide_eq_false_2 by (intros [x Hx]; discriminate).
  cbn [negb].
  rewrite assert_true_open by (split; reflexivity).
  cbn [default]. rewrite sprintf_verbatim by reflexivity.
  unfold bind at 1.
  rewrite (handleError_below_500 _ (HTTPError.new 404 "" "text/plain"))
    by (first [reflexivity | cbn; lia]).
  reflexivity.
Qed.

End DispatchProperties.

(** ** C8: the CORS preflight *)

Ltac names_differ :=
  let H := fresh in intros H; vm_compute in H; discriminate H.

Lemma get_vary_other (nv : string) (h : Headers.t) (k : string) :
  JsString.toLowerCase "Vary" <> JsString.toLowerCase k ->
  Headers.get (vary_headers nv h) k = Headers.get h k.
Proof.
  intros Hne. unfold vary_headers.
  destruct (String.eqb _ "*"); [reflexivity|].
  destruct (String.eqb nv "*"); apply get_set_other, Hne.
Qed.

Ltac read_headers :=
  repeat first
    [ rewrite get_set_same
    | rewrite get_set_other by names_differ
    | rewrite get_vary_other by names_differ ].









(** The preflight of the CORS test: options [{}], and a request that asks
    for one header. *)
Definition sample_preflight : API.Request :=
  API.mkRequest "OPTIONS"
    [("origin", "http://outsider.com");
     ("access-control-request-headers", "X-Token")]
    ∅ "/foobar" None None.


(** ** C2: matching a route *)

(** [match[i + 1]], as [bind_params] stores it. *)
Definition capture (groups : list (option string)) (i : nat) : JSValue :=
  match groups !! i with
  | Some (Some g) => VStr g
  | _ => VUndefined
  end.

Definition rejects (path : string) (r : DynamicRoute.t) : Prop :=
  DynamicRoute.regexp r path = None.

(** A path that [addEndpoint] takes for a static one. *)
Definition is_static (path : string) : bool :=
  (JsString.indexOf path "/:" <? 0) && (JsString.indexOf path "*" <? 0).

Lemma bind_params_other (names : list string) (groups : list (option string))
  (params : Dictionary) (p : string) :
  p ∉ names -> API.bind_params names groups params !! p = params !! p.
Proof.
  revert groups params.
  induction names as [|n names IH]; intros groups params Hp; [reflexivity|].
  apply not_elem_of_cons in Hp as [Hne Hp]. cbn [API.bind_params].
  rewrite IH by exact Hp. apply lookup_insert_ne. congruence.
Qed.

Lemma bind_params_lookup (names : list string) (groups : list (option string))
  (params : Dictionary) (i : nat) (p : string) :
  NoDup names -> names !! i = Some p ->
  API.bind_params names groups params !! p = Some (capture groups i).
Proof.
  revert groups params i.
  induction names as [|n names IH]; intros groups params i Hnd Hi;
    [discriminate|].
  apply NoDup_cons in Hnd as [Hn Hnd]. cbn [API.bind_params].
  destruct i as [|i].
  - injection Hi as ->. rewrite bind_params_other by exact Hn.
    rewrite lookup_insert_eq. unfold capture.
    destruct groups as [|[g|] gs]; reflexivity.
  - cbn in Hi. rewrite (IH _ _ i Hnd Hi). unfold capture.
    destruct groups as [|g gs]; reflexivity.
Qed.

Lemma scan_first (pre post : list DynamicRoute.t) (r : DynamicRoute.t)
  (path : string) (params : Dictionary) (groups : list (option string)) :
  Forall (rejects path) pre ->
  DynamicRoute.regexp r path = Some groups ->
  API.scan (pre ++ r :: post) path params =
    Some (DynamicRoute.handler r,
          API.bind_params (DynamicRoute.params r) groups params).
Proof.
  intros Hpre Hr. induction Hpre as [|r' pre Hr' _ IH]; cbn [API.scan app].
  - rewrite Hr. reflexivity.
  - unfold rejects in Hr'. rewrite Hr'. exact IH.
Qed.

Lemma scan_none (rs : list DynamicRoute.t) (path : string)
  (params : Dictionary) :
  Forall (rejects path) rs -> API.scan rs path params = None.
Proof.
  induction 1 as [|r rs Hr _ IH]; [reflexivity|].
  cbn [API.scan]. unfold rejects in Hr. rewrite Hr. exact IH.
Qed.

Section MatchProperties.

Context `{P : Platform}.

(** A dynamic registration that compiles puts its route at the end of the
    list of its method. *)
Lemma addEndpoint_dynamic (api : API.t) (method path : string)
  (h : RouteHandler) (re : RegExp) :
  let m := JsString.toUpperCase method in
  let route := m +:+ " " +:+ path in
  API.routes api !! route = None ->
  is_static path = false ->
  RegExp_new (fst (API.path_source path)) = Some re ->
  API.addEndpoint method path h api =
    (Normal tt,
     API.mk (<[route := true]> (API.routes api)) (API.static api)
       (<[m := default [] (API.dynamic api !! m) ++
                [DynamicRoute.mk h (snd (API.path_source path)) re]]>
          (API.dynamic api))
       (API.fallbackRoute api)).
Proof.
  intros m route Hr Hs Hc. unfold API.addEndpoint, bind, get_state, std_assert.
  fold m. fold route. rewrite Hr.
  rewrite bool_decide_eq_false_2 by (intros [x Hx]; discriminate).
  cbn [negb]. unfold ret, modify. unfold is_static in Hs. rewrite Hs.
  unfold API.pathToRegexp.
  destruct (API.path_source path) as [source params]. cbn [fst snd] in *.
  rewrite Hc. cbn. rewrite lookup_insert_eq, insert_insert_eq. reflexivity.
Qed.

(** A static registration goes into the exact-match table. *)
Lemma addEndpoint_static (api : API.t) (method path : string)
  (h : RouteHandler) :
  let route := JsString.toUpperCase method +:+ " " +:+ path in
  API.routes api !! route = None ->
  is_static path = true ->
  API.addEndpoint method path h api =
    (Normal tt,
     API.mk (<[route := true]> (API.routes api))
       (<[route := h]> (API.static api)) (API.dynamic api)
       (API.fallbackRoute api)).
Proof.
  intros route Hr Hs. unfold API.addEndpoint, bind, get_state, std_assert.
  fold route. rewrite Hr.
  rewrite bool_decide_eq_false_2 by (intros [x Hx]; discriminate).
  cbn [negb]. unfold ret, modify. unfold is_static in Hs. rewrite Hs.
  reflexivity.
Qed.

End MatchProperties.

Lemma append_inj (a b c : string) : a +:+ b = a +:+ c -> b = c.
Proof.
  induction a as [|x a IH]; cbn; [auto|]. intros H. injection H. exact IH.
Qed.

(** C2. [matchRoute(method, path, params)] on any route table. (1) A hit in
    the static table under the key METHOD path is the answer, and [params]
    is not touched. (2) On a miss, the dynamic routes of the method are
    tried in the order of their list; the first whose expression accepts the
    path gives the handler, and each parameter name is bound to the group
    captured at its place, the other keys of [params] staying as they were.
    (3) When no dynamic route accepts, the answer is the fallback route if
    one is set, and no route otherwise. (4) When there is no route, the
    dispatcher answers 404 with nothing written. (5) The list is in
    registration order: a dynamic registration adds its route at the end of
    the list of its method, a static one fills the static table; so of two
    dynamic routes that accept a path the one registered first is the
    answer. *)
Theorem C2_match_route `{P : Platform} (api : API.t) (method path : string)
  (params : Dictionary) :
  let route := method +:+ " " +:+ path in
  let rs := default [] (API.dynamic api !! method) in
  (forall h,
     API.static api !! route = Some h ->
     API.matchRoute api method path params = (Some h, params)) /\
  (forall pre r post groups,
     API.static api !! route = None ->
     rs = pre ++ r :: post ->
     Forall (rejects path) pre ->
     DynamicRoute.regexp r path = Some groups ->
     let params' := API.bind_params (DynamicRoute.params r) groups params in
     API.matchRoute api method path params =
       (Some (DynamicRoute.handler r), params') /\
     (forall i p,
        NoDup (DynamicRoute.params r) -> DynamicRoute.params r !! i = Some p ->
        params' !! p = Some (capture groups i)) /\
     (forall p, p ∉ DynamicRoute.params r -> params' !! p = params !! p)) /\
  (API.static api !! route = None ->
   Forall (rejects path) rs ->
   API.matchRoute api method path params = (API.fallbackRoute api, params)) /\
  (forall conf lg rq,
     is_preflight conf rq = false ->
     fst (API.matchRoute api (API.rq_method rq) (API.rq_path rq) ∅) = None ->
     exists w,
       API.trigger api conf lg rq = (Normal tt, w) /\
       statusCode (res w) = 404 /\
       finished (res w) = true /\
       Ctrl.queue (streamCtrl (res w)) = []) /\
  (forall m p h re,
     let M := JsString.toUpperCase m in
     API.routes api !! (M +:+ " " +:+ p) = None ->
     is_static p = false ->
     RegExp_new (fst (API.path_source p)) = Some re ->
     exists api',
       API.addEndpoint m p h api = (Normal tt, api') /\
       API.dynamic api' !! M =
         Some (default [] (API.dynamic api !! M) ++
               [DynamicRoute.mk h (snd (API.path_source p)) re]) /\
       API.static api' = API.static api) /\
  (forall m p h,
     let M := JsString.toUpperCase m in
     API.routes api !! (M +:+ " " +:+ p) = None ->
     is_static p = true ->
     exists api',
       API.addEndpoint m p h api = (Normal tt, api') /\
       API.static api' !! (M +:+ " " +:+ p) = Some h /\
       API.dynamic api' = API.dynamic api) /\
  (forall m p1 p2 h1 h2 re1 re2 g1 g2,
     let M := JsString.toUpperCase m in
     method = M ->
     API.routes api !! (M +:+ " " +:+ p1) = None ->
     API.routes api !! (M +:+ " " +:+ p2) = None ->
     p1 <> p2 ->
     is_static p1 = false -> is_static p2 = false ->
     RegExp_new (fst (API.path_source p1)) = Some re1 ->
     RegExp_new (fst (API.path_source p2)) = Some re2 ->
     API.static api !! route = None ->
     Forall (rejects path) rs ->
     re1 path = Some g1 -> re2 path = Some g2 ->
     let api1 := snd (API.addEndpoint m p1 h1 api) in
     let api2 := snd (API.addEndpoint m p2 h2 api1) in
     API.matchRoute api2 method path params =
       (Some h1, API.bind_params (snd (API.path_source p1)) g1 params)).
Proof.
  intros route rs. split; [|split; [|split; [|split; [|split; [|split]]]]].
  - intros h Hh. unfold API.matchRoute. fold route. rewrite Hh. reflexivity.
  - intros pre r post groups Hs Hrs Hpre Hr params'. split; [|split].
    + unfold API.matchRoute. fold route. rewrite Hs. fold rs. rewrite Hrs.
      rewrite (scan_first pre post r path params groups Hpre Hr). reflexivity.
    + intros i p. apply bind_params_lookup.
    + intros p. apply bind_params_other.
  - intros Hs Hrs. unfold API.matchRoute. fold route. rewrite Hs. fold rs.
    rewrite scan_none by exact Hrs. reflexivity.
  - intros conf lg rq Hp Hm.
    destruct (trigger_no_match api conf lg rq Hp Hm) as [h Ht].
    eexists. split; [exact Ht|]. repeat split.
  - intros m p h re M Hr Hs Hc. eexists.
    split; [exact (addEndpoint_dynamic api m p h re Hr Hs Hc)|].
    cbn [API.dynamic API.static]. split; [|reflexivity].
    apply lookup_insert_eq.
  - intros m p h M Hr Hs. eexists.
    split; [exact (addEndpoint_static api m p h Hr Hs)|].
    cbn [API.dynamic API.static]. split; [|reflexivity].
    apply lookup_insert_eq.
  - intros m p1 p2 h1 h2 re1 re2 g1 g2 M HM Hr1 Hr2 Hne Hs1 Hs2 Hc1 Hc2 Hst
      Hrs Hg1 Hg2 api1 api2.
    subst api2 api1.
    rewrite (addEndpoint_dynamic api m p1 h1 re1 Hr1 Hs1 Hc1). cbn [snd].
    rewrite addEndpoint_dynamic with (re := re2); [|
      cbn [API.routes]; rewrite lookup_insert_ne;
        [exact Hr2 | intros E; apply Hne; apply append_inj in E;
                     apply append_inj in E; exact E] | exact Hs2 | exact Hc2 ].
    cbn [snd API.dynamic]. unfold API.matchRoute. cbn [API.static API.dynamic API.fallbackRoute].
    fold route. rewrite Hst. subst method. fold M.
    rewrite lookup_insert_eq. cbn [default]. rewrite lookup_insert_eq.
    cbn [default]. fold M in rs. fold rs. unfold id. rewrite <- app_assoc.
    cbn [app].
    rewrite (scan_first rs _ (DynamicRoute.mk h1 (snd (API.path_source p1)) re1)
               path params g1 Hrs Hg1).
    reflexivity.
Qed.

Definition other_handler : RouteHandler := fun _ => end_ (VStr "second").

(** Two dynamic routes of GET that overlap, registered in this order:
    [/a/:x] with [sample_handler], then [/a/:y] with [other_handler]. *)
Definition sample_routes : API.t :=
  snd (API.addEndpoint (P := sample_platform) "get" "/a/:y" other_handler
         (snd (API.addEndpoint (P := sample_platform) "get" "/a/:x"
                 sample_handler API.new))).

Lemma C2_match_route_witness :
  (exists params',
     API.matchRoute sample_routes "GET" "/a/1" ∅ = (Some sample_handler, params') /\
     params' !! "x" = Some (VStr "1") /\
     params' !! "y" = None) /\
  API.matchRoute sample_api "GET" "/foo" ∅ = (Some sample_handler, ∅) /\
  API.matchRoute sample_api "GET" "/a/1" ∅ = (Some sample_handler, ∅).
Proof.
  split; [|split].
  - pose proof (C2_match_route (P := sample_platform) sample_routes "GET"
                  "/a/1" ∅) as H.
    cbv zeta in H. destruct H as (_ & H2 & _).
    edestruct (H2 []) as (Hm & Hb & Ho).
    + vm_compute. reflexivity.
    + vm_compute. reflexivity.
    + constructor.
    + vm_compute. reflexivity.
    + eexists. split; [exact Hm|]. split.
      * apply (Hb 0%nat "x"); [|reflexivity].
        apply NoDup_cons. split; [apply not_elem_of_nil | apply NoDup_nil_2].
      * rewrite Ho; [reflexivity|].
        intros Hin. apply list_elem_of_singleton in Hin. discriminate.
  - pose proof (C2_match_route (P := sample_platform) sample_api "GET"
                  "/foo" ∅) as H.
    cbv zeta in H. destruct H as (H1 & _).
    apply H1. vm_compute. reflexivity.
  - pose proof (C2_match_route (P := sample_platform) sample_api "GET"
                  "/a/1" ∅) as H.
    cbv zeta in H. destruct H as (_ & _ & H3 & _).
    rewrite H3.
    + reflexivity.
    + vm_compute. reflexivity.
    + vm_compute. constructor.
Defined.

(** ** C3: the helpers register under POST *)

(** C3. Each registration helper of [App] (post, put, patch, get, del) and
    of [Router] (post, put, del, patch, options, get) registers its route
    under the method POST, as [post] does: after the helper, for a pair that
    was free, the table holds the pair (POST, path); for a static path a
    POST request for the path gets the handler, for a dynamic path the route
    stands at the end of the dynamic routes of POST; and so it is for a
    router, when the application registers its routes. Hence, on a table or
    a router that the helpers built, a request of method GET, PUT, PATCH,
    DELETE or OPTIONS matches no registered route: [matchRoute] gives the
    fallback route or no route. And two helpers, whichever verbs they are
    named after, used on one path, end in the duplicate-route error: at once
    on an [App], and for a [Router] when the application registers its
    routes. *)
Theorem C3_helpers_register_post `{P : Platform}
  (f g : string -> RouteHandler -> M API.t unit)
  (rf rg : string -> RouteHandler -> Router.t -> Router.t)
  (path : string) (h h' : RouteHandler) :
  In f App_helpers -> In g App_helpers ->
  In rf Router_helpers -> In rg Router_helpers ->
  (f = App.post /\ f path h = API.addEndpoint "POST" path h) /\
  (rf = Router.post /\
   forall rt, Router.routes (rf path h rt) =
              Router.routes rt ++ [Route.mk "POST" path h None]) /\
  (forall api params,
     API.routes api !! ("POST" +:+ " " +:+ path) = None ->
     is_static path = true ->
     let api1 := snd (f path h api) in
     fst (f path h api) = Normal tt /\
     API.routes api1 !! ("POST" +:+ " " +:+ path) = Some true /\
     API.matchRoute api1 "POST" path params = (Some h, params) /\
     (forall m, In m other_verbs ->
        API.static api1 !! (m +:+ " " +:+ path) =
        API.static api !! (m +:+ " " +:+ path))) /\
  (forall api re,
     API.routes api !! ("POST" +:+ " " +:+ path) = None ->
     is_static path = false ->
     RegExp_new (fst (API.path_source path)) = Some re ->
     let api1 := snd (f path h api) in
     fst (f path h api) = Normal tt /\
     API.routes api1 !! ("POST" +:+ " " +:+ path) = Some true /\
     API.dynamic api1 !! "POST" =
       Some (default [] (API.dynamic api !! "POST") ++
             [DynamicRoute.mk h (snd (API.path_source path)) re]) /\
     (forall m, In m other_verbs ->
        API.dynamic api1 !! m = API.dynamic api !! m)) /\
  (forall params,
     is_static path = true ->
     let registration :=
       App.register (Router.routes (rf path h Router.new)) API.new in
     fst registration = Normal tt /\
     API.matchRoute (snd registration) "POST" path params = (Some h, params)) /\
  (forall api m p params,
     helper_built api -> In m other_verbs ->
     API.matchRoute api m p params = (API.fallbackRoute api, params)) /\
  (forall rt m p params,
     router_built rt -> In m other_verbs ->
     let api := snd (App.register (Router.routes rt) API.new) in
     API.matchRoute api m p params = (API.fallbackRoute api, params)) /\
  (forall api,
     let api1 := snd (f path h api) in
     g path h' api1 = (Throw (duplicate_route "POST" path), api1)) /\
  (forall api,
     let rs := Router.routes (rg path h' (rf path h Router.new)) in
     let first := API.addEndpoint "post" path h api in
     fst first = Normal tt ->
     App.register rs api = (Throw (duplicate_route "POST" path), snd first)).
Proof.
  intros Hf Hg Hrf Hrg.
  rewrite (App_helper_is_post f Hf), (App_helper_is_post g Hg),
    (Router_helper_is_post rf Hrf), (Router_helper_is_post rg Hrg).
  split; [split; reflexivity|].
  split; [split; [reflexivity | intros rt; reflexivity]|].
  assert (Hverb : forall m, In m other_verbs -> "POST" <> m).
  { intros m Hm. unfold other_verbs in Hm. cbn [In] in Hm.
    destruct Hm as [<-|[<-|[<-|[<-|[<-|[]]]]]]; discriminate. }
  assert (Hkey : forall m, In m other_verbs ->
                 "POST" +:+ " " +:+ path <> m +:+ " " +:+ path).
  { intros m Hm E. unfold other_verbs in Hm. cbn [In] in Hm.
    destruct Hm as [<-|[<-|[<-|[<-|[<-|[]]]]]]; discriminate E. }
  split.
  { intros api params Hr Hs api1. subst api1. unfold App.post.
    rewrite (addEndpoint_static api "POST" path h Hr Hs). cbn [fst snd].
    change (JsString.toUpperCase "POST") with "POST".
    split; [reflexivity|]. split; [cbn [API.routes]; apply lookup_insert_eq|].
    split.
    - unfold API.matchRoute. cbn [API.static]. rewrite lookup_insert_eq.
      reflexivity.
    - intros m Hm. cbn [API.static]. apply lookup_insert_ne, Hkey, Hm. }
  split.
  { intros api re Hr Hs Hre api1. subst api1. unfold App.post.
    rewrite (addEndpoint_dynamic api "POST" path h re Hr Hs Hre). cbn [fst snd].
    change (JsString.toUpperCase "POST") with "POST".
    split; [reflexivity|]. split; [cbn [API.routes]; apply lookup_insert_eq|].
    split.
    - cbn [API.dynamic]. apply lookup_insert_eq.
    - intros m Hm. cbn [API.dynamic]. apply lookup_insert_ne, Hverb, Hm. }
  split.
  { intros params Hs registration. subst registration.
    change (Router.routes (Router.post path h Router.new))
      with [Route.mk "POST" path h None].
    assert (Hreg : App.register [Route.mk "POST" path h None] API.new =
                   (Normal tt,
                    API.mk (<["POST" +:+ " " +:+ path := true]> ∅)
                           (<["POST" +:+ " " +:+ path := h]> ∅) ∅ None)).
    { cbn [App.register Route.all Route.method Route.path Route.handler].
      rewrite bool_decide_eq_false_2 by discriminate.
      change (JsString.toLowerCase "POST") with "post".
      unfold bind at 1.
      rewrite (addEndpoint_static API.new "post" path h (lookup_empty _) Hs).
      reflexivity. }
    rewrite Hreg. split; [reflexivity|]. cbn [snd].
    unfold API.matchRoute. cbn [API.static]. rewrite lookup_insert_eq.
    reflexivity. }
  split.
  { intros api m p params Hb Hm.
    apply matchRoute_post_only; [apply helper_built_post_only, Hb | exact Hm]. }
  split.
  { intros rt m p params Hb Hm api.
    apply matchRoute_post_only; [|exact Hm].
    apply register_post_only;
      [apply router_built_routes, Hb | apply post_only_new]. }
  split.
  { intros api api1. unfold App.post in *.
    apply (addEndpoint_duplicate api1 "POST" path h').
    apply (addEndpoint_registers api "POST" path h). }
  intros api rs first Hfirst. subst rs.
  change (Router.routes (Router.post path h' (Router.post path h Router.new)))
    with [Route.mk "POST" path h None; Route.mk "POST" path h' None].
  cbn [App.register Route.all Route.method Route.path Route.handler].
  rewrite !(bool_decide_eq_false_2 (None = Some true)) by discriminate.
  change (JsString.toLowerCase "POST") with "post".
  unfold bind at 1. fold first.
  destruct first as [[[]|e] api1] eqn:Hfe; cbn [fst] in Hfirst; [|discriminate].
  cbn [snd].
  assert (Hd : API.addEndpoint "post" path h' api1 =
               (Throw (duplicate_route "post" path), api1)).
  { apply addEndpoint_duplicate.
    replace api1 with (snd (API.addEndpoint "post" path h api))
      by (unfold first in Hfe; rewrite Hfe; reflexivity).
    apply addEndpoint_registers. }
  unfold bind at 1.
  rewrite Hd. reflexivity.
Qed.

Lemma C3_helpers_register_post_witness :
  App.put (P := sample_platform) "/foo" sample_handler
    (snd (App.get (P := sample_platform) "/foo" sample_handler API.new)) =
    (Throw (duplicate_route "POST" "/foo"),
     snd (App.get (P := sample_platform) "/foo" sample_handler API.new)) /\
  fst (API.matchRoute
         (snd (App.get (P := sample_platform) "/foo" sample_handler API.new))
         "GET" "/foo" ∅) = None /\
  API.matchRoute
    (snd (App.get (P := sample_platform) "/foo" sample_handler API.new))
    "POST" "/foo" ∅ = (Some sample_handler, ∅).
Proof.
  pose proof (C3_helpers_register_post (P := sample_platform)
                (App.get (P := sample_platform))
                (App.put (P := sample_platform))
                Router.get Router.put "/foo"
                sample_handler sample_handler) as H.
  destruct H as (_ & _ & Hs & _ & _ & Hm & _ & Hd & _).
  - right. right. right. left. reflexivity.
  - right. left. reflexivity.
  - right. right. right. right. right. left. reflexivity.
  - right. left. reflexivity.
  - split; [apply Hd|]. split.
    + rewrite (Hm _ "GET" "/foo" ∅).
      * reflexivity.
      * apply (built_helper (P := sample_platform)
                 (App.get (P := sample_platform)) "/foo" sample_handler API.new);
          [right; right; right; left; reflexivity | apply built_new].
      * left. reflexivity.
    + destruct (Hs API.new ∅ eq_refl eq_refl) as (_ & _ & Hp & _). exact Hp.
Defined.

(** * Further properties of the response engine *)

(** The state a response keeps between calls: the stream is closed exactly
    when the response is finished, and a finished response has its head
    sent. *)
Definition consistent (r : CafResponse) : Prop :=
  Ctrl.closeRequested (streamCtrl r) = finished r /\
  (finished r = true -> headersSent r = true).

(** The calls a handler makes on its response. *)
Inductive Call :=
| CStatus (s : Z)
| CSet (k v : string)
| CAppend (k v : string)
| CType (ct : string)
| CWrite (chunk : JSValue)
| CEnd (b : JSValue)
| CJson (data : JSValue)
| CText (data : JSValue)
| CError (st msg : JSValue) (args : list JSValue)
| CAssert (st : Number) (cond : bool) (msg : option string) (args : list JSValue).

Definition run_call `{P : Platform} (c : Call) : M World unit :=
  match c with
  | CStatus s => status s
  | CSet k v => set k v
  | CAppend k v => append k v
  | CType ct => type ct
  | CWrite chunk => write chunk
  | CEnd b => end_ b
  | CJson data => json data
  | CText data => text data
  | CError st msg args => error st msg args ;; ret tt
  | CAssert st cond msg args => assert st cond msg args
  end.

(** The calls one after the other, each on the world the one before left,
    whether that one returned or raised (a handler may catch). *)
Fixpoint run_calls `{P : Platform} (cs : list Call) (w : World) : World :=
  match cs with
  | [] => w
  | c :: cs' => run_calls cs' (snd (run_call c w))
  end.

Lemma consistent_fresh (ri : ReqInfo) : consistent (new_CafResponse ri).
Proof. split; [reflexivity | discriminate]. Qed.

Lemma consistent_cases (r : CafResponse) :
  consistent r ->
  is_open r \/
  (finished r = true /\ Ctrl.closeRequested (streamCtrl r) = true /\
   headersSent r = true).
Proof.
  intros [Hc Hh]. destruct (finished r) eqn:Hf.
  - right. auto.
  - left. split; [exact Hf | exact Hc].
Qed.

Lemma status_consistent (s : Z) (w : World) :
  consistent (res w) -> consistent (res (snd (status s w))).
Proof. intros H. exact H. Qed.

Lemma set_consistent (k v : string) (w : World) :
  consistent (res w) -> consistent (res (snd (set k v w))).
Proof. intros H. exact H. Qed.

Lemma append_consistent (k v : string) (w : World) :
  consistent (res w) -> consistent (res (snd (append k v w))).
Proof. intros H. exact H. Qed.

Lemma type_consistent (ct : string) (w : World) :
  consistent (res w) -> consistent (res (snd (type ct w))).
Proof. intros H. exact H. Qed.

(** [write] on an open response. *)
Lemma write_open (chunk : JSValue) (w : World) :
  is_open (res w) ->
  write chunk w =
    (Normal tt,
     mkWorld
       {| reqInfo := reqInfo (res w);
          statusCode := statusCode (res w);
          headersSent := true;
          streamCtrl :=
            Ctrl.mk (Ctrl.queue (streamCtrl (res w)) ++ [chunk_bytes chunk]) false;
          headersObj := headersObj (res w);
          finished := false;
          body := Some (default "" (body (res w)) +:+ chunk_bytes chunk) |}
       (log w)).
Proof.
  destruct w as [[ri sc hs [q cr] ho fi bo] lg]. intros [Hf Hc].
  cbn in Hf, Hc. subst fi cr. unfold_ops. cbn.
  destruct hs, bo; reflexivity.
Qed.

(** [write] on an ended response. *)
Lemma write_ended (chunk : JSValue) (w : World) :
  finished (res w) = true ->
  Ctrl.closeRequested (streamCtrl (res w)) = true ->
  headersSent (res w) = true ->
  write chunk w = (Throw Ctrl.cannot, w).
Proof.
  destruct w as [[ri sc hs [q cr] ho fi bo] lg]. cbn. intros -> -> ->.
  reflexivity.
Qed.

(** [end] on an ended response. *)
Lemma end_ended (b : JSValue) (w : World) :
  finished (res w) = true ->
  Ctrl.closeRequested (streamCtrl (res w)) = true ->
  headersSent (res w) = true ->
  end_ b w =
    (Throw Ctrl.cannot, mkWorld (res w) (log w ++ [warn_entry already_finished])).
Proof.
  destruct w as [[ri sc hs [q cr] ho fi bo] lg]. cbn. intros -> -> ->.
  unfold_ops. cbn. destruct (Js.truthy b); reflexivity.
Qed.

Lemma write_consistent (chunk : JSValue) (w : World) :
  consistent (res w) -> consistent (res (snd (write chunk w))).
Proof.
  intros Hc. destruct (consistent_cases _ Hc) as [Ho|(Hf & Hcl & Hh)].
  - rewrite write_open by exact Ho. split; [reflexivity | discriminate].
  - rewrite write_ended by assumption. exact Hc.
Qed.

Lemma end_consistent (b : JSValue) (w : World) :
  consistent (res w) -> consistent (res (snd (end_ b w))).
Proof.
  intros Hc. destruct (consistent_cases _ Hc) as [Ho|(Hf & Hcl & Hh)].
  - rewrite end_open by exact Ho. split; [reflexivity | reflexivity].
  - rewrite end_ended by assumption. exact Hc.
Qed.

(** A computation that ends with [end] after steps that keep the state. *)
Lemma then_end_consistent (c : M World unit) (b : JSValue) (w : World) :
  (forall w0, consistent (res w0) -> consistent (res (snd (c w0)))) ->
  consistent (res w) -> consistent (res (snd ((c ;; end_ b) w))).
Proof.
  intros Hstep Hc. unfold bind. specialize (Hstep w Hc).
  destruct (c w) as [[[]|e] w1]; cbn [snd] in *.
  - apply end_consistent, Hstep.
  - exact Hstep.
Qed.

(** A computation that keeps the response consistent, however it
    completes. *)
Definition keeps {A} (c : M World A) : Prop :=
  forall w, consistent (res w) -> consistent (res (snd (c w))).

Lemma keeps_bind {A B} (c : M World A) (k : A -> M World B) :
  keeps c -> (forall a, keeps (k a)) -> keeps (bind c k).
Proof.
  intros Hc Hk w Hw. unfold bind. specialize (Hc w Hw).
  destruct (c w) as [[a|e] w1]; cbn [snd] in *; [apply Hk, Hc | exact Hc].
Qed.

Lemma keeps_ret {A} (a : A) : keeps (ret a).
Proof. intros w Hw. exact Hw. Qed.

Lemma keeps_throw {A} (e : JSValue) : keeps (@throw World A e).
Proof. intros w Hw. exact Hw. Qed.

Lemma keeps_log (e : LogEntry) : keeps (log_call e).
Proof. intros w Hw. exact Hw. Qed.

Lemma keeps_end (b : JSValue) : keeps (end_ b).
Proof. intros w. apply end_consistent. Qed.

Lemma keeps_write (chunk : JSValue) : keeps (write chunk).
Proof. intros w. apply write_consistent. Qed.

Lemma keeps_type (ct : string) : keeps (type ct).
Proof. intros w Hw. exact Hw. Qed.

Lemma keeps_status (s : Z) : keeps (status s).
Proof. intros w Hw. exact Hw. Qed.

Lemma keeps_lift {A} (c : Completion A) : keeps (lift c).
Proof. intros w Hw. exact Hw. Qed.

Lemma keeps_handleError (v : JSValue) (ri : ReqInfo) : keeps (handleError v ri).
Proof.
  unfold handleError. apply keeps_bind; [apply keeps_lift|]. intros herr.
  apply keeps_bind; [|intros; apply keeps_ret].
  destruct (499 <? _); [|apply keeps_ret].
  apply keeps_bind; [apply keeps_log|]. intros _.
  intros w Hw. unfold bind at 1. unfold get_state at 1.
  destruct (negb (finished (res w))); [|exact Hw].
  revert w Hw. fold (keeps (status (HTTPError.status herr) ;;
                          type (HTTPError.type herr) ;;
                          end_ (VStr ""))).
  apply keeps_bind; [apply keeps_status|]. intros _.
  apply keeps_bind; [apply keeps_type|]. intros _. apply keeps_end.
Qed.

Section KeepsProperties.

Context `{P : Platform}.

Lemma keeps_error (st msg : JSValue) (args : list JSValue) :
  keeps (error st msg args).
Proof.
  assert (Hh : keeps (let* w := get_state in handleError st (reqInfo (res w)))).
  { intros w Hw. unfold bind, get_state. apply keeps_handleError, Hw. }
  unfold error. destruct st as [| |b|[s|r]|s|o|bs|bs|f|m o|e|z|d]; try exact Hh.
  apply keeps_bind; [apply keeps_status|]. intros _.
  apply keeps_bind.
  { destruct msg; try apply keeps_ret;
      destruct (getContentTypeFromDataType _) as [t|]; try apply keeps_ret;
      destruct (String.eqb t "application/json"); try apply keeps_lift;
      destruct (String.eqb t "text/plain"); apply keeps_ret. }
  intros msg'. apply keeps_bind.
  - destruct (getContentTypeFromDataType msg); [apply keeps_type | apply keeps_ret].
  - intros _. apply keeps_bind; [apply keeps_end|]. intros _. apply keeps_ret.
Qed.

Lemma keeps_assert (st : Number) (cond : bool) (msg : option string)
  (args : list JSValue) :
  keeps (assert st cond msg args).
Proof.
  unfold assert. destruct cond; cbn [negb]; [|apply keeps_ret].
  apply keeps_bind; [apply keeps_error|]. intros e. apply keeps_throw.
Qed.

Lemma keeps_run_call (c : Call) : keeps (run_call c).
Proof.
  destruct c; cbn [run_call].
  - apply keeps_status.
  - intros w Hw. exact Hw.
  - intros w Hw. exact Hw.
  - apply keeps_type.
  - apply keeps_write.
  - apply keeps_end.
  - unfold json. apply keeps_bind; [apply keeps_type|]. intros _.
    apply keeps_bind; [apply keeps_lift|]. intros b. apply keeps_end.
  - unfold text. apply keeps_bind; [apply keeps_type|]. intros _. apply keeps_end.
  - apply keeps_bind; [apply keeps_error|]. intros _. apply keeps_ret.
  - apply keeps_assert.
Qed.

End KeepsProperties.

(** X1. Whatever calls a handler makes on a new response (status, set,
    append, type, write, end, json, text, error, assert), returning or
    raising, the response stays consistent: after them it is either still
    open, or finished with its stream closed and its head sent. *)
Theorem response_stays_consistent `{P : Platform} (cs : list Call)
  (ri : ReqInfo) (lg : Logger) :
  let r := res (run_calls cs (mkWorld (new_CafResponse ri) lg)) in
  is_open r \/
  (finished r = true /\ Ctrl.closeRequested (streamCtrl r) = true /\
   headersSent r = true).
Proof.
  cbv zeta. apply consistent_cases.
  assert (H : forall w, consistent (res w) -> consistent (res (run_calls cs w))).
  { induction cs as [|c cs IH]; intros w Hw; [exact Hw|].
    cbn [run_calls]. apply IH. apply keeps_run_call, Hw. }
  apply H. apply consistent_fresh.
Qed.

Lemma sapp_assoc (a b c : string) : (a +:+ b) +:+ c = a +:+ b +:+ c.
Proof.
  induction a as [|x a IH]; [reflexivity|].
  change (String x ((a +:+ b) +:+ c) = String x (a +:+ b +:+ c)).
  rewrite IH. reflexivity.
Qed.

Lemma sapp_nil_r (a : string) : a +:+ "" = a.
Proof.
  induction a as [|x a IH]; [reflexivity|].
  change (String x (a +:+ "") = String x a). rewrite IH. reflexivity.
Qed.

(** What a list of chunks adds up to. *)
Definition bytes_of (chunks : list JSValue) : string :=
  fold_right (fun c acc => chunk_bytes c +:+ acc) "" chunks.

(** X2. Writes on an open response: each chunk is enqueued, in order, the
    response stays open with its status and headers as they were, and after
    at least one write the head is sent and the private buffer holds the
    bytes of all chunks after what it held. *)
Theorem writes_append_in_order `{P : Platform} (chunks : list JSValue)
  (w : World) :
  is_open (res w) ->
  let w' := run_calls (map CWrite chunks) w in
  is_open (res w') /\
  Ctrl.queue (streamCtrl (res w')) =
    Ctrl.queue (streamCtrl (res w)) ++ map chunk_bytes chunks /\
  statusCode (res w') = statusCode (res w) /\
  headersObj (res w') = headersObj (res w) /\
  log w' = log w /\
  (chunks <> [] ->
   headersSent (res w') = true /\
   body (res w') = Some (default "" (body (res w)) +:+ bytes_of chunks)).
Proof.
  revert w. induction chunks as [|c cs IH]; intros w Ho; cbv zeta.
  - cbn [map run_calls]. rewrite app_nil_r. split; [exact Ho|].
    do 4 (split; [reflexivity|]). intros H. congruence.
  - cbn [map run_calls run_call]. rewrite write_open by exact Ho. cbn [snd].
    set (w1 := mkWorld _ (log w)).
    assert (Ho1 : is_open (res w1)) by (split; reflexivity).
    destruct (IH w1 Ho1) as (H1 & H2 & H3 & H4 & H5 & H6).
    split; [exact H1|]. split.
    { rewrite H2. cbn. rewrite <- app_assoc. reflexivity. }
    split; [exact H3|]. split; [exact H4|]. split; [exact H5|].
    intros _. destruct cs as [|c' cs'].
    + cbn. rewrite sapp_nil_r. split; reflexivity.
    + destruct (H6 ltac:(discriminate)) as [Hh Hb]. split; [exact Hh|].
      rewrite Hb. subst w1. cbn [res body default].
      change (bytes_of (c :: c' :: cs'))
        with (chunk_bytes c +:+ bytes_of (c' :: cs')).
      unfold id. rewrite sapp_assoc. reflexivity.
Qed.

Lemma writes_append_in_order_witness :
  Ctrl.queue (streamCtrl (res
    (run_calls (P := sample_platform) [CWrite (VStr "a"); CWrite (VNum (NInt 7))]
       sample_world))) = ["a"; "7"].
Proof.
  destruct (writes_append_in_order (P := sample_platform)
              [VStr "a"; VNum (NInt 7)] sample_world
              ltac:(split; reflexivity)) as (_ & Hq & _).
  exact Hq.
Defined.

(** X3. Once a response was ended, [write] raises the TypeError of the
    closed stream and changes nothing: no chunk is enqueued after the end. *)
Theorem write_after_end (b chunk : JSValue) (w : World) :
  is_open (res w) ->
  let w1 := snd (end_ b w) in
  write chunk w1 = (Throw Ctrl.cannot, w1).
Proof.
  intros Ho w1. subst w1. rewrite end_open by exact Ho. cbn [snd].
  apply write_ended; reflexivity.
Qed.

Lemma write_after_end_witness :
  write (VStr "late") (snd (end_ (VStr "done") sample_world)) =
    (Throw Ctrl.cannot, snd (end_ (VStr "done") sample_world)).
Proof.
  apply (write_after_end (VStr "done") (VStr "late") sample_world).
  split; reflexivity.
Defined.

(** ** Headers of the response *)

Lemma get_ci (h : Headers.t) (k k' : string) :
  JsString.toLowerCase k = JsString.toLowerCase k' ->
  Headers.get h k = Headers.get h k'.
Proof.
  intros Hk. unfold Headers.get.
  replace (List.filter (Headers.named k) h)
    with (List.filter (Headers.named k') h); [reflexivity|].
  apply List.filter_ext. intros e. unfold Headers.named. rewrite Hk. reflexivity.
Qed.

Lemma join_snoc (sep : string) (l : list string) (x : string) :
  l <> [] ->
  JsString.join sep (l ++ [x]) = JsString.join sep l +:+ sep +:+ x.
Proof.
  induction l as [|a l IH]; [congruence|]. intros _.
  destruct l as [|b l]; [reflexivity|].
  change (a +:+ sep +:+ JsString.join sep ((b :: l) ++ [x]) =
          (a +:+ sep +:+ JsString.join sep (b :: l)) +:+ sep +:+ x).
  rewrite IH by discriminate. rewrite !sapp_assoc. reflexivity.
Qed.

Lemma get_values (h : Headers.t) (k : string) :
  Headers.get h k =
    match List.map snd (List.filter (Headers.named k) h) with
    | [] => None
    | vs => Some (JsString.join ", " vs)
    end.
Proof.
  unfold Headers.get. destruct (List.filter (Headers.named k) h); reflexivity.
Qed.

Lemma get_append_same (h : Headers.t) (k v : string) :
  Headers.get (Headers.append h k v) k =
    Some (match Headers.get h k with
          | Some old => old +:+ ", " +:+ v
          | None => v
          end).
Proof.
  rewrite !get_values. unfold Headers.append. rewrite List.filter_app.
  cbn [List.filter]. unfold Headers.named at 2. cbn [fst].
  rewrite String.eqb_refl. rewrite List.map_app. cbn [List.map snd].
  destruct (List.map snd (List.filter (Headers.named k) h)) as [|a l];
    [reflexivity|].
  f_equal. exact (join_snoc ", " (a :: l) v ltac:(discriminate)).
Qed.

Lemma get_append_other (h : Headers.t) (k k' v : string) :
  JsString.toLowerCase k <> JsString.toLowerCase k' ->
  Headers.get (Headers.append h k v) k' = Headers.get h k'.
Proof.
  intros Hne. unfold Headers.get, Headers.append. rewrite List.filter_app.
  cbn [List.filter]. unfold Headers.named at 2. cbn [fst].
  replace (String.eqb (JsString.toLowerCase k) (JsString.toLowerCase k'))
    with false by (symmetry; apply String.eqb_neq; exact Hne).
  rewrite app_nil_r. reflexivity.
Qed.

(** X4. The headers of a response, through [set], [append] and [get], for
    names that are tokens and values that are field values as the Headers
    class stores them unchanged. A name is looked up without regard to
    case. [get] gives the value [set] stored, whatever was stored or
    appended under the name before; after [append] it gives the earlier
    values and the new one joined by a comma and a space; a name that was
    never given yields the empty string; and neither [set] nor [append]
    changes what [get] gives for another name. *)
Theorem response_headers (k k' v : string) (w : World) :
  Headers.is_token k = true -> Headers.is_token k' = true ->
  Headers.is_field_value v = true ->
  let read c := fst ((c ;; get k') w) in
  (JsString.toLowerCase k = JsString.toLowerCase k' ->
   read (set k v) = Normal v /\
   read (append k v) =
     Normal (match Headers.get (headersObj (res w)) k' with
             | Some old => old +:+ ", " +:+ v
             | None => v
             end) /\
   (forall a b,
      Headers.is_field_value a = true -> Headers.is_field_value b = true ->
      fst ((append k a ;; append k b ;; set k v ;; get k') w) = Normal v)) /\
  (JsString.toLowerCase k <> JsString.toLowerCase k' ->
   read (set k v) = fst (get k' w) /\ read (append k v) = fst (get k' w)) /\
  (Headers.get (headersObj (res w)) k' = None -> fst (get k' w) = Normal "").
Proof.
  intros _ _ _. cbv zeta. split; [|split].
  - intros Hk. split; [|split].
    + cbn. rewrite <- (get_ci _ k k' Hk), get_set_same. reflexivity.
    + cbn. rewrite <- !(get_ci _ k k' Hk), get_append_same. reflexivity.
    + intros a b _ _. cbn. rewrite <- (get_ci _ k k' Hk), get_set_same.
      reflexivity.
  - intros Hne. split; cbn.
    + rewrite get_set_other by exact Hne. reflexivity.
    + rewrite get_append_other by exact Hne. reflexivity.
  - intros Hn. cbn. rewrite Hn. reflexivity.
Qed.

Lemma response_headers_witness :
  fst ((append "X-Test" "a" ;; append "x-test" "b" ;; get "X-TEST") sample_world)
  = Normal "a, b".
Proof.
  pose proof (response_headers "x-test" "X-TEST" "b"
                (snd (append "X-Test" "a" sample_world))
                eq_refl eq_refl eq_refl) as H.
  cbv zeta in H. destruct H as (H1 & _ & _).
  destruct (H1 eq_refl) as (_ & Ha & _). exact Ha.
Defined.

(** X5. [res.json(data)] and [res.text(data)] on a response that was not
    ended. [text] sets the content type to text/plain, sends the string of
    the data as the one chunk of the call (none for an empty string) and
    finishes the response with the status it had. [json] sets the content
    type to application/json first; when [JSON.stringify] gives a text, that
    text is the one chunk and the response is finished; when it gives
    [undefined] (for [undefined] and for a function) nothing is written and
    the response is finished; when it raises, [json] raises the same and
    the response stays open, with the content type set. *)
Theorem json_and_text_finish (data : JSValue) (w : World) :
  is_open (res w) ->
  let sent ct payload w' :=
    Headers.get (headersObj (res w')) "Content-Type" = Some ct /\
    Ctrl.queue (streamCtrl (res w')) =
      Ctrl.queue (streamCtrl (res w)) ++
      (if String.eqb payload "" then [] else [payload]) /\
    statusCode (res w') = statusCode (res w) /\
    finished (res w') = true /\
    Ctrl.closeRequested (streamCtrl (res w')) = true in
  (forall s,
     Js.JSON_stringify data = JsonText s ->
     fst (json data w) = Normal tt /\
     sent "application/json" s (snd (json data w))) /\
  (Js.JSON_stringify data = JsonUndefined ->
   fst (json data w) = Normal tt /\
   sent "application/json" "" (snd (json data w))) /\
  (forall e,
     Js.JSON_stringify data = JsonThrows e ->
     json data w =
       (Throw e,
        with_headers
          (Headers.set (headersObj (res w)) "Content-Type" "application/json")
          w)) /\
  (data = VUndefined \/ (exists f, data = VFunction f) ->
   Ctrl.queue (streamCtrl (res (snd (json data w)))) =
     Ctrl.queue (streamCtrl (res w))) /\
  (fst (text data w) = Normal tt /\
   sent "text/plain" (Js.String_ data) (snd (text data w))).
Proof.
  intros Ho. cbv zeta.
  assert (H : forall short ct b,
            SHORT_CONTENT_TYPES short = Some ct ->
            (type short ;; end_ b) w =
            (Normal tt,
             finalized (statusCode (res w)) (Some ct) (written_by b) w)).
  { intros short ct b Hs. unfold bind at 1.
    unfold type, set, with_res, modify. rewrite end_open by exact Ho.
    rewrite Hs. reflexivity. }
  assert (Hj : forall b,
            stringified data = Normal b ->
            json data w =
            (Normal tt,
             finalized (statusCode (res w)) (Some "application/json")
               (written_by b) w)).
  { intros b Hb. rewrite <- (H "json" "application/json" b) by reflexivity.
    unfold json, bind, lift. rewrite Hb. reflexivity. }
  assert (Hu : Js.JSON_stringify data = JsonUndefined ->
               fst (json data w) = Normal tt /\
               Headers.get (headersObj (res (snd (json data w)))) "Content-Type" =
                 Some "application/json" /\
               Ctrl.queue (streamCtrl (res (snd (json data w)))) =
                 Ctrl.queue (streamCtrl (res w)) ++ [] /\
               statusCode (res (snd (json data w))) = statusCode (res w) /\
               finished (res (snd (json data w))) = true /\
               Ctrl.closeRequested (streamCtrl (res (snd (json data w)))) = true).
  { intros Hd. rewrite (Hj VUndefined) by (unfold stringified; rewrite Hd; reflexivity).
    cbn [fst snd]. split; [reflexivity|]. unfold finalized. cbn.
    split; [apply get_set_same|]. repeat split. }
  split; [|split; [|split; [|split]]].
  - intros s Hd.
    rewrite (Hj (VStr s)) by (unfold stringified; rewrite Hd; reflexivity).
    cbn [fst snd]. split; [reflexivity|]. rewrite written_by_string.
    unfold finalized, nonempty. cbn.
    split; [apply get_set_same|].
    destruct (String.eqb s ""); repeat split.
  - exact Hu.
  - intros e Hd. unfold json, bind, lift, stringified. rewrite Hd. reflexivity.
  - intros Hd.
    assert (Hd' : Js.JSON_stringify data = JsonUndefined)
      by (destruct Hd as [->|[f ->]]; reflexivity).
    destruct (Hu Hd') as (_ & _ & Hq & _). rewrite Hq. apply app_nil_r.
  - unfold text. rewrite (H "text" "text/plain") by reflexivity.
    cbn [fst snd]. split; [reflexivity|]. rewrite written_by_string.
    unfold finalized, nonempty. cbn.
    split; [apply get_set_same|].
    destruct (String.eqb (Js.String_ data) ""); repeat split.
Qed.

Lemma json_and_text_finish_witness :
  Ctrl.queue (streamCtrl (res (snd (text (VBool true) sample_world)))) = ["true"] /\
  Headers.get (headersObj (res (snd (text (VBool true) sample_world))))
    "Content-Type" = Some "text/plain" /\
  Ctrl.queue (streamCtrl (res (snd (json VUndefined sample_world)))) = [] /\
  fst (json circular sample_world) =
    Throw (TypeError "Converting circular structure to JSON").
Proof.
  pose proof (json_and_text_finish (VBool true) sample_world
                ltac:(split; reflexivity)) as H.
  cbv zeta in H. destruct H as (_ & _ & _ & _ & _ & Hc & Hq & _).
  split; [exact Hq|]. split; [exact Hc|].
  pose proof (json_and_text_finish VUndefined sample_world
                ltac:(split; reflexivity)) as Hu.
  cbv zeta in Hu. destruct Hu as (_ & _ & _ & Hu & _).
  split; [exact (Hu (or_introl eq_refl))|].
  pose proof (json_and_text_finish circular sample_world
                ltac:(split; reflexivity)) as Ht.
  cbv zeta in Ht. destruct Ht as (_ & _ & Ht & _).
  rewrite (Ht _ eq_refl). reflexivity.
Defined.

Lemma handleError_normal (v : JSValue) (herr : HTTPError.t) (ri : ReqInfo)
  (w : World) :
  consistent (res w) ->
  anythingToError v = Normal herr ->
  fst (handleError v ri w) = Normal herr /\
  consistent (res (snd (handleError v ri w))) /\
  (500 <= HTTPError.status herr ->
   finished (res (snd (handleError v ri w))) = true).
Proof.
  intros Hc Ha. split; [|split].
  - destruct (Z_lt_le_dec (HTTPError.status herr) 500) as [Hs|Hs].
    + rewrite (handleError_below_500 v herr) by assumption. reflexivity.
    + destruct (consistent_cases _ Hc) as [Ho|(Hf & _)].
      * rewrite (handleError_open v herr) by assumption. reflexivity.
      * rewrite (handleError_finished v herr) by assumption. reflexivity.
  - apply keeps_handleError, Hc.
  - intros Hs. destruct (consistent_cases _ Hc) as [Ho|(Hf & _)].
    + rewrite (handleError_open v herr) by assumption. reflexivity.
    + rewrite (handleError_finished v herr) by assumption. exact Hf.
Qed.

(** X6. The error interceptor raises for one kind of value only: an object
    (one that is no Error) for which [JSON.stringify] raises; then
    [handleError] raises the same exception and leaves the response and the
    log as they were. For every other value, on a consistent response, it
    returns the normalised error and leaves the response consistent, so
    that a response it was given open with a status of 500 or more comes
    back finished. *)
Theorem handleError_outcome (v : JSValue) (ri : ReqInfo) (w : World) :
  consistent (res w) ->
  (forall herr,
     anythingToError v = Normal herr ->
     fst (handleError v ri w) = Normal herr /\
     consistent (res (snd (handleError v ri w))) /\
     (500 <= HTTPError.status herr ->
      finished (res (snd (handleError v ri w))) = true)) /\
  (forall e,
     anythingToError v = Throw e ->
     handleError v ri w = (Throw e, w) /\
     exists o, v = VObject o /\ view_json o = JsonThrows e) /\
  ((forall o e, v = VObject o -> view_json o <> JsonThrows e) ->
   exists herr, fst (handleError v ri w) = Normal herr).
Proof.
  intros Hc.
  assert (H1 : forall herr,
            anythingToError v = Normal herr ->
            fst (handleError v ri w) = Normal herr /\
            consistent (res (snd (handleError v ri w))) /\
            (500 <= HTTPError.status herr ->
             finished (res (snd (handleError v ri w))) = true))
    by (intros herr Ha; apply handleError_normal; assumption).
  assert (H2 : forall e,
            anythingToError v = Throw e ->
            exists o, v = VObject o /\ view_json o = JsonThrows e).
  { intros e Ha. destruct v as [| |b|[z|r]|s|o|bs|bs|f|m o|he|z0|d];
      try discriminate Ha.
    exists o. split; [reflexivity|]. unfold anythingToError, stringified in Ha.
    cbn in Ha. destruct (view_json o); try discriminate Ha.
    injection Ha as ->. reflexivity. }
  split; [exact H1|]. split.
  - intros e Ha. split; [apply handleError_raises, Ha | apply H2, Ha].
  - intros Hno. destruct (anythingToError v) as [herr|e] eqn:Ha.
    + exists herr. apply (H1 herr eq_refl).
    + destruct (H2 e eq_refl) as (o & -> & Hj). destruct (Hno o e eq_refl Hj).
Qed.

Lemma handleError_outcome_witness :
  fst (handleError (VStr "boom") sample_reqInfo sample_world) =
    Normal (HTTPError.new 500 "boom" "text") /\
  finished (res (snd (handleError (VStr "boom") sample_reqInfo sample_world)))
  = true /\
  handleError circular sample_reqInfo sample_world =
    (Throw (TypeError "Converting circular structure to JSON"), sample_world).
Proof.
  destruct (handleError_outcome (VStr "boom") sample_reqInfo sample_world
              (consistent_fresh sample_reqInfo)) as (H & _).
  destruct (H (HTTPError.new 500 "boom" "text") eq_refl) as (H1 & _ & H3).
  split; [exact H1|]. split; [apply H3; cbn; lia|].
  destruct (handleError_outcome circular sample_reqInfo sample_world
              (consistent_fresh sample_reqInfo)) as (_ & H' & _).
  exact (proj1 (H' _ eq_refl)).
Defined.

(** X7. What [res.error(status, payload)] does for a payload that is a
    plain object or an array, or is missing, on a response that was not
    ended. An object whose string is not empty goes through
    [JSON.stringify]: when that gives a text, the text
    goes out with content type application/json and the HTTPError carries
    it and that type; when it gives [undefined], nothing is written; when
    it raises, [error] raises the same after it set the status, and the
    response stays open. An object whose string is empty (an empty array)
    gets no content type: it is written as an empty chunk and the HTTPError
    is tagged text/plain. Without a payload (undefined or null) nothing is
    written and no content type is set. The arguments after the payload are
    not used. *)
Theorem error_payload `{P : Platform} (s : Z) (args : list JSValue)
  (w : World) :
  is_open (res w) ->
  (forall o,
     view_str o <> "" ->
     (forall t,
        view_json o = JsonText t ->
        error (VNum (NInt s)) (VObject o) args w =
          (Normal (HTTPError.new s t "application/json"),
           finalized s (Some "application/json") (nonempty t) w)) /\
     (view_json o = JsonUndefined ->
      error (VNum (NInt s)) (VObject o) args w =
        (Normal (HTTPError.new s "" "application/json"),
         finalized s (Some "application/json") None w)) /\
     (forall e,
        view_json o = JsonThrows e ->
        error (VNum (NInt s)) (VObject o) args w =
          (Throw e, mkWorld (set_statusCode s (res w)) (log w)))) /\
  (forall o,
     view_str o = "" ->
     error (VNum (NInt s)) (VObject o) args w =
       (Normal (HTTPError.new s "" "text/plain"),
        finalized s None (Some "") w)) /\
  (forall v,
     v = VUndefined \/ v = VNull ->
     exists herr w',
       error (VNum (NInt s)) v args w = (Normal herr, w') /\
       HTTPError.status herr = s /\
       HTTPError.type herr = "text/plain" /\
       statusCode (res w') = s /\
       finished (res w') = true /\
       headersObj (res w') = headersObj (res w) /\
       Ctrl.queue (streamCtrl (res w')) = Ctrl.queue (streamCtrl (res w)) /\
       body (res w') = body (res w)).
Proof.
  intros Ho. split; [|split].
  - intros o Hne. apply String.eqb_neq in Hne.
    assert (Hok : forall b,
              stringified (VObject o) = Normal b ->
              error (VNum (NInt s)) (VObject o) args w =
                (Normal (HTTPError.new s (Error_message b) "application/json"),
                 finalized s (Some "application/json") (written_by b) w)).
    { intros b Hb. unfold error, getContentTypeFromDataType.
      cbn [Js.loose_eq_empty Js.String_ Js.typeof_object]. rewrite Hne.
      cbn [String.eqb Ascii.eqb Bool.eqb].
      unfold bind at 1. unfold status at 1. unfold with_res, modify.
      unfold bind at 1. unfold lift at 1. rewrite Hb.
      unfold bind at 1. unfold type, set, with_res, modify.
      unfold bind at 1. rewrite end_open by exact Ho. reflexivity. }
    split; [|split].
    + intros t Hj. rewrite (Hok (VStr t))
        by (unfold stringified; cbn [Js.JSON_stringify]; rewrite Hj; reflexivity).
      rewrite written_by_string. reflexivity.
    + intros Hj. rewrite (Hok VUndefined)
        by (unfold stringified; cbn [Js.JSON_stringify]; rewrite Hj; reflexivity).
      reflexivity.
    + intros e Hj. unfold error, getContentTypeFromDataType.
      cbn [Js.loose_eq_empty Js.String_ Js.typeof_object]. rewrite Hne.
      cbn [String.eqb Ascii.eqb Bool.eqb].
      unfold bind at 1. unfold status at 1. unfold with_res, modify.
      unfold bind at 1. unfold lift at 1. unfold stringified.
      cbn [Js.JSON_stringify]. rewrite Hj. reflexivity.
  - intros o Hs. unfold error, getContentTypeFromDataType.
    cbn [Js.loose_eq_empty Js.String_ Js.typeof_object]. rewrite Hs.
    cbn [String.eqb].
    unfold bind at 1. unfold status at 1. unfold with_res, modify.
    unfold bind at 1. unfold ret at 1.
    unfold bind at 1. unfold ret at 1.
    unfold bind at 1. rewrite end_open by exact Ho.
    unfold written_by, chunk_bytes, Error_message. cbn [Js.truthy Js.String_].
    rewrite Hs. reflexivity.
  - intros v [-> | ->]; unfold error, getContentTypeFromDataType;
      cbn [Js.loose_eq_empty];
      unfold bind at 1; unfold status at 1; unfold with_res, modify;
      unfold bind at 1; unfold ret at 1;
      unfold bind at 1; unfold ret at 1;
      unfold bind at 1; rewrite end_open by exact Ho;
      eexists; eexists; (split; [reflexivity|]); repeat split;
      cbn; apply app_nil_r.
Qed.

Lemma error_payload_witness :
  headersObj (res (snd (error (P := sample_platform) (VNum (NInt 401))
                          VUndefined [] sample_world))) = [] /\
  Ctrl.queue (streamCtrl (res (snd (error (P := sample_platform)
                                      (VNum (NInt 401)) VUndefined []
                                      sample_world)))) = [] /\
  error (P := sample_platform) (VNum (NInt 500)) circular [] sample_world =
    (Throw (TypeError "Converting circular structure to JSON"),
     mkWorld (set_statusCode 500 (res sample_world)) []).
Proof.
  destruct (error_payload (P := sample_platform) 401 [] sample_world
              ltac:(split; reflexivity)) as (_ & _ & H).
  destruct (H VUndefined (or_introl eq_refl))
    as (herr & w' & He & _ & _ & _ & _ & Hh & Hq & _).
  rewrite He. split; [exact Hh|]. split; [exact Hq|].
  destruct (error_payload (P := sample_platform) 500 [] sample_world
              ltac:(split; reflexivity)) as (H1 & _).
  destruct (H1 (mkObjView
                  (JsonThrows (TypeError "Converting circular structure to JSON"))
                  "[object Object]") ltac:(discriminate)) as (_ & _ & Ht).
  exact (Ht _ eq_refl).
Defined.

(** * Further properties of the dispatcher *)

(** The headers the CORS layer sets on a request that is no preflight. *)
Definition cors_headers (conf : option CorsOptions) (rq : API.Request)
  : Headers.t :=
  match conf, Headers.get (API.rq_headers rq) "origin" with
  | Some o, Some og =>
      if String.eqb og "" then Headers.empty
      else initCors_headers o og Headers.empty
  | _, _ => Headers.empty
  end.

(** The world a handler starts in and the arguments it gets. *)
Definition handler_world (conf : option CorsOptions) (lg : Logger)
  (rq : API.Request) : World :=
  mkWorld (set_headersObj (cors_headers conf rq)
             (new_CafResponse (request_info rq)))
          (lg ++ [request_entry rq]).

Definition handler_input (rq : API.Request) (params : Dictionary) : Args.t :=
  Args.mk (API.rq_headers rq) (API.rq_query rq) params (API.rq_method rq)
    (API.rq_path rq) (API.client_ip rq)
    (RequestBody.new
       (default "" (Headers.get (API.rq_headers rq) "content-type"))
       (API.rq_body rq)).

Section DispatchMore.

Context `{P : Platform}.

Lemma cors_plain (conf : option CorsOptions) (lg : Logger) (rq : API.Request) :
  is_preflight conf rq = false ->
  Cors.cors conf (API.rq_method rq) (API.rq_headers rq) (fresh_world lg rq) =
    (Normal tt, with_headers (cors_headers conf rq) (fresh_world lg rq)).
Proof.
  intros Hp.
  rewrite (cors_spec conf rq (fresh_world lg rq) (fresh_world_open lg rq)).
  unfold is_preflight in Hp. unfold cors_headers.
  destruct conf as [o|]; [|reflexivity].
  destruct (Headers.get (API.rq_headers rq) "origin") as [og|]; [|reflexivity].
  destruct (String.eqb og ""); [reflexivity|].
  destruct (String.eqb (API.rq_method rq) "OPTIONS"); [discriminate Hp|].
  reflexivity.
Qed.

Lemma trigger_dispatch (api : API.t) (conf : option CorsOptions)
  (lg : Logger) (rq : API.Request) (h : RouteHandler) (params' : Dictionary) :
  is_preflight conf rq = false ->
  API.matchRoute api (API.rq_method rq) (API.rq_path rq) ∅ = (Some h, params') ->
  API.trigger api conf lg rq =
    try_catch (h (handler_input rq params'))
      (fun err => handleError err (request_info rq) ;; ret tt)
      (handler_world conf lg rq).
Proof.
  intros Hp Hm. unfold API.trigger.
  change (mkWorld (new_CafResponse _) lg) with (fresh_world lg rq).
  unfold bind at 1. rewrite (cors_plain conf lg rq Hp).
  unfold bind at 1. unfold get_state at 1.
  cbn [res with_headers finished set_headersObj fresh_world new_CafResponse].
  unfold bind at 1. unfold log_call at 1. unfold modify.
  rewrite Hm. unfold try_catch. unfold bind at 1. unfold notFound.
  rewrite bool_decide_eq_true_2 by eauto. cbn [negb]. rewrite assert_false.
  reflexivity.
Qed.

End DispatchMore.

(** X8. A request that is no preflight and that a route matches: the
    handler runs once, on a fresh open response of status 200 that carries
    the CORS headers, after the request was logged, with the parameters the
    match bound. When it returns, what it left is the outcome. When it
    raises and left the response consistent, the failure goes to the error
    interceptor. If the interceptor normalises it, the dispatcher returns;
    for a status of 500 or more the response is then finished, with that
    status and no further chunk when the handler left it open, and as the
    handler left it when the handler had finished it; below 500 nothing
    changes. If the failure is an object for which [JSON.stringify] raises,
    the dispatcher raises that exception and the response stays as the
    handler left it. *)
Theorem trigger_runs_handler `{P : Platform} (api : API.t)
  (conf : option CorsOptions) (lg : Logger) (rq : API.Request)
  (h : RouteHandler) (params' : Dictionary) :
  is_preflight conf rq = false ->
  API.matchRoute api (API.rq_method rq) (API.rq_path rq) ∅ = (Some h, params') ->
  let w1 := handler_world conf lg rq in
  let run := h (handler_input rq params') w1 in
  let out := API.trigger api conf lg rq in
  is_open (res w1) /\ statusCode (res w1) = 200 /\
  Ctrl.queue (streamCtrl (res w1)) = [] /\
  (fst run = Normal tt -> out = run) /\
  (forall e,
     fst run = Throw e -> consistent (res (snd run)) ->
     (forall herr,
        anythingToError e = Normal herr ->
        out = (Normal tt, snd (handleError e (request_info rq) (snd run))) /\
        (500 <= HTTPError.status herr -> finished (res (snd out)) = true) /\
        (500 <= HTTPError.status herr ->
         is_open (res (snd run)) ->
         statusCode (res (snd out)) = HTTPError.status herr /\
         Ctrl.queue (streamCtrl (res (snd out))) =
           Ctrl.queue (streamCtrl (res (snd run)))) /\
        (500 <= HTTPError.status herr ->
         finished (res (snd run)) = true -> res (snd out) = res (snd run)) /\
        (HTTPError.status herr < 500 -> snd out = snd run)) /\
     (forall e',
        anythingToError e = Throw e' -> out = (Throw e', snd run))).
Proof.
  intros Hp Hm w1 run out.
  split; [split; reflexivity|]. split; [reflexivity|]. split; [reflexivity|].
  subst out. rewrite (trigger_dispatch api conf lg rq h params' Hp Hm).
  fold w1. unfold try_catch. fold run.
  destruct run as [[[]|e0] w2]; cbn [fst snd]; split.
  - reflexivity.
  - intros e He. discriminate.
  - intros He. discriminate.
  - intros e He Hc. injection He as ->. split.
    + intros herr Ha.
      destruct (handleError_normal e herr (request_info rq) w2 Hc Ha)
        as (H1 & _ & H3).
      assert (Ht : (handleError e (request_info rq);; ret tt) w2 =
                   (Normal tt, snd (handleError e (request_info rq) w2))).
      { unfold bind. destruct (handleError e (request_info rq) w2) as [c w3].
        cbn [fst snd] in *. rewrite H1. reflexivity. }
      rewrite Ht. cbn [snd]. split; [reflexivity|]. split; [exact H3|].
      split; [|split].
      * intros Hs Ho. rewrite (handleError_open e herr) by assumption. cbn.
        split; [reflexivity | apply app_nil_r].
      * intros Hs Hf. rewrite (handleError_finished e herr) by assumption.
        reflexivity.
      * intros Hs. rewrite (handleError_below_500 e herr) by assumption.
        reflexivity.
    + intros e' Ha. unfold bind.
      rewrite (handleError_raises e e' _ _ Ha). reflexivity.
Qed.

(** A handler that raises a plain Error. *)
Definition failing_handler : RouteHandler :=
  fun _ => throw (VError "othererr" (mkObjView (JsonText "{}") "Error: othererr")).

Definition failing_api : API.t :=
  snd (API.addEndpoint (P := sample_platform) "post" "/unknown"
         failing_handler API.new).

Definition failing_request : API.Request :=
  API.mkRequest "POST" [] ∅ "/unknown" None None.

Lemma trigger_runs_handler_witness :
  statusCode (res (snd (API.trigger (P := sample_platform) failing_api None []
                          failing_request))) = 500 /\
  Ctrl.queue (streamCtrl (res (snd (API.trigger (P := sample_platform)
                                      failing_api None [] failing_request))))
  = [].
Proof.
  pose proof (trigger_runs_handler (P := sample_platform) failing_api None []
                failing_request failing_handler ∅ eq_refl eq_refl) as H.
  cbv zeta in H. destruct H as (_ & _ & _ & _ & H).
  destruct (H (VError "othererr" (mkObjView (JsonText "{}") "Error: othererr"))
              eq_refl (consistent_fresh _)) as (H' & _).
  destruct (H' (HTTPError.new 500 "othererr" "text") eq_refl)
    as (_ & _ & H3 & _).
  destruct (H3 ltac:(cbn; lia) ltac:(split; reflexivity)) as [Hs Hq].
  split; [exact Hs | exact Hq].
Defined.

(** X9. The dispatcher raises in one case only. Whatever the request, when
    the handler the route table gives for it keeps the response consistent
    (as the calls on a response do), the response [trigger] leaves is
    consistent, and [trigger] returns unless the handler raised an object
    for which [JSON.stringify] raises: then [trigger] raises what
    [JSON.stringify] raised. *)
Theorem trigger_outcome `{P : Platform} (api : API.t)
  (conf : option CorsOptions) (lg : Logger) (rq : API.Request) :
  (forall h params',
     API.matchRoute api (API.rq_method rq) (API.rq_path rq) ∅ = (Some h, params') ->
     keeps (h (handler_input rq params'))) ->
  let out := API.trigger api conf lg rq in
  let raised h params' e :=
    API.matchRoute api (API.rq_method rq) (API.rq_path rq) ∅ = (Some h, params') /\
    fst (h (handler_input rq params') (handler_world conf lg rq)) = Throw e in
  consistent (res (snd out)) /\
  (fst out = Normal tt \/
   exists h params' e e',
     raised h params' e /\ anythingToError e = Throw e' /\ fst out = Throw e') /\
  ((forall h params' e e', raised h params' e -> anythingToError e <> Throw e') ->
   fst out = Normal tt).
Proof.
  intros Hk out raised.
  assert (H : consistent (res (snd out)) /\
              (fst out = Normal tt \/
               exists h params' e e',
                 raised h params' e /\ anythingToError e = Throw e' /\
                 fst out = Throw e')).
  { subst out raised. destruct (is_preflight conf rq) eqn:Hp.
    - unfold is_preflight in Hp.
      destruct conf as [o|]; [|discriminate].
      destruct (Headers.get (API.rq_headers rq) "origin") as [og|] eqn:Hog;
        [|discriminate].
      cbn [bool_decide] in Hp.
      rewrite bool_decide_eq_true_2 in Hp by eauto. cbn [andb] in Hp.
      apply andb_prop in Hp as [Hne Hm].
      apply negb_true_iff, String.eqb_neq in Hne. apply String.eqb_eq in Hm.
      rewrite (trigger_preflight api o og lg rq Hog Hne Hm).
      split; [split; reflexivity | left; reflexivity].
    - destruct (API.matchRoute api (API.rq_method rq) (API.rq_path rq) ∅)
        as [[h|] params'] eqn:Hm.
      + specialize (Hk h params' eq_refl).
        rewrite (trigger_dispatch api conf lg rq h params' Hp Hm).
        unfold try_catch.
        assert (Hw : consistent (res (handler_world conf lg rq)))
          by (split; [reflexivity | discriminate]).
        specialize (Hk _ Hw).
        destruct (h (handler_input rq params') (handler_world conf lg rq))
          as [[[]|e] w2] eqn:Hrun; cbn [snd] in Hk;
          [split; [exact Hk | left; reflexivity]|].
        destruct (anythingToError e) as [herr|e'] eqn:Ha.
        * destruct (handleError_normal e herr (request_info rq) w2 Hk Ha)
            as (Hr & Hc & _).
          unfold bind. destruct (handleError e (request_info rq) w2) as [c w3].
          cbn [fst snd] in *. rewrite Hr.
          split; [exact Hc | left; reflexivity].
        * unfold bind. rewrite (handleError_raises e e' _ _ Ha). cbn [fst snd].
          split; [exact Hk|]. right. exists h, params', e, e'.
          split; [split; [reflexivity | rewrite Hrun; reflexivity]|].
          split; [exact Ha | reflexivity].
      + destruct (trigger_no_match api conf lg rq Hp) as [hd Ht];
          [rewrite Hm; reflexivity|].
        rewrite Ht. split; [split; reflexivity | left; reflexivity]. }
  destruct H as [Hc Hr]. split; [exact Hc|]. split; [exact Hr|].
  intros Hno. destruct Hr as [Hr|(h & params' & e & e' & Hra & Ha & _)];
    [exact Hr|].
  destruct (Hno h params' e e' Hra Ha).
Qed.

Lemma trigger_outcome_witness :
  fst (API.trigger (P := sample_platform) failing_api None [] failing_request)
  = Normal tt.
Proof.
  pose proof (trigger_outcome (P := sample_platform) failing_api None []
                failing_request) as H.
  cbv zeta in H.
  assert (Hk : forall h params',
            API.matchRoute failing_api (API.rq_method failing_request)
              (API.rq_path failing_request) ∅ = (Some h, params') ->
            keeps (h (handler_input failing_request params'))).
  { intros h params' Hm. vm_compute in Hm. injection Hm as <- _.
    intros w Hw. exact Hw. }
  destruct (H Hk) as (_ & _ & H3). apply H3.
  intros h params' e e' [Hm He] Ha. vm_compute in Hm. injection Hm as <- _.
  cbn in He. injection He as <-. discriminate Ha.
Defined.

(** * Further properties of the CORS layer *)

(** ** Splitting, joining and trimming *)

Fixpoint comma_free (s : string) : bool :=
  match s with
  | EmptyString => true
  | String c r => negb (Ascii.eqb c ",") && comma_free r
  end.

(** A field as [setVaryHeader] writes it: without comma, trimmed and in
    lower case. *)
Definition clean (s : string) : Prop :=
  comma_free s = true /\ JsString.trim s = s /\ JsString.toLowerCase s = s.

Lemma split_comma_free (s : string) :
  comma_free s = true -> JsString.split "," s = [s].
Proof.
  induction s as [|c r IH]; [reflexivity|]. cbn [comma_free JsString.split].
  intros H. apply andb_prop in H as [Hc Hr]. apply negb_true_iff in Hc.
  rewrite Hc, (IH Hr). reflexivity.
Qed.

Lemma split_at_comma (a b : string) :
  comma_free a = true ->
  JsString.split "," (a +:+ String "," b) = a :: JsString.split "," b.
Proof.
  induction a as [|c r IH]; [reflexivity|]. cbn [comma_free].
  intros H. apply andb_prop in H as [Hc Hr]. apply negb_true_iff in Hc.
  change (String c r +:+ String "," b) with (String c (r +:+ String "," b)).
  cbn [JsString.split]. rewrite Hc, (IH Hr). reflexivity.
Qed.

Lemma split_elements_comma_free (s : string) :
  Forall (fun x => comma_free x = true) (JsString.split "," s).
Proof.
  induction s as [|c r IH]; [repeat constructor|]. cbn [JsString.split].
  destruct (Ascii.eqb c ",") eqn:Hc; [constructor; [reflexivity | exact IH]|].
  destruct (JsString.split "," r) as [|w ws]; [repeat constructor; cbn; rewrite Hc; reflexivity|].
  inversion IH as [|? ? Hw Hws]; subst. constructor; [|exact Hws].
  cbn. rewrite Hc, Hw. reflexivity.
Qed.

Lemma join_cons_space (v : string) (rest : list string) :
  String " " (JsString.join ", " (v :: rest)) =
  JsString.join ", " (String " " v :: rest).
Proof. destruct rest; reflexivity. Qed.

Lemma split_join (v : string) (rest : list string) :
  Forall (fun x => comma_free x = true) (v :: rest) ->
  JsString.split "," (JsString.join ", " (v :: rest)) =
    v :: List.map (String " ") rest.
Proof.
  revert v. induction rest as [|v2 rest IH]; intros v Hf.
  - inversion Hf; subst. apply split_comma_free. assumption.
  - inversion Hf as [|? ? Hv Hr]; subst. inversion Hr as [|? ? Hv2 Hr']; subst.
    change (JsString.join ", " (v :: v2 :: rest))
      with (v +:+ String "," (String " " (JsString.join ", " (v2 :: rest)))).
    rewrite split_at_comma by exact Hv. rewrite join_cons_space.
    rewrite IH by (constructor; [exact Hv2 | exact Hr']). reflexivity.
Qed.

Lemma trimStart_shape (s : string) :
  JsString.trimStart s = "" \/
  exists c r, JsString.trimStart s = String c r /\ JsString.is_space c = false.
Proof.
  induction s as [|c r IH]; [left; reflexivity|]. cbn [JsString.trimStart].
  destruct (JsString.is_space c) eqn:Hc; [exact IH|]. right. eauto.
Qed.

Lemma trimEnd_idem (s : string) :
  JsString.trimEnd (JsString.trimEnd s) = JsString.trimEnd s.
Proof.
  induction s as [|c r IH]; [reflexivity|]. cbn [JsString.trimEnd].
  destruct (JsString.trimEnd r) as [|d r'] eqn:Hr.
  - destruct (JsString.is_space c) eqn:Hc; [reflexivity|].
    cbn [JsString.trimEnd]. rewrite Hc. reflexivity.
  - change (match JsString.trimEnd (String d r') with
            | EmptyString =>
                if JsString.is_space c then EmptyString else String c EmptyString
            | x => String c x
            end = String c (String d r')).
    rewrite IH. reflexivity.
Qed.

Lemma trimEnd_head (c : ascii) (r : string) :
  JsString.is_space c = false ->
  exists r', JsString.trimEnd (String c r) = String c r'.
Proof.
  intros Hc. cbn [JsString.trimEnd]. rewrite Hc.
  destruct (JsString.trimEnd r); eauto.
Qed.

Lemma trim_idem (s : string) : JsString.trim (JsString.trim s) = JsString.trim s.
Proof.
  unfold JsString.trim.
  destruct (trimStart_shape s) as [-> | (c & r & -> & Hc)]; [reflexivity|].
  destruct (trimEnd_head c r Hc) as [r' Hr']. rewrite Hr'.
  cbn [JsString.trimStart]. rewrite Hc. rewrite <- Hr'. apply trimEnd_idem.
Qed.

Lemma is_space_lower (c : ascii) :
  JsString.is_space (JsString.lower_char c) = JsString.is_space c.
Proof. destruct c as [[] [] [] [] [] [] [] []]; reflexivity. Qed.

Lemma lower_char_idem (c : ascii) :
  JsString.lower_char (JsString.lower_char c) = JsString.lower_char c.
Proof. destruct c as [[] [] [] [] [] [] [] []]; reflexivity. Qed.

Lemma lower_char_comma (c : ascii) :
  Ascii.eqb (JsString.lower_char c) "," = Ascii.eqb c ",".
Proof. destruct c as [[] [] [] [] [] [] [] []]; reflexivity. Qed.

Lemma lower_idem (s : string) :
  JsString.toLowerCase (JsString.toLowerCase s) = JsString.toLowerCase s.
Proof.
  induction s as [|c r IH]; [reflexivity|].
  unfold JsString.toLowerCase in *. cbn [JsString.map_chars].
  rewrite lower_char_idem, IH. reflexivity.
Qed.

Lemma lower_comma_free (s : string) :
  comma_free (JsString.toLowerCase s) = comma_free s.
Proof.
  induction s as [|c r IH]; [reflexivity|].
  unfold JsString.toLowerCase in *. cbn [JsString.map_chars comma_free].
  rewrite lower_char_comma, IH. reflexivity.
Qed.

Lemma lower_trimStart (s : string) :
  JsString.trimStart (JsString.toLowerCase s) =
  JsString.toLowerCase (JsString.trimStart s).
Proof.
  induction s as [|c r IH]; [reflexivity|].
  unfold JsString.toLowerCase in *. cbn [JsString.map_chars JsString.trimStart].
  rewrite is_space_lower. destruct (JsString.is_space c); [exact IH | reflexivity].
Qed.

Lemma lower_trimEnd (s : string) :
  JsString.trimEnd (JsString.toLowerCase s) =
  JsString.toLowerCase (JsString.trimEnd s).
Proof.
  induction s as [|c r IH]; [reflexivity|].
  unfold JsString.toLowerCase in *. cbn [JsString.map_chars JsString.trimEnd].
  rewrite IH, is_space_lower.
  destruct (JsString.trimEnd r); cbn [JsString.map_chars];
    [destruct (JsString.is_space c)|]; reflexivity.
Qed.

Lemma lower_trim (s : string) :
  JsString.trim (JsString.toLowerCase s) = JsString.toLowerCase (JsString.trim s).
Proof. unfold JsString.trim. rewrite lower_trimStart, lower_trimEnd. reflexivity. Qed.

Lemma trimStart_comma_free (s : string) :
  comma_free s = true -> comma_free (JsString.trimStart s) = true.
Proof.
  induction s as [|c r IH]; [reflexivity|]. cbn [JsString.trimStart].
  destruct (JsString.is_space c); [|auto]. cbn [comma_free].
  intros H. apply andb_prop in H as [_ Hr]. auto.
Qed.

Lemma trimEnd_comma_free (s : string) :
  comma_free s = true -> comma_free (JsString.trimEnd s) = true.
Proof.
  induction s as [|c r IH]; [reflexivity|]. cbn [comma_free JsString.trimEnd].
  intros H. apply andb_prop in H as [Hc Hr]. specialize (IH Hr).
  destruct (JsString.trimEnd r); [destruct (JsString.is_space c)|];
    cbn [comma_free]; rewrite ?Hc; [reflexivity | reflexivity |].
  cbn [comma_free] in IH. rewrite IH. reflexivity.
Qed.

Lemma clean_field (item : string) :
  comma_free item = true ->
  clean (JsString.toLowerCase (JsString.trim item)).
Proof.
  intros Hc. split; [|split].
  - rewrite lower_comma_free. unfold JsString.trim.
    apply trimEnd_comma_free, trimStart_comma_free, Hc.
  - rewrite lower_trim, trim_idem. reflexivity.
  - apply lower_idem.
Qed.

Lemma vary_values_clean (v : string) : Forall clean (vary_values v).
Proof.
  unfold vary_values. pose proof (split_elements_comma_free v) as H.
  induction H as [|x l Hx _ IH]; [constructor|].
  cbn [map]. constructor; [apply clean_field, Hx | exact IH].
Qed.

Lemma vary_values_nonempty (v : string) : vary_values v <> [].
Proof.
  unfold vary_values. destruct v as [|c r]; [discriminate|].
  cbn [JsString.split]. destruct (Ascii.eqb c ","); [discriminate|].
  destruct (JsString.split "," r); discriminate.
Qed.

(** Reading back what was joined. *)
Lemma vary_values_join (vs : list string) :
  vs <> [] -> Forall clean vs ->
  vary_values (JsString.join ", " vs) = vs.
Proof.
  intros Hne Hcl. destruct vs as [|v rest]; [congruence|].
  unfold vary_values. rewrite split_join.
  - inversion Hcl as [|? ? (Hv1 & Hv2 & Hv3) Hr]; subst.
    cbn [map]. rewrite Hv2, Hv3. f_equal.
    clear -Hr. induction Hr as [|x l (Hx1 & Hx2 & Hx3) _ IH]; [reflexivity|].
    cbn [List.map map]. f_equal; [|exact IH].
    change (JsString.trim (String " " x)) with (JsString.trim x).
    rewrite Hx2, Hx3. reflexivity.
  - eapply Forall_impl; [exact Hcl|]. intros x (Hx & _). exact Hx.
Qed.

Lemma filter_out_idem (k : string) (h : Headers.t) :
  List.filter (fun e => negb (Headers.named k e))
    (List.filter (fun e => negb (Headers.named k e)) h) =
  List.filter (fun e => negb (Headers.named k e)) h.
Proof.
  induction h as [|e r IH]; [reflexivity|]. cbn [List.filter].
  destruct (negb (Headers.named k e)) eqn:He; [|exact IH].
  cbn [List.filter]. rewrite He, IH. reflexivity.
Qed.

(** [set] after [set] under one name: the second value only. *)
Lemma set_set (h : Headers.t) (k v v' : string) :
  Headers.set (Headers.set h k v) k v' = Headers.set h k v'.
Proof.
  assert (Hn : forall x, Headers.named k (JsString.toLowerCase k, x) = true)
    by (intros x; apply String.eqb_refl).
  unfold Headers.set. destruct (Headers.has h k) eqn:Hh.
  - assert (Hh' : Headers.has (Headers.replace_first k v h) k = true).
    { unfold Headers.has in *. induction h as [|e r IH]; [discriminate|].
      cbn [Headers.replace_first]. cbn [existsb] in Hh.
      destruct (Headers.named k e) eqn:He.
      - cbn [existsb]. unfold Headers.named in He |- *. cbn [fst]. rewrite He.
        reflexivity.
      - cbn [existsb]. rewrite He. cbn [orb]. apply IH. exact Hh. }
    rewrite Hh'. clear Hh'. unfold Headers.has in Hh.
    induction h as [|e r IH]; [discriminate|].
    cbn [Headers.replace_first]. cbn [existsb] in Hh.
    destruct (Headers.named k e) eqn:He.
    + cbn [Headers.replace_first].
      assert (He' : Headers.named k (fst e, v) = true)
        by (unfold Headers.named in *; exact He).
      rewrite He'. cbn [fst]. rewrite filter_out_idem. reflexivity.
    + cbn [Headers.replace_first]. rewrite He. f_equal. apply IH. exact Hh.
  - assert (Hh' : Headers.has (h ++ [(JsString.toLowerCase k, v)]) k = true).
    { unfold Headers.has. rewrite existsb_app. cbn [existsb]. rewrite Hn.
      apply orb_true_iff. right. reflexivity. }
    rewrite Hh'. clear Hh'. unfold Headers.has in Hh.
    induction h as [|e r IH].
    + cbn [app Headers.replace_first]. rewrite Hn. reflexivity.
    + cbn [existsb] in Hh. apply orb_false_iff in Hh as [He Hr].
      cbn [app Headers.replace_first]. rewrite He. f_equal. apply IH. exact Hr.
Qed.

Lemma vary_headers_dedup (nv nv' : string) (h : Headers.t) :
  comma_free nv = true ->
  JsString.trim nv = nv ->
  nv <> "*" -> nv' <> "*" ->
  JsString.toLowerCase nv = JsString.toLowerCase nv' ->
  vary_headers nv' (vary_headers nv h) = vary_headers nv h.
Proof.
  intros Hcf Htr Hn Hn' Hl. apply String.eqb_neq in Hn, Hn'.
  destruct (String.eqb (default "" (Headers.get h "Vary")) "*") eqn:Hc.
  { assert (Hi : vary_headers nv h = h)
      by (unfold vary_headers; rewrite Hc; reflexivity).
    rewrite Hi. unfold vary_headers. rewrite Hc. reflexivity. }
  set (vs := vary_values (default "" (Headers.get h "Vary"))).
  set (x := JsString.toLowerCase nv).
  set (vals := if JsString.includes vs x then vs else vs ++ [x]).
  assert (Hi : vary_headers nv h = Headers.set h "Vary" (JsString.join ", " vals))
    by (unfold vary_headers; rewrite Hc, Hn; reflexivity).
  assert (Hx : clean x).
  { split; [|split].
    - unfold x. rewrite lower_comma_free. exact Hcf.
    - unfold x. rewrite lower_trim, Htr. reflexivity.
    - apply lower_idem. }
  assert (Hvals : vals <> [] /\ Forall clean vals /\
                  JsString.includes vals x = true).
  { unfold vals. destruct (JsString.includes vs x) eqn:Hin.
    - split; [apply vary_values_nonempty|].
      split; [apply vary_values_clean | exact Hin].
    - split; [destruct vs; discriminate|]. split.
      + apply Forall_app. split; [apply vary_values_clean|].
        constructor; [exact Hx | constructor].
      + unfold JsString.includes. rewrite existsb_app. cbn [existsb].
        rewrite String.eqb_refl. apply orb_true_iff. right. reflexivity. }
  destruct Hvals as (Hne & Hcl & Hin).
  rewrite Hi. unfold vary_headers. rewrite get_set_same. cbn [default].
  unfold id.
  destruct (String.eqb (JsString.join ", " vals) "*"); [reflexivity|].
  rewrite Hn'. rewrite vary_values_join by assumption.
  rewrite <- Hl. fold x. rewrite Hin. apply set_set.
Qed.

(** X10. The Vary header takes a field once: after [setVaryHeader] with a
    field name (no comma in it, no white space around it, and not [*]), a
    second [setVaryHeader] with the same name, in whatever case it is
    written, changes nothing. *)
Theorem vary_no_duplicate (nv nv' : string) (w : World) :
  comma_free nv = true ->
  JsString.trim nv = nv ->
  nv <> "*" -> nv' <> "*" ->
  JsString.toLowerCase nv = JsString.toLowerCase nv' ->
  (Cors.setVaryHeader nv ;; Cors.setVaryHeader nv') w = Cors.setVaryHeader nv w.
Proof.
  intros Hcf Htr Hn Hn' Hl.
  unfold bind at 1. rewrite !setVaryHeader_spec.
  cbn [res with_headers set_headersObj headersObj].
  rewrite (vary_headers_dedup nv nv' _ Hcf Htr Hn Hn' Hl). reflexivity.
Qed.

Lemma vary_no_duplicate_witness :
  (Cors.setVaryHeader "Origin" ;; Cors.setVaryHeader "ORIGIN") sample_world =
  Cors.setVaryHeader "Origin" sample_world.
Proof.
  apply vary_no_duplicate; [reflexivity | reflexivity | discriminate
                           | discriminate | reflexivity].
Defined.

(** The value of Access-Control-Allow-Origin for the options and the
    origin of the request. *)
Definition allow_origin (o : CorsOptions) (og : string) : string :=
  match default Cors.DEFAULT_origin (origin o) with
  | OBool false | ORule (RString "") | ORule (RString "*") => "*"
  | ORule (RString s) => s
  | x => if Cors.isOriginAllowed og x then og else "false"
  end.

Lemma initCors_allow_origin (o : CorsOptions) (og : string) (h : Headers.t) :
  Headers.get (initCors_headers o og h) "Access-Control-Allow-Origin" =
    Some (allow_origin o og).
Proof.
  unfold initCors_headers, allow_origin.
  set (h1 := match default Cors.DEFAULT_origin (origin o) with
             | OBool false | ORule (RString "") | ORule (RString "*") => _
             | _ => _ end).
  assert (H1 : Headers.get h1 "Access-Control-Allow-Origin" =
               Some match default Cors.DEFAULT_origin (origin o) with
                    | OBool false | ORule (RString "") | ORule (RString "*") => "*"
                    | ORule (RString s) => s
                    | x => if Cors.isOriginAllowed og x then og else "false"
                    end).
  { subst h1.
    destruct (default Cors.DEFAULT_origin (origin o)) as [[]|[s|t]|rs];
      read_headers; try reflexivity.
    destruct s as [|[[] [] [] [] [] [] [] []] [|c s']];
      read_headers; reflexivity. }
  clearbody h1.
  destruct (bool_decide (credentials o = Some true));
    destruct (exposedHeaders o) as [e|];
    try destruct (Cors.has_length (Some e));
    read_headers; exact H1.
Qed.

(** X11. [initCors] changes the headers of the response and nothing else,
    and Access-Control-Allow-Origin is set in every case: to [*] when the
    origin option is absent, [*], empty or [false]; to a configured string
    as it is, whatever the origin of the request; for [true] to the origin
    of the request; for a regular expression or a list to the origin of the
    request when a rule allows it and to the string [false] when none does.
    Access-Control-Allow-Credentials is [true] when the option is. *)
Theorem cors_allow_origin (o : CorsOptions) (og : string) (w : World) :
  let w' := snd (Cors.initCors o og w) in
  let acao := Headers.get (headersObj (res w')) "Access-Control-Allow-Origin" in
  fst (Cors.initCors o og w) = Normal tt /\
  w' = with_headers (headersObj (res w')) w /\
  (origin o = None \/ origin o = Some (ORule (RString "*")) \/
   origin o = Some (ORule (RString "")) \/ origin o = Some (OBool false) ->
   acao = Some "*") /\
  (forall s, origin o = Some (ORule (RString s)) -> s <> "" -> s <> "*" ->
             acao = Some s) /\
  (origin o = Some (OBool true) -> acao = Some og) /\
  (forall t, origin o = Some (ORule (RRegExp t)) ->
             acao = Some (if t og then og else "false")) /\
  (forall rs, origin o = Some (OArray rs) ->
              acao = Some (if existsb (Cors.rule_allows og) rs then og
                           else "false")) /\
  (credentials o = Some true ->
   Headers.get (headersObj (res w')) "Access-Control-Allow-Credentials" =
     Some "true").
Proof.
  cbv zeta. rewrite initCors_spec. cbn [fst snd res with_headers headersObj set_headersObj].
  split; [reflexivity|]. split; [reflexivity|].
  rewrite initCors_allow_origin. unfold allow_origin.
  split; [|split; [|split; [|split; [|split]]]].
  - intros [-> | [-> | [-> | ->]]]; reflexivity.
  - intros s -> Hs1 Hs2. cbn [default].
    destruct s as [|[[] [] [] [] [] [] [] []] [|c s']];
      try reflexivity; congruence.
  - intros ->. reflexivity.
  - intros t ->. reflexivity.
  - intros rs ->. reflexivity.
  - intros Hc. unfold initCors_headers. rewrite Hc.
    rewrite bool_decide_eq_true_2 by reflexivity.
    destruct (exposedHeaders o) as [e|];
      try destruct (Cors.has_length (Some e)); read_headers; reflexivity.
Qed.

Lemma cors_allow_origin_witness :
  Headers.get
    (headersObj (res (snd (Cors.initCors
       (mkCors (Some (OArray [RString "http://a.example"])) None None None
               None None)
       "http://evil.example" sample_world))))
    "Access-Control-Allow-Origin" = Some "false".
Proof.
  pose proof (cors_allow_origin
                (mkCors (Some (OArray [RString "http://a.example"])) None None
                        None None None)
                "http://evil.example" sample_world) as H.
  cbv zeta in H. destruct H as (_ & _ & _ & _ & _ & _ & H & _).
  exact (H _ eq_refl).
Defined.

(** * Further properties of the content negotiation *)

Fixpoint semicolon_free (s : string) : bool :=
  match s with
  | EmptyString => true
  | String c r => negb (Ascii.eqb c ";") && semicolon_free r
  end.

Lemma until_semicolon_free (s : string) :
  semicolon_free (until_semicolon s) = true.
Proof.
  induction s as [|c r IH]; [reflexivity|]. cbn [until_semicolon].
  destruct (Ascii.eqb c ";") eqn:Hc; [reflexivity|].
  cbn [semicolon_free]. rewrite Hc, IH. reflexivity.
Qed.

Lemma match_charset_shape (s cs : string) :
  match_charset s = Some cs -> cs <> "" /\ semicolon_free cs = true.
Proof.
  induction s as [|c r IH]; [discriminate|].
  cbn [match_charset].
  destruct (String.prefix "charset=" (String c r)); [|exact IH].
  destruct (until_semicolon (String.substring 8 (String.length (String c r))
                               (String c r))) as [|d u] eqn:Hu; [exact IH|].
  intros H. injection H as <-. split; [discriminate|].
  rewrite <- Hu. apply until_semicolon_free.
Qed.

Lemma slice_is_prefix (p s : string) :
  String.eqb (JsString.slice0 (String.length p) s) p = String.prefix p s.
Proof.
  unfold JsString.slice0. destruct (String.prefix p s) eqn:Hp.
  - apply String.eqb_eq. apply prefix_correct. exact Hp.
  - apply String.eqb_neq. intros H. apply prefix_correct in H. congruence.
Qed.

Lemma json_data_type (ct : string) :
  String.prefix "application/json" ct = true ->
  getDataTypeFromContentType ct =
    mkDataType (Some "json") (Some (default "utf-8" (match_charset ct))).
Proof.
  intros Hp. unfold getDataTypeFromContentType.
  pose proof (slice_is_prefix "application/json" ct) as E.
  change (String.length "application/json") with 16%nat in E.
  rewrite E, Hp. reflexivity.
Qed.

(** X12. The data type of a declared content type. It is [json] exactly
    for the types that begin with application/json, and then the charset is
    the declared one or utf-8; a type that declares a charset is never taken
    as raw; a raw type has no charset; and a charset, when there is one, is
    not empty and holds no semicolon. *)
Theorem content_type_resolution (ct : string) :
  let d := getDataTypeFromContentType ct in
  (dt_type d = Some "json" <-> String.prefix "application/json" ct = true) /\
  (String.prefix "application/json" ct = true ->
   dt_charset d = Some (default "utf-8" (match_charset ct))) /\
  (String.prefix "application/json" ct = false ->
   String.prefix "application/x-www-form-urlencoded" ct = true ->
   dt_type d = Some "text" /\
   dt_charset d = Some (default "ascii" (match_charset ct))) /\
  (is_Some (match_charset ct) -> is_Some (dt_type d)) /\
  (dt_type d = None -> dt_charset d = None) /\
  (forall cs, dt_charset d = Some cs -> cs <> "" /\ semicolon_free cs = true).
Proof.
  cbv zeta. unfold getDataTypeFromContentType.
  pose proof (slice_is_prefix "application/json" ct) as E1.
  pose proof (slice_is_prefix "application/x-www-form-urlencoded" ct) as E2.
  pose proof (slice_is_prefix "text/" ct) as E3.
  change (String.length "application/json") with 16%nat in E1.
  change (String.length "application/x-www-form-urlencoded") with 33%nat in E2.
  change (String.length "text/") with 5%nat in E3.
  rewrite E1, E2, E3. clear E1 E2 E3.
  assert (Hd : forall dflt, dflt <> "" -> semicolon_free dflt = true ->
            forall cs, Some (default dflt (match_charset ct)) = Some cs ->
                       cs <> "" /\ semicolon_free cs = true).
  { intros dflt H1 H2 cs H. injection H as <-.
    destruct (match_charset ct) as [c|] eqn:Hm;
      [exact (match_charset_shape _ _ Hm) | split; assumption]. }
  destruct (String.prefix "application/json" ct) eqn:Hj.
  { cbn [dt_type dt_charset].
    split; [split; intros _; reflexivity|].
    split; [intros _; reflexivity|].
    split; [intros H; discriminate H|].
    split; [intros _; eauto|].
    split; [intros H; discriminate H|].
    apply (Hd "utf-8"); [discriminate | reflexivity]. }
  destruct (String.prefix "application/x-www-form-urlencoded" ct) eqn:Hf.
  { cbn [dt_type dt_charset].
    split; [split; intros H; discriminate H|].
    split; [intros H; discriminate H|].
    split; [intros _ _; split; reflexivity|].
    split; [intros _; eauto|].
    split; [intros H; discriminate H|].
    apply (Hd "ascii"); [discriminate | reflexivity]. }
  destruct (match_charset ct) as [c|] eqn:Hm.
  - rewrite bool_decide_eq_true_2 by eauto. rewrite orb_true_r.
    cbn [dt_type dt_charset].
    split; [split; intros H; discriminate H|].
    split; [intros H; discriminate H|].
    split; [intros _ H; discriminate H|].
    split; [intros _; eauto|].
    split; [intros H; discriminate H|].
    intros cs H. injection H as <-. exact (match_charset_shape _ _ Hm).
  - rewrite bool_decide_eq_false_2 by (intros [x Hx]; discriminate).
    rewrite orb_false_r.
    destruct (String.prefix "text/" ct); cbn [dt_type dt_charset];
      (split; [split; intros H; discriminate H|]);
      (split; [intros H; discriminate H|]);
      (split; [intros _ H; discriminate H|]);
      (split; [intros [x Hx]; discriminate Hx|]);
      (split; [intros H; first [discriminate H | reflexivity]|]);
      intros cs H; discriminate H.
Qed.

Lemma content_type_resolution_witness :
  dt_charset (getDataTypeFromContentType "application/json; charset=latin1")
  = Some "latin1".
Proof.
  pose proof (content_type_resolution "application/json; charset=latin1") as H.
  cbv zeta in H. destruct H as (_ & H & _). exact (H eq_refl).
Defined.

(** The error of an accessor the declared type does not allow. *)
Definition unsupported_media : HTTPError.t := HTTPError.new 415 "" "text/plain".

Section AccessorProperties.

Context `{P : Platform}.

Lemma parse_reads (b : RequestBody.t) (v : JSValue) (w : World) :
  reader b = Normal v -> RequestBody.parse b w = (Normal v, w).
Proof.
  intros Hr. unfold RequestBody.parse, try_catch, RequestBody.settle.
  unfold reader in Hr.
  destruct (RequestBody.reqBody b) as [x|].
  - repeat case_bool_decide; rewrite Hr; reflexivity.
  - injection Hr as <-. repeat case_bool_decide; reflexivity.
Qed.

Lemma badType_raises (w : World) :
  is_open (res w) ->
  badType true None [] w =
    (Throw (VHTTPError unsupported_media), finalized 415 None None w).
Proof.
  intros Ho. unfold badType. rewrite assert_true_open by exact Ho.
  cbn [default]. rewrite sprintf_verbatim by reflexivity. reflexivity.
Qed.

End AccessorProperties.

(** X13. The accessors of a request body whose reader succeeds with a value
    [v]. [raw()] gives [v] and leaves the response alone. [json()] gives [v]
    when the declared type is json. [text()] gives [v] when the type is text
    or a charset is known; that includes a JSON body, for which [text()]
    therefore gives what the JSON reader parsed. For any other type, [json()]
    on a response that was not ended raises the HTTPError 415 and the
    response is finalized with status 415 and no body, and so does [text()]
    without a charset and with a type other than text. On a response that
    was ended the two raise the TypeError of the closed stream instead, and
    no 415: the status is overwritten with 415 and the warning is logged. *)
Theorem body_accessors `{P : Platform} (b : RequestBody.t) (v : JSValue)
  (w : World) :
  reader b = Normal v ->
  RequestBody.raw b w = (Normal v, w) /\
  (RequestBody.type b = Some "json" -> RequestBody.json b w = (Normal v, w)) /\
  (RequestBody.type b = Some "text" \/
   RequestBody.is_empty (RequestBody.charset b) = false ->
   RequestBody.text b w = (Normal v, w)) /\
  (forall ct x,
     String.prefix "application/json" ct = true ->
     b = RequestBody.new ct (Some x) ->
     body_json x = Normal v /\ RequestBody.text b w = (Normal v, w)) /\
  (is_open (res w) ->
   (RequestBody.type b <> Some "json" ->
    RequestBody.json b w =
      (Throw (VHTTPError unsupported_media), finalized 415 None None w)) /\
   (RequestBody.type b <> Some "text" ->
    RequestBody.is_empty (RequestBody.charset b) = true ->
    RequestBody.text b w =
      (Throw (VHTTPError unsupported_media), finalized 415 None None w))) /\
  (ended (res w) ->
   (RequestBody.type b <> Some "json" ->
    RequestBody.json b w = (Throw Ctrl.cannot, overwritten 415 "" w)) /\
   (RequestBody.type b <> Some "text" ->
    RequestBody.is_empty (RequestBody.charset b) = true ->
    RequestBody.text b w = (Throw Ctrl.cannot, overwritten 415 "" w))).
Proof.
  intros Hr. pose proof (parse_reads b v w Hr) as Hp.
  assert (Htext : RequestBody.type b = Some "text" \/
                  RequestBody.is_empty (RequestBody.charset b) = false ->
                  RequestBody.text b w = (Normal v, w)).
  { intros Ht. unfold RequestBody.text.
    replace (RequestBody.is_empty (RequestBody.charset b) &&
             negb (bool_decide (RequestBody.type b = Some "text")))
      with false.
    - unfold bind, badType. rewrite assert_false. exact Hp.
    - symmetry. destruct Ht as [Ht|Ht].
      + rewrite bool_decide_eq_true_2 by exact Ht. apply andb_false_r.
      + rewrite Ht. reflexivity. }
  split; [exact Hp|]. split; [|split; [exact Htext|split; [|split]]].
  - intros Ht. unfold RequestBody.json.
    rewrite bool_decide_eq_true_2 by exact Ht. cbn [negb].
    unfold bind, badType. rewrite assert_false. exact Hp.
  - intros ct x Hct ->.
    assert (Hj : dt_type (getDataTypeFromContentType ct) = Some "json")
      by (rewrite (json_data_type ct Hct); reflexivity).
    assert (Hcs : dt_charset (getDataTypeFromContentType ct) =
                  Some (default "utf-8" (match_charset ct)))
      by (rewrite (json_data_type ct Hct); reflexivity).
    split.
    + unfold reader in Hr. cbn [RequestBody.new RequestBody.reqBody RequestBody.type] in Hr.
      rewrite Hj in Hr. rewrite bool_decide_eq_true_2 in Hr by reflexivity.
      exact Hr.
    + apply Htext. right.
      cbn [RequestBody.new RequestBody.charset]. rewrite Hcs.
      cbn [RequestBody.is_empty]. apply String.eqb_neq.
      destruct (match_charset ct) as [c|] eqn:Hm; cbn [default];
        [exact (proj1 (match_charset_shape _ _ Hm)) | discriminate].
  - intros Ho. split.
    + intros Ht. unfold RequestBody.json.
      rewrite bool_decide_eq_false_2 by exact Ht. cbn [negb].
      unfold bind. rewrite badType_raises by exact Ho. reflexivity.
    + intros Ht Hc. unfold RequestBody.text. rewrite Hc.
      rewrite bool_decide_eq_false_2 by exact Ht. cbn [negb andb].
      unfold bind. rewrite badType_raises by exact Ho. reflexivity.
  - intros He. split.
    + intros Ht. unfold RequestBody.json.
      rewrite bool_decide_eq_false_2 by exact Ht. cbn [negb].
      unfold bind, badType. rewrite assert_true_ended by exact He.
      reflexivity.
    + intros Ht Hc. unfold RequestBody.text. rewrite Hc.
      rewrite bool_decide_eq_false_2 by exact Ht. cbn [negb andb].
      unfold bind, badType. rewrite assert_true_ended by exact He.
      reflexivity.
Qed.

Lemma body_accessors_witness :
  RequestBody.text (P := sample_platform)
    (RequestBody.new "application/json"
       (Some (mkBody (Normal (VNum (NInt 12345))) (Normal (VStr "12345"))
                     (Normal (VArrayBuffer "12345")))))
    sample_world = (Normal (VNum (NInt 12345)), sample_world).
Proof.
  pose proof (body_accessors (P := sample_platform)
                (RequestBody.new "application/json"
                   (Some (mkBody (Normal (VNum (NInt 12345)))
                                 (Normal (VStr "12345"))
                                 (Normal (VArrayBuffer "12345")))))
                (VNum (NInt 12345)) sample_world eq_refl) as H.
  destruct H as (_ & _ & _ & H & _).
  exact (proj2 (H "application/json" _ eq_refl eq_refl)).
Defined.

(** * Further properties of the route table *)

(** The segments of a path that [pathToRegexp] looks at: the non-empty
    ones. *)
Definition segments (path : string) : list string :=
  List.filter (fun seg => negb (String.eqb seg "")) (JsString.split "/" path).

Definition is_param (seg : string) : bool :=
  match seg with
  | String ":" _ => true
  | _ => false
  end.

(** The source of one segment. *)
Definition piece (seg : string) : string :=
  if is_param seg then API.PARAM_SOURCE else "\/" +:+ seg.

Definition pieces (segs : list string) : string :=
  fold_right (fun seg acc => piece seg +:+ acc) "" segs.

Lemma segment_step_fold (segs : list string) (re : string) (ps : list string) :
  fold_left API.segment_step segs (re, ps) =
    (re +:+ pieces (List.filter (fun seg => negb (String.eqb seg "")) segs),
     ps ++ List.map JsString.substring1
             (List.filter is_param
                (List.filter (fun seg => negb (String.eqb seg "")) segs))).
Proof.
  revert re ps. induction segs as [|seg segs IH]; intros re ps.
  - cbn. rewrite sapp_nil_r, app_nil_r. reflexivity.
  - cbn [fold_left]. destruct seg as [|c r].
    + cbn [API.segment_step]. rewrite IH. reflexivity.
    + assert (Hs : API.segment_step (re, ps) (String c r) =
                   (re +:+ piece (String c r),
                    ps ++ if is_param (String c r) then [r] else [])).
      { unfold piece. cbn [API.segment_step is_param].
        destruct c as [[] [] [] [] [] [] [] []];
          try (rewrite app_nil_r; reflexivity); reflexivity. }
      rewrite Hs, IH. cbn [List.filter String.eqb negb pieces fold_right].
      rewrite sapp_assoc. f_equal.
      destruct (is_param (String c r)); cbn [List.filter List.map JsString.substring1];
        rewrite <- app_assoc; reflexivity.
Qed.

Lemma split_nonempty (sep : ascii) (s : string) :
  JsString.split sep s <> [].
Proof.
  destruct s as [|c r]; [discriminate|]. cbn [JsString.split].
  destruct (Ascii.eqb c sep); [discriminate|].
  destruct (JsString.split sep r); discriminate.
Qed.

(** Splitting at a separator: the pieces before it, then those after. *)
Lemma split_at (sep : ascii) (a t : string) :
  JsString.split sep (a +:+ String sep t) =
  JsString.split sep a ++ JsString.split sep t.
Proof.
  induction a as [|c r IH].
  - change ("" +:+ String sep t) with (String sep t).
    cbn [JsString.split]. rewrite Ascii.eqb_refl. reflexivity.
  - change (String c r +:+ String sep t) with (String c (r +:+ String sep t)).
    cbn [JsString.split]. rewrite IH.
    destruct (Ascii.eqb c sep); [reflexivity|].
    pose proof (split_nonempty sep r) as Hn.
    destruct (JsString.split sep r) as [|x l]; [congruence | reflexivity].
Qed.

(** X14. The expression [pathToRegexp] builds depends on the non-empty
    segments of the path only: its source is [^], then for each segment the
    parameter pattern when the segment begins with a colon and else a slash
    and the segment as it is, then [$]; the parameter names are the segments
    that begin with a colon, without the colon, in order. So a slash added
    at the end or at the start of a path, or doubled, makes no
    difference. *)
Theorem path_source_segments (path : string) :
  API.path_source path =
    ("^" +:+ pieces (segments path) +:+ "$",
     List.map JsString.substring1 (List.filter is_param (segments path))) /\
  API.path_source (path +:+ "/") = API.path_source path /\
  API.path_source ("/" +:+ path) = API.path_source path /\
  (forall a b,
     API.path_source (a +:+ "//" +:+ b) = API.path_source (a +:+ "/" +:+ b)).
Proof.
  assert (H : forall p,
            API.path_source p =
              ("^" +:+ pieces (segments p) +:+ "$",
               List.map JsString.substring1 (List.filter is_param (segments p)))).
  { intros p. unfold API.path_source. rewrite segment_step_fold. reflexivity. }
  split; [apply H|]. split; [|split].
  - rewrite !H. unfold segments.
    change (path +:+ "/") with (path +:+ String "/" "").
    rewrite split_at, List.filter_app. cbn [JsString.split List.filter String.eqb negb].
    rewrite app_nil_r. reflexivity.
  - rewrite !H. reflexivity.
  - intros a b. rewrite !H. unfold segments.
    change (a +:+ "//" +:+ b) with (a +:+ String "/" (String "/" b)).
    change (a +:+ "/" +:+ b) with (a +:+ String "/" b).
    rewrite !split_at, !List.filter_app.
    cbn [JsString.split]. rewrite Ascii.eqb_refl. reflexivity.
Qed.

(** ** app.ts: the exported route constructors and [normalizePath] *)

Module Endpoint.

Definition post (path : string) (handler : RouteHandler) : Route.t :=
  Route.mk "POST" path handler None.

Definition put (path : string) (handler : RouteHandler) : Route.t :=
  Route.mk "PUT" path handler None.

Definition patch (path : string) (handler : RouteHandler) : Route.t :=
  Route.mk "PATCH" path handler None.

Definition get (path : string) (handler : RouteHandler) : Route.t :=
  Route.mk "GET" path handler None.

Definition del (path : string) (handler : RouteHandler) : Route.t :=
  Route.mk "DELETE" path handler None.

Definition all (handler : RouteHandler) : Route.t :=
  Route.mk "ALL" "*" handler (Some true).

End Endpoint.

(** [normalizePath]:
    [(p.slice(-1) == '/' ? p.slice(0, -1) : p) || '/']. *)
Fixpoint ends_with_slash (p : string) : bool :=
  match p with
  | EmptyString => false
  | String c EmptyString => Ascii.eqb c "/"
  | String _ r => ends_with_slash r
  end.

Fixpoint drop_last (p : string) : string :=
  match p with
  | EmptyString => EmptyString
  | String _ EmptyString => EmptyString
  | String c r => String c (drop_last r)
  end.

Definition normalizePath (p : string) : string :=
  let q := if ends_with_slash p then drop_last p else p in
  if String.eqb q "" then "/" else q.

(** The constructors with the methods of the requests they serve. *)
Definition constructors
  : list ((string -> RouteHandler -> Route.t) * string) :=
  [(Endpoint.post, "POST"); (Endpoint.put, "PUT"); (Endpoint.patch, "PATCH");
   (Endpoint.get, "GET"); (Endpoint.del, "DELETE")].

Definition verbs : list string := ["POST"; "PUT"; "PATCH"; "GET"; "DELETE"].

(** X15. A route made by one of the exported constructors (post, put,
    patch, get, del) for a static path, registered with a fallback made by
    [all] as the application registers its routes: the registration
    succeeds; a request of the constructor's method for that path gets the
    handler; and a request of one of the five methods for any other method
    or path gets the fallback. *)
Theorem constructors_serve_their_method `{P : Platform}
  (ctor : string -> RouteHandler -> Route.t) (V path : string)
  (h fb : RouteHandler) (params : Dictionary) :
  In (ctor, V) constructors ->
  is_static path = true ->
  let registration := App.register [ctor path h; Endpoint.all fb] API.new in
  let api := snd registration in
  fst registration = Normal tt /\
  API.matchRoute api V path params = (Some h, params) /\
  (forall m q,
     In m verbs -> m <> V \/ q <> path ->
     API.matchRoute api m q params = (Some fb, params)).
Proof.
  intros Hin Hs.
  assert (Hc : exists m, ctor = (fun p hd => Route.mk m p hd None) /\
                  JsString.toUpperCase (JsString.toLowerCase m) = V /\ In V verbs).
  { unfold constructors in Hin. cbn [In] in Hin.
    destruct Hin as [H|[H|[H|[H|[H|[]]]]]]; injection H as <- <-;
      eexists; (split; [reflexivity|]); (split; [reflexivity|]);
      unfold verbs; cbn [In]; tauto. }
  destruct Hc as (m0 & -> & HV & HVin).
  assert (Hreg : App.register [Route.mk m0 path h None; Endpoint.all fb] API.new =
                 (Normal tt,
                  API.mk (<[V +:+ " " +:+ path := true]> ∅)
                         (<[V +:+ " " +:+ path := h]> ∅) ∅ (Some fb))).
  { cbn [App.register Route.all Route.method Route.path Route.handler Endpoint.all].
    rewrite bool_decide_eq_false_2 by discriminate.
    rewrite bool_decide_eq_true_2 by reflexivity.
    unfold bind at 1.
    rewrite (addEndpoint_static API.new (JsString.toLowerCase m0) path h)
      by (first [apply lookup_empty | exact Hs]).
    rewrite HV. reflexivity. }
  cbv zeta. rewrite Hreg. cbn [fst snd].
  split; [reflexivity|]. split.
  - unfold API.matchRoute. cbn [API.static]. rewrite lookup_insert_eq. reflexivity.
  - intros m q Hm Hne. unfold API.matchRoute.
    cbn [API.static API.dynamic API.fallbackRoute].
    rewrite lookup_insert_ne.
    + rewrite !lookup_empty. reflexivity.
    + intros E. destruct Hne as [Hne|Hne].
      * apply Hne. unfold verbs in Hm, HVin. cbn [In] in Hm, HVin.
        destruct Hm as [<-|[<-|[<-|[<-|[<-|[]]]]]];
          destruct HVin as [<-|[<-|[<-|[<-|[<-|[]]]]]];
          first [reflexivity | discriminate E].
      * unfold verbs in Hm, HVin. cbn [In] in Hm, HVin.
        destruct Hm as [<-|[<-|[<-|[<-|[<-|[]]]]]];
          destruct HVin as [<-|[<-|[<-|[<-|[<-|[]]]]]];
          first [discriminate E
                | apply Hne; symmetry;
                  exact (append_inj _ _ _ (append_inj _ _ _ E))].
Qed.

Lemma constructors_serve_their_method_witness :
  API.matchRoute
    (snd (App.register (P := sample_platform)
            [Endpoint.get "/foo" sample_handler; Endpoint.all other_handler]
            API.new))
    "GET" "/foo" ∅ = (Some sample_handler, ∅).
Proof.
  pose proof (constructors_serve_their_method (P := sample_platform)
                Endpoint.get "GET" "/foo" sample_handler other_handler ∅) as H.
  cbv zeta in H. apply H; [|reflexivity].
  right. right. right. left. reflexivity.
Defined.

Lemma ends_with_slash_snoc (p : string) (c : ascii) :
  ends_with_slash (p +:+ String c "") = Ascii.eqb c "/".
Proof.
  induction p as [|a p IH]; [reflexivity|].
  change (String a p +:+ String c "") with (String a (p +:+ String c "")).
  destruct p as [|b p]; [reflexivity|]. exact IH.
Qed.

Lemma drop_last_snoc (p : string) (c : ascii) :
  drop_last (p +:+ String c "") = p.
Proof.
  induction p as [|a p IH]; [reflexivity|].
  change (String a p +:+ String c "") with (String a (p +:+ String c "")).
  destruct p as [|b p]; [reflexivity|].
  change (drop_last (String a (String b p +:+ String c "")))
    with (String a (drop_last (String b p +:+ String c ""))).
  rewrite IH. reflexivity.
Qed.

Lemma snoc_not_empty (p : string) (c : ascii) : p +:+ String c "" <> "".
Proof. destruct p; discriminate. Qed.

(** X16. [normalizePath] removes one trailing slash and no more, gives the
    root path for the empty path and for the single slash, leaves a path
    that does not end in a slash as it is, and never gives the empty
    path. *)
Theorem normalizePath_cases (p : string) (c : ascii) :
  normalizePath "" = "/" /\
  normalizePath (p +:+ String c "") =
    (if Ascii.eqb c "/" then if String.eqb p "" then "/" else p
     else p +:+ String c "") /\
  normalizePath (p +:+ "//") = p +:+ "/" /\
  normalizePath p <> "".
Proof.
  assert (Hsnoc : forall q d,
            normalizePath (q +:+ String d "") =
              (if Ascii.eqb d "/" then if String.eqb q "" then "/" else q
               else q +:+ String d "")).
  { intros q d. unfold normalizePath. cbv zeta.
    rewrite ends_with_slash_snoc, drop_last_snoc.
    destruct (Ascii.eqb d "/"); [reflexivity|].
    destruct (String.eqb (q +:+ String d "") "") eqn:E; [|reflexivity].
    apply String.eqb_eq in E. destruct (snoc_not_empty _ _ E). }
  split; [reflexivity|]. split; [apply Hsnoc|]. split.
  - replace (p +:+ "//") with ((p +:+ "/") +:+ "/")
      by (rewrite sapp_assoc; reflexivity).
    rewrite Hsnoc. change (Ascii.eqb "/" "/") with true. cbv iota.
    destruct (String.eqb (p +:+ "/") "") eqn:E; [|reflexivity].
    apply String.eqb_eq in E. destruct (snoc_not_empty _ _ E).
  - unfold normalizePath. cbv zeta.
    destruct (String.eqb _ "") eqn:E; [discriminate|].
    apply String.eqb_neq in E. exact E.
Qed.

(** ** api.ts: the route table over a sequence of registrations *)

(** A call of one of the two registration methods of [API]. *)
Inductive Registration :=
| AddEndpoint (method path : string) (handler : RouteHandler)
| SetFallbackRoute (handler : RouteHandler).

Section Registrations.

Context `{P : Platform}.

Definition registration (c : Registration) : M API.t unit :=
  match c with
  | AddEndpoint method path handler => API.addEndpoint method path handler
  | SetFallbackRoute handler => API.setFallbackRoute handler
  end.

(** The table after the calls [cs], made one after the other, whether they
    return or raise. *)
Definition registered (cs : list Registration) (api : API.t) : API.t :=
  fold_left (fun a c => snd (registration c a)) cs api.

(** A call keeps a static route of a registered pair. *)
Lemma registration_keeps_static (c : Registration) (api : API.t)
  (k : string) (h : RouteHandler) :
  is_Some (API.routes api !! k) -> API.static api !! k = Some h ->
  is_Some (API.routes (snd (registration c api)) !! k) /\
  API.static (snd (registration c api)) !! k = Some h.
Proof.
  intros Hr Hs. destruct c as [method path handler|handler]; cbn [registration].
  - unfold API.addEndpoint, bind, get_state, std_assert.
    case_bool_decide as Hd; cbn [negb]; [split; assumption|].
    assert (Hne : JsString.toUpperCase method +:+ " " +:+ path <> k)
      by (intros <-; exact (Hd Hr)).
    unfold ret, modify, API.pathToRegexp.
    destruct (_ && _); cbn.
    + rewrite !lookup_insert_ne by exact Hne. split; assumption.
    + destruct (API.path_source path) as [source params].
      destruct (RegExp_new source); cbn;
        rewrite lookup_insert_ne by exact Hne; split; assumption.
  - unfold API.setFallbackRoute, bind, get_state, std_assert.
    case_bool_decide; cbn; split; assumption.
Qed.

Lemma registered_keeps_static (cs : list Registration) (api : API.t)
  (k : string) (h : RouteHandler) :
  is_Some (API.routes api !! k) -> API.static api !! k = Some h ->
  API.static (registered cs api) !! k = Some h.
Proof.
  revert api. induction cs as [|c cs IH]; intros api Hr Hs; [exact Hs|].
  cbn [registered fold_left].
  destruct (registration_keeps_static c api k h Hr Hs) as [Hr' Hs'].
  exact (IH _ Hr' Hs').
Qed.

(** A call adds dynamic routes of a method at the end of its list only. *)
Lemma registration_extends_dynamic (c : Registration) (api : API.t)
  (m : string) :
  exists ext,
    default [] (API.dynamic (snd (registration c api)) !! m) =
      default [] (API.dynamic api !! m) ++ ext.
Proof.
  destruct c as [method path handler|handler]; cbn [registration].
  - unfold API.addEndpoint, bind, get_state, std_assert.
    case_bool_decide as Hd; cbn [negb];
      [exists []; symmetry; apply app_nil_r|].
    unfold ret, modify, API.pathToRegexp.
    destruct (_ && _); cbn; [exists []; symmetry; apply app_nil_r|].
    destruct (API.path_source path) as [source params].
    destruct (decide (JsString.toUpperCase method = m)) as [<-|Hne].
    + destruct (RegExp_new source) as [re|]; cbn.
      * rewrite !lookup_insert_eq. cbn. eexists. reflexivity.
      * rewrite lookup_insert_eq. cbn. exists []. symmetry. apply app_nil_r.
    + destruct (RegExp_new source) as [re|]; cbn;
        rewrite !lookup_insert_ne by exact Hne;
        exists []; symmetry; apply app_nil_r.
  - unfold API.setFallbackRoute, bind, get_state, std_assert.
    case_bool_decide; cbn; exists []; symmetry; apply app_nil_r.
Qed.

Lemma registered_extends_dynamic (cs : list Registration) (api : API.t)
  (m : string) :
  exists ext,
    default [] (API.dynamic (registered cs api) !! m) =
      default [] (API.dynamic api !! m) ++ ext.
Proof.
  revert api. induction cs as [|c cs IH]; intros api.
  - exists []. symmetry. apply app_nil_r.
  - cbn [registered fold_left].
    destruct (IH (snd (registration c api))) as [e2 H2].
    destruct (registration_extends_dynamic c api m) as [e1 H1].
    exists (e1 ++ e2). unfold registered in H2. rewrite H2, H1.
    symmetry. apply app_assoc.
Qed.

End Registrations.

Lemma scan_app (rs more : list DynamicRoute.t) (path : string)
  (params : Dictionary) (x : RouteHandler * Dictionary) :
  API.scan rs path params = Some x ->
  API.scan (rs ++ more) path params = Some x.
Proof.
  induction rs as [|r rs IH]; [discriminate|].
  cbn [API.scan app]. destruct (DynamicRoute.regexp r path); [auto|exact IH].
Qed.

(** X17. A static route whose registration returned is served its handler
    from then on: whatever registrations follow, returning or raising, for
    dynamic routes that match the path too or for the fallback, a request
    of the method for the path gets that handler, and the parameters as
    they were. *)
Theorem static_route_is_kept `{P : Platform} (api : API.t)
  (method path : string) (h : RouteHandler) (later : list Registration)
  (params : Dictionary) :
  is_static path = true ->
  fst (API.addEndpoint method path h api) = Normal tt ->
  API.matchRoute
    (registered later (snd (API.addEndpoint method path h api)))
    (JsString.toUpperCase method) path params = (Some h, params).
Proof.
  intros Hs Hok.
  assert (Hr : API.routes api !! (JsString.toUpperCase method +:+ " " +:+ path)
               = None).
  { destruct (API.routes api !! _) as [b|] eqn:E; [|reflexivity].
    rewrite (addEndpoint_duplicate api method path h) in Hok
      by (rewrite E; eauto).
    discriminate Hok. }
  rewrite (addEndpoint_static api method path h Hr Hs). cbn [snd].
  unfold API.matchRoute.
  rewrite (registered_keeps_static later _ _ h).
  - reflexivity.
  - cbn [API.routes]. rewrite lookup_insert_eq. eauto.
  - cbn [API.static]. apply lookup_insert_eq.
Qed.

Lemma static_route_is_kept_witness :
  API.matchRoute
    (registered (P := sample_platform)
       [AddEndpoint "get" "/:id" other_handler;
        AddEndpoint "GET" "/foo" other_handler;
        SetFallbackRoute other_handler]
       (snd (API.addEndpoint (P := sample_platform) "get" "/foo"
               sample_handler API.new)))
    "GET" "/foo" ∅ = (Some sample_handler, ∅).
Proof.
  apply (static_route_is_kept (P := sample_platform) API.new "get" "/foo"
           sample_handler); vm_compute; reflexivity.
Defined.

(** X18. The dynamic routes of a method are tried in the order of their
    registration, over any sequence of registrations: when a dynamic route
    of the table takes a request, then after any further registrations,
    returning or raising, the same request gets the same handler and
    parameters, unless a static route of exactly its method and path is
    there, which goes first. *)
Theorem earlier_dynamic_route_wins `{P : Platform} (api : API.t)
  (later : list Registration) (m path : string) (params ps : Dictionary)
  (h : RouteHandler) :
  API.scan (default [] (API.dynamic api !! m)) path params = Some (h, ps) ->
  let api' := registered later api in
  API.matchRoute api' m path params =
    match API.static api' !! (m +:+ " " +:+ path) with
    | Some hs => (Some hs, params)
    | None => (Some h, ps)
    end.
Proof.
  intros Hscan api'. unfold API.matchRoute.
  destruct (API.static api' !! _); [reflexivity|].
  destruct (registered_extends_dynamic later api m) as [ext Hext].
  fold api' in Hext. rewrite Hext.
  rewrite (scan_app _ ext _ _ _ Hscan). reflexivity.
Qed.

Lemma earlier_dynamic_route_wins_witness :
  API.matchRoute
    (registered (P := sample_platform)
       [AddEndpoint "get" "/a/:y" other_handler;
        AddEndpoint "get" "/a/b" other_handler;
        SetFallbackRoute other_handler]
       (snd (API.addEndpoint (P := sample_platform) "get" "/a/:x"
               sample_handler API.new)))
    "GET" "/a/1" ∅ = (Some sample_handler, <["x" := VStr "1"]> ∅).
Proof.
  apply (earlier_dynamic_route_wins (P := sample_platform)
           (snd (API.addEndpoint (P := sample_platform) "get" "/a/:x"
                   sample_handler API.new))
           [AddEndpoint "get" "/a/:y" other_handler;
            AddEndpoint "get" "/a/b" other_handler;
            SetFallbackRoute other_handler]
           "GET" "/a/1" ∅ (<["x" := VStr "1"]> ∅) sample_handler).
  vm_compute. reflexivity.
Defined.

(** ** api.ts: the address of the client *)

(** X19. The address [trigger] hands to the handler: with an
    X-Forwarded-For header it is what stands before the first comma of the
    header, as it stands (the whole header when it has no comma, the empty
    string for an empty header), and the address of the connection is not
    looked at; without the header it is the address of the connection, and
    [::1] when there is none. *)
Theorem forwarded_address (rq : API.Request) (a b : string) :
  comma_free a = true ->
  let forwarded := Headers.get (API.rq_headers rq) "x-forwarded-for" in
  (forwarded = Some a -> API.client_ip rq = a) /\
  (forwarded = Some (a +:+ String "," b) -> API.client_ip rq = a) /\
  (forwarded = None -> API.client_ip rq = default "::1" (API.rq_ip rq)).
Proof.
  intros Ha forwarded. unfold API.client_ip. fold forwarded.
  split; [|split]; intros ->.
  - rewrite (split_comma_free a Ha). reflexivity.
  - rewrite (split_at_comma a b Ha). reflexivity.
  - reflexivity.
Qed.

Lemma forwarded_address_witness :
  API.client_ip
    (API.mkRequest "GET" [("x-forwarded-for", "10.0.0.1, 10.0.0.2")] ∅ "/"
       (Some "127.0.0.1") None) = "10.0.0.1".
Proof.
  pose proof (forwarded_address
                (API.mkRequest "GET" [("x-forwarded-for", "10.0.0.1, 10.0.0.2")]
                   ∅ "/" (Some "127.0.0.1") None)
                "10.0.0.1" " 10.0.0.2" eq_refl) as H.
  cbv zeta in H. destruct H as (_ & H & _). apply H. reflexivity.
Defined.

(** ** cors.ts: the headers the CORS layer owns *)

(** The names, in lower case, of the headers [cors] may set. *)
Definition cors_names : list string :=
  ["access-control-allow-origin"; "vary"; "access-control-allow-credentials";
   "access-control-expose-headers"; "access-control-allow-methods";
   "access-control-allow-headers"; "access-control-max-age"; "content-length"].

Ltac not_owned Hk :=
  let E := fresh in
  intros E; apply Hk; rewrite <- E; vm_compute; tauto.

Lemma get_vary_not_owned (nv : string) (h : Headers.t) (k : string) :
  ~ In (JsString.toLowerCase k) cors_names ->
  Headers.get (vary_headers nv h) k = Headers.get h k.
Proof. intros Hk. apply get_vary_other. not_owned Hk. Qed.

Lemma get_initCors_not_owned (o : CorsOptions) (og : string) (h : Headers.t)
  (k : string) :
  ~ In (JsString.toLowerCase k) cors_names ->
  Headers.get (initCors_headers o og h) k = Headers.get h k.
Proof.
  intros Hk. unfold initCors_headers.
  set (h1 := match default Cors.DEFAULT_origin (origin o) with
             | OBool false | ORule (RString "") | ORule (RString "*") => _
             | _ => _ end).
  assert (H1 : Headers.get h1 k = Headers.get h k).
  { subst h1.
    destruct (default Cors.DEFAULT_origin (origin o)) as [[]|[s|t]|rs];
      try destruct s as [|[[] [] [] [] [] [] [] []] []];
      rewrite ?get_vary_not_owned by exact Hk;
      apply get_set_other; not_owned Hk. }
  cbv zeta.
  set (h2 := if bool_decide (credentials o = Some true) then _ else _).
  assert (H2 : Headers.get h2 k = Headers.get h k).
  { subst h2. destruct (bool_decide _); [|exact H1].
    rewrite get_set_other by not_owned Hk. exact H1. }
  destruct (exposedHeaders o) as [e|]; [|exact H2].
  destruct (Cors.has_length (Some e)); [|exact H2].
  rewrite get_set_other by not_owned Hk. exact H2.
Qed.

Lemma get_options_not_owned (o : CorsOptions) (needed : string)
  (h : Headers.t) (k : string) :
  ~ In (JsString.toLowerCase k) cors_names ->
  Headers.get (options_headers o needed h) k = Headers.get h k.
Proof.
  intros Hk. unfold options_headers. cbv zeta.
  rewrite get_set_other by not_owned Hk.
  destruct (Cors.maxAge_string (maxAge o)) as [m|];
    [destruct (negb (String.eqb m ""));
       [rewrite get_set_other by not_owned Hk|]|];
    (destruct (if Cors.falsy (allowedHeaders o) then Some (One needed)
               else allowedHeaders o) as [a|] eqn:Ea;
     [destruct (Cors.has_length _);
        [rewrite get_set_other by not_owned Hk|]|]);
    (destruct (Cors.falsy (allowedHeaders o));
     [rewrite get_vary_not_owned by exact Hk|]);
    apply get_set_other; not_owned Hk.
Qed.

(** X20. The CORS layer owns eight headers: on an open response, whatever
    the options and the request, [cors] returns and leaves every header of
    another name as it found it; and unless it answers a preflight it
    leaves the status, the stream and the log as they were too. *)
Theorem cors_keeps_other_headers (conf : option CorsOptions)
  (rq : API.Request) (w : World) (k : string) :
  is_open (res w) ->
  ~ In (JsString.toLowerCase k) cors_names ->
  let after := Cors.cors conf (API.rq_method rq) (API.rq_headers rq) w in
  fst after = Normal tt /\
  Headers.get (headersObj (res (snd after))) k = Headers.get (headersObj (res w)) k /\
  (is_preflight conf rq = false ->
   snd after = with_headers (headersObj (res (snd after))) w).
Proof.
  intros Ho Hk after. subst after. rewrite (cors_spec conf rq w Ho).
  cbn [fst snd]. split; [reflexivity|].
  unfold is_preflight.
  destruct conf as [o|]; cbn [bool_decide];
    [|split; [reflexivity | intros _; symmetry; apply with_headers_same]].
  destruct (Headers.get (API.rq_headers rq) "origin") as [og|];
    [|split; [reflexivity | intros _; symmetry; apply with_headers_same]].
  destruct (String.eqb og "");
    [split; [reflexivity | intros _; symmetry; apply with_headers_same]|].
  cbv zeta. destruct (String.eqb (API.rq_method rq) "OPTIONS").
  - split.
    + unfold finalized, with_headers. cbn.
      rewrite get_options_not_owned by exact Hk.
      apply get_initCors_not_owned. exact Hk.
    + rewrite bool_decide_eq_true_2 by eauto. cbn. discriminate.
  - split.
    + unfold with_headers. cbn. apply get_initCors_not_owned. exact Hk.
    + intros _. reflexivity.
Qed.

Lemma cors_keeps_other_headers_witness :
  Headers.get
    (headersObj
       (res (snd (Cors.cors (Some (mkCors None None None None None None))
                    "OPTIONS" (API.rq_headers sample_preflight)
                    (with_headers [("x-request-id", "7")] sample_world)))))
    "X-Request-Id" = Some "7".
Proof.
  pose proof (cors_keeps_other_headers
                (Some (mkCors None None None None None None)) sample_preflight
                (with_headers [("x-request-id", "7")] sample_world)
                "X-Request-Id") as H.
  cbv zeta in H. destruct H as (_ & H & _).
  - split; reflexivity.
  - vm_compute. intuition discriminate.
  - exact H.
Defined.
